(** * go-down: circuit breaker and bulkhead of the order service

    A shallow embedding of [services/order-service/internal/client]
    ([circuit_break.go], [bulkhead.go], [payment_client.go]) and of the
    order handler that calls it ([handlers/order_handler.go]), and the
    properties of the resilience layer.

    Go code mutates objects reached through pointers; here every method is a
    computation over an explicit [Heap] holding the objects of one
    [PaymentClient].  A computation may return, panic or never return. *)

From Stdlib Require Import ZArith.
From stdpp Require Import gmap strings list relations sorting pretty.

Local Open Scope Z_scope.

(** ** Go values *)

(** Values of the [error] interface that the package creates or forwards.
    [nil] is [None]. *)
Inductive Err : Type :=
  | ErrCircuitOpen                (* errors.New("circuit breaker is open") *)
  | ErrBulkheadFull               (* errors.New("bulkhead is full") *)
  | Canceled                      (* context.Canceled *)
  | DeadlineExceeded              (* context.DeadlineExceeded *)
  | ErrorString (msg : string).   (* fmt.Errorf(...) of the callable *)

Definition error : Type := option Err.

#[global] Instance Err_eq_dec : EqDecision Err.
Proof. solve_decision. Defined.

(** [int] and [time.Duration] are 64-bit signed integers. *)
Definition minInt64 : Z := - 2 ^ 63.
Definition maxInt64 : Z := 2 ^ 63 - 1.
Definition wrap64 (z : Z) : Z := (z + 2 ^ 63) mod 2 ^ 64 - 2 ^ 63.
Definition int64 (z : Z) : Prop := minInt64 <= z <= maxInt64.

(** ** package time

    A [time.Time] obtained from [time.Now] carries a monotonic reading and
    every comparison in the package is between such values, so an instant is
    its position in nanoseconds on that clock.  [Sub] saturates, [Add] and
    [After] are exact. *)
Abbreviation Time := Z (only parsing).
Abbreviation Duration := Z (only parsing).

Definition Second : Duration := 1000000000.

Definition time_Sub (t u : Time) : Duration :=
  if bool_decide (maxInt64 < t - u) then maxInt64
  else if bool_decide (t - u < minInt64) then minInt64
  else t - u.
Definition time_Add (t : Time) (d : Duration) : Time := t + d.
Definition time_After (t u : Time) : bool := bool_decide (u < t).

(** The zero [time.Time] has no monotonic reading and lies in year 1:
    further than any [Duration] before every reading of the clock. *)
Definition zeroTime : Time := - 2 ^ 64.

(** ** package context: what [Done] and [Err] of a context report *)
Record Context : Type := mkContext { ctx_Err : error }.
Definition ctx_Done (ctx : Context) : bool := bool_decide (ctx_Err ctx ≠ None).

(** ** Prometheus vectors, one cell per label value

    Gauges are [float64] in Go; they only ever receive [Inc], [Dec] and
    [Set(float64(state))], so their values are small integers. *)
Record Metrics : Type := mkMetrics {
  circuitBreakerState : gmap string Z;
  circuitBreakerFailures : gmap string Z;
  bulkheadActive : gmap string Z;
  bulkheadRejected : gmap string Z
}.

Definition vec_get (v : gmap string Z) (label : string) : Z := default 0 (v !! label).
Definition vec_Add (d : Z) (label : string) (v : gmap string Z) : gmap string Z :=
  <[label := vec_get v label + d]> v.
Definition vec_Set (x : Z) (label : string) (v : gmap string Z) : gmap string Z :=
  <[label := x]> v.

Definition metrics0 : Metrics := mkMetrics ∅ ∅ ∅ ∅.

(** ** Channels of [struct{}]

    The buffered elements carry no data: a channel is its capacity and the
    number of buffered elements ([cap] and [len]). *)
Record Chan : Type := mkChan { chan_cap : nat; chan_len : nat }.

(** A send can proceed when the buffer has room (nobody ever waits to
    receive from the semaphore: every receive follows the receiver's own
    send), a receive when the buffer is not empty. *)
Definition chan_can_send (c : Chan) : bool := bool_decide (chan_len c < chan_cap c)%nat.
Definition chan_send (c : Chan) : Chan := mkChan (chan_cap c) (S (chan_len c)).
Definition chan_can_recv (c : Chan) : bool := bool_decide (0 < chan_len c)%nat.
Definition chan_recv (c : Chan) : Chan := mkChan (chan_cap c) (pred (chan_len c)).

(** ** bulkhead.go: the struct *)
Record Bulkhead : Type := mkBulkhead { semaphore : Chan; poolName : string }.

(** ** The heap

    [circuitBreaker] and [bulkhead] are the objects a [PaymentClient] points
    to, [result] and [callErr] the variables of [ProcessPayment] that its
    closures capture, [world] whatever else a callable can read or change. *)
Record Heap {CB W R : Type} : Type := mkHeap {
  clock : Time;
  metrics : Metrics;
  circuitBreaker : CB;
  bulkhead : Bulkhead;
  result : option R;
  callErr : error;
  world : W
}.
Arguments Heap : clear implicits.
Arguments mkHeap {CB W R}.

Section Setters.
Context {CB W R : Type}.
Implicit Type h : Heap CB W R.

Definition set_clock (t : Time) h : Heap CB W R :=
  mkHeap t (metrics h) (circuitBreaker h) (bulkhead h) (result h) (callErr h) (world h).
Definition set_metrics (m : Metrics) h : Heap CB W R :=
  mkHeap (clock h) m (circuitBreaker h) (bulkhead h) (result h) (callErr h) (world h).
Definition set_circuitBreaker (cb : CB) h : Heap CB W R :=
  mkHeap (clock h) (metrics h) cb (bulkhead h) (result h) (callErr h) (world h).
Definition set_bulkhead (b : Bulkhead) h : Heap CB W R :=
  mkHeap (clock h) (metrics h) (circuitBreaker h) b (result h) (callErr h) (world h).
Definition set_result (r : option R) h : Heap CB W R :=
  mkHeap (clock h) (metrics h) (circuitBreaker h) (bulkhead h) r (callErr h) (world h).
Definition set_callErr (e : error) h : Heap CB W R :=
  mkHeap (clock h) (metrics h) (circuitBreaker h) (bulkhead h) (result h) e (world h).
Definition set_world (w : W) h : Heap CB W R :=
  mkHeap (clock h) (metrics h) (circuitBreaker h) (bulkhead h) (result h) (callErr h) w.
End Setters.

(** ** Computations

    A call returns a value, panics, or never returns (its goroutine stays
    parked). *)
Inductive Res (A : Type) : Type :=
  | Ret (a : A)
  | Panic (v : string)
  | Hang.
Arguments Ret {A} a.
Arguments Panic {A} v.
Arguments Hang {A}.

Definition M (S A : Type) : Type := S → Res A * S.

Section Monad.
Context {S : Type}.

Definition ret {A} (a : A) : M S A := λ s, (Ret a, s).
Definition bind {A B} (m : M S A) (k : A → M S B) : M S B := λ s,
  match m s with
  | (Ret a, s') => k a s'
  | (Panic v, s') => (Panic v, s')
  | (Hang, s') => (Hang, s')
  end.
Definition gets {A} (f : S → A) : M S A := λ s, (Ret (f s), s).
Definition modify (f : S → S) : M S unit := λ s, (Ret tt, f s).
Definition panic {A} (v : string) : M S A := λ s, (Panic v, s).
Definition hang {A} : M S A := λ s, (Hang, s).

(** [defer deferred; body]: the deferred call runs when [body] returns
    or panics, and the function then returns what [body] returned (or
    goes on panicking). *)
Definition defer {A} (deferred : M S unit) (body : M S A) : M S A := λ s,
  match body s with
  | (Hang, s') => (Hang, s')
  | (r, s') =>
      match deferred s' with
      | (Ret _, s'') => (r, s'')
      | (Panic v, s'') => (Panic v, s'')
      | (Hang, s'') => (Hang, s'')
      end
  end.
End Monad.

#[global] Instance M_ret {S} : MRet (M S) := λ A, ret.
#[global] Instance M_bind {S} : MBind (M S) := λ A B k m, bind m k.

Definition exec {S A} (m : M S A) (s : S) : S := (m s).2.
Definition eval {S A} (m : M S A) (s : S) : Res A := (m s).1.

Section Runtime.
Context {CB W R : Type}.
Local Abbreviation Heap := (Heap CB W R).

(** [time.Now()] and [time.Since(t)] *)
Definition time_Now : M Heap Time := gets clock.
Definition time_Since (t : Time) : M Heap Duration :=
  now ← time_Now; mret (time_Sub now t).

(** [vec.WithLabelValues(label).Inc()], [.Dec()] and [.Set(x)] *)
Definition circuitBreakerFailures_Inc (label : string) : M Heap unit :=
  modify (λ h, let m := metrics h in
    set_metrics (mkMetrics (circuitBreakerState m) (vec_Add 1 label (circuitBreakerFailures m))
                           (bulkheadActive m) (bulkheadRejected m)) h).
Definition circuitBreakerState_Set (label : string) (x : Z) : M Heap unit :=
  modify (λ h, let m := metrics h in
    set_metrics (mkMetrics (vec_Set x label (circuitBreakerState m)) (circuitBreakerFailures m)
                           (bulkheadActive m) (bulkheadRejected m)) h).
Definition bulkheadActive_Add (d : Z) (label : string) : M Heap unit :=
  modify (λ h, let m := metrics h in
    set_metrics (mkMetrics (circuitBreakerState m) (circuitBreakerFailures m)
                           (vec_Add d label (bulkheadActive m)) (bulkheadRejected m)) h).
Definition bulkheadRejected_Inc (label : string) : M Heap unit :=
  modify (λ h, let m := metrics h in
    set_metrics (mkMetrics (circuitBreakerState m) (circuitBreakerFailures m)
                           (bulkheadActive m) (vec_Add 1 label (bulkheadRejected m))) h).
End Runtime.

(** ** circuit_break.go: what both variants share *)
Inductive CircuitState : Type := StateClosed | StateOpen | StateHalfOpen.

#[global] Instance CircuitState_eq_dec : EqDecision CircuitState.
Proof. solve_decision. Defined.

(** [float64(state)] of the [iota] constants *)
Definition CircuitState_float64 (s : CircuitState) : Z :=
  match s with StateClosed => 0 | StateOpen => 1 | StateHalfOpen => 2 end.

(** ** circuit_break.go, sliding-window variant (the one [PaymentClient] is
    documented against: "5 failures in 10 seconds opens circuit for 30
    seconds")

    [canAttempt], [recordFailure] and [recordSuccess] hold [cb.mu] from
    entry to exit, so each is one atomic step on the heap. *)
Module Sliding.

Record CircuitBreaker : Type := mkCircuitBreaker {
  state : CircuitState;
  failureTimestamps : list Time;
  failureThreshold : Z;
  failureWindow : Duration;
  successThreshold : Z;
  timeout : Duration;
  lastFailureTime : Time;
  serviceName : string
}.

Definition with_state (st : CircuitState) (cb : CircuitBreaker) : CircuitBreaker :=
  mkCircuitBreaker st (failureTimestamps cb) (failureThreshold cb) (failureWindow cb)
    (successThreshold cb) (timeout cb) (lastFailureTime cb) (serviceName cb).
Definition with_failureTimestamps (l : list Time) (cb : CircuitBreaker) : CircuitBreaker :=
  mkCircuitBreaker (state cb) l (failureThreshold cb) (failureWindow cb)
    (successThreshold cb) (timeout cb) (lastFailureTime cb) (serviceName cb).
Definition with_lastFailureTime (t : Time) (cb : CircuitBreaker) : CircuitBreaker :=
  mkCircuitBreaker (state cb) (failureTimestamps cb) (failureThreshold cb) (failureWindow cb)
    (successThreshold cb) (timeout cb) t (serviceName cb).

Definition NewCircuitBreaker (serviceName : string) (failureThreshold : Z) (timeout : Duration)
  : CircuitBreaker :=
  {| state := StateClosed;
     failureTimestamps := [];
     failureThreshold := failureThreshold;
     failureWindow := 10 * Second;
     successThreshold := 1;
     timeout := timeout;
     lastFailureTime := zeroTime;
     serviceName := serviceName |}.

Section Methods.
Context {W R : Type}.
Local Abbreviation Heap := (Heap CircuitBreaker W R).

Definition get_cb {A} (f : CircuitBreaker → A) : M Heap A :=
  gets (λ h, f (circuitBreaker h)).
Definition update_cb (f : CircuitBreaker → CircuitBreaker) : M Heap unit :=
  modify (λ h, set_circuitBreaker (f (circuitBreaker h)) h).

Definition setState (st : CircuitState) : M Heap unit :=
  update_cb (with_state st);;
  name ← get_cb serviceName;
  circuitBreakerState_Set name (CircuitState_float64 st).

Definition GetState : M Heap CircuitState := get_cb state.

(** The [default] branch of the switch is for values of [CircuitState]
    other than the three constants; no code produces one. *)
Definition canAttempt : M Heap bool :=
  st ← get_cb state;
  match st with
  | StateClosed => mret true
  | StateOpen =>
      last ← get_cb lastFailureTime;
      elapsed ← time_Since last;
      to ← get_cb timeout;
      if bool_decide (to < elapsed)
      then setState StateHalfOpen;; mret true
      else mret false
  | StateHalfOpen => mret true
  end.

(** The loop counts in an [int]; a slice is never long enough to
    overflow it. *)
Definition countFailuresInWindow (now : Time) : M Heap Z :=
  w ← get_cb failureWindow;
  let windowStart := time_Add now (wrap64 (- w)) in
  l ← get_cb failureTimestamps;
  mret (foldl (λ count ts, if time_After ts windowStart then count + 1 else count) 0 l).

Definition cleanupOldFailures (now : Time) : M Heap unit :=
  w ← get_cb failureWindow;
  let windowStart := time_Add now (wrap64 (- w)) in
  l ← get_cb failureTimestamps;
  let validFailures :=
    foldl (λ valid ts, if time_After ts windowStart then valid ++ [ts] else valid) [] l in
  update_cb (with_failureTimestamps validFailures).

Definition recordFailure : M Heap unit :=
  now ← time_Now;
  update_cb (λ cb, with_failureTimestamps (failureTimestamps cb ++ [now]) cb);;
  update_cb (with_lastFailureTime now);;
  name ← get_cb serviceName;
  circuitBreakerFailures_Inc name;;
  cleanupOldFailures now;;
  failuresInWindow ← countFailuresInWindow now;
  st ← get_cb state;
  match st with
  | StateClosed =>
      threshold ← get_cb failureThreshold;
      if bool_decide (threshold <= failuresInWindow)
      then setState StateOpen
      else mret tt
  | StateHalfOpen => setState StateOpen
  | StateOpen => mret tt
  end.

Definition recordSuccess : M Heap unit :=
  st ← get_cb state;
  match st with
  | StateHalfOpen =>
      update_cb (with_failureTimestamps []);;
      setState StateClosed
  | StateClosed => mret tt
  | StateOpen => mret tt
  end.

Definition Execute {T} (zero : T) (fn : M Heap (T * error)) : M Heap (T * error) :=
  ok ← canAttempt;
  if negb ok then
    name ← get_cb serviceName;
    circuitBreakerFailures_Inc name;;
    mret (zero, Some ErrCircuitOpen)
  else
    '(result, err) ← fn;
    match err with
    | Some _ => recordFailure;; mret (zero, err)
    | None => recordSuccess;; mret (result, None)
    end.
End Methods.
End Sliding.

(** ** circuit_break.go, counter variant: no timestamps and no window, a
    counter of failures that a success resets *)
Module Fixed.

Record CircuitBreaker : Type := mkCircuitBreaker {
  state : CircuitState;
  failureCount : Z;
  failureThreshold : Z;
  successThreshold : Z;
  timeout : Duration;
  lastFailureTime : Time;
  serviceName : string
}.

Definition with_state (st : CircuitState) (cb : CircuitBreaker) : CircuitBreaker :=
  mkCircuitBreaker st (failureCount cb) (failureThreshold cb)
    (successThreshold cb) (timeout cb) (lastFailureTime cb) (serviceName cb).
Definition with_failureCount (n : Z) (cb : CircuitBreaker) : CircuitBreaker :=
  mkCircuitBreaker (state cb) n (failureThreshold cb)
    (successThreshold cb) (timeout cb) (lastFailureTime cb) (serviceName cb).
Definition with_lastFailureTime (t : Time) (cb : CircuitBreaker) : CircuitBreaker :=
  mkCircuitBreaker (state cb) (failureCount cb) (failureThreshold cb)
    (successThreshold cb) (timeout cb) t (serviceName cb).

Definition NewCircuitBreaker (serviceName : string) (failureThreshold : Z) (timeout : Duration)
  : CircuitBreaker :=
  {| state := StateClosed;
     failureCount := 0;
     failureThreshold := failureThreshold;
     successThreshold := 1;
     timeout := timeout;
     lastFailureTime := zeroTime;
     serviceName := serviceName |}.

Section Methods.
Context {W R : Type}.
Local Abbreviation Heap := (Heap CircuitBreaker W R).

Definition get_cb {A} (f : CircuitBreaker → A) : M Heap A :=
  gets (λ h, f (circuitBreaker h)).
Definition update_cb (f : CircuitBreaker → CircuitBreaker) : M Heap unit :=
  modify (λ h, set_circuitBreaker (f (circuitBreaker h)) h).

Definition setState (st : CircuitState) : M Heap unit :=
  update_cb (with_state st);;
  name ← get_cb serviceName;
  circuitBreakerState_Set name (CircuitState_float64 st).

Definition GetState : M Heap CircuitState := get_cb state.

Definition canAttempt : M Heap bool :=
  st ← get_cb state;
  match st with
  | StateClosed => mret true
  | StateOpen =>
      last ← get_cb lastFailureTime;
      elapsed ← time_Since last;
      to ← get_cb timeout;
      if bool_decide (to < elapsed)
      then setState StateHalfOpen;; mret true
      else mret false
  | StateHalfOpen => mret true
  end.

Definition recordFailure : M Heap unit :=
  update_cb (λ cb, with_failureCount (wrap64 (failureCount cb + 1)) cb);;
  now ← time_Now;
  update_cb (with_lastFailureTime now);;
  name ← get_cb serviceName;
  circuitBreakerFailures_Inc name;;
  st ← get_cb state;
  match st with
  | StateClosed =>
      count ← get_cb failureCount;
      threshold ← get_cb failureThreshold;
      if bool_decide (threshold <= count)
      then setState StateOpen
      else mret tt
  | StateHalfOpen => setState StateOpen
  | StateOpen => mret tt
  end.

Definition recordSuccess : M Heap unit :=
  st ← get_cb state;
  match st with
  | StateHalfOpen =>
      update_cb (with_failureCount 0);;
      setState StateClosed
  | StateClosed => update_cb (with_failureCount 0)
  | StateOpen => mret tt
  end.

Definition Execute {T} (zero : T) (fn : M Heap (T * error)) : M Heap (T * error) :=
  ok ← canAttempt;
  if negb ok then
    name ← get_cb serviceName;
    circuitBreakerFailures_Inc name;;
    mret (zero, Some ErrCircuitOpen)
  else
    '(result, err) ← fn;
    match err with
    | Some _ => recordFailure;; mret (zero, err)
    | None => recordSuccess;; mret (result, None)
    end.
End Methods.
End Fixed.

(** ** bulkhead.go *)

(** [make(chan struct{}, maxConcurrent)] panics on a negative size. *)
Definition NewBulkhead (poolName : string) (maxConcurrent : Z) : Res Bulkhead :=
  if bool_decide (maxConcurrent < 0) then Panic "makechan: size out of range"
  else Ret {| semaphore := mkChan (Z.to_nat maxConcurrent) 0; poolName := poolName |}.

(** The communication a [select] statement goes through with. *)
Inductive SelectCase : Type := CaseSend | CaseDone | CaseDefault.

(** [select] takes [default] only when no communication can proceed; when
    both can, the runtime picks one of them at random: [pick_send] is that
    choice. *)
Definition select_case (can_send done pick_send : bool) : SelectCase :=
  match can_send, done with
  | true, true => if pick_send then CaseSend else CaseDone
  | true, false => CaseSend
  | false, true => CaseDone
  | false, false => CaseDefault
  end.

Section BulkheadMethods.
Context {CB W R : Type}.
Local Abbreviation Heap := (Heap CB W R).

Definition update_semaphore (f : Chan → Chan) : M Heap unit :=
  modify (λ h, set_bulkhead (mkBulkhead (f (semaphore (bulkhead h))) (poolName (bulkhead h))) h).

(** [b.semaphore <- struct{}{}], once [select] has chosen it *)
Definition semaphore_send : M Heap unit := update_semaphore chan_send.

(** [<-b.semaphore]: waits for an element *)
Definition semaphore_recv : M Heap unit :=
  can_recv ← gets (λ h, chan_can_recv (semaphore (bulkhead h)));
  if can_recv : bool then update_semaphore chan_recv else hang.

(** The body of the first [select] case, the same in both methods *)
Definition holding_slot (fn : M Heap error) : M Heap error :=
  name ← gets (λ h, poolName (bulkhead h));
  bulkheadActive_Add 1 name;;
  defer (semaphore_recv;;
         name ← gets (λ h, poolName (bulkhead h));
         bulkheadActive_Add (-1) name)
        fn.

Definition rejected : M Heap error :=
  name ← gets (λ h, poolName (bulkhead h));
  bulkheadRejected_Inc name;;
  mret (Some ErrBulkheadFull).

Definition Execute (pick_send : bool) (ctx : Context) (fn : M Heap error) : M Heap error :=
  can_send ← gets (λ h, chan_can_send (semaphore (bulkhead h)));
  match select_case can_send (ctx_Done ctx) pick_send with
  | CaseSend => semaphore_send;; holding_slot fn
  | CaseDone => mret (ctx_Err ctx)
  | CaseDefault => rejected
  end.

Definition TryExecute (fn : M Heap error) : M Heap error :=
  can_send ← gets (λ h, chan_can_send (semaphore (bulkhead h)));
  if can_send : bool then semaphore_send;; holding_slot fn else rejected.

Definition GetActiveCount : M Heap Z :=
  gets (λ h, Z.of_nat (chan_len (semaphore (bulkhead h)))).
End BulkheadMethods.

(** ** payment_client.go (build tag [!stage]) *)
Section PaymentClient.
Context {W PaymentRequest PaymentResponse : Type}.
Local Abbreviation Heap := (Heap Sliding.CircuitBreaker W PaymentResponse).

(** The HTTP round trip is outside the resilience layer: any computation
    that yields a response or an error. *)
Variable makePaymentCall : Context → PaymentRequest → M Heap (option PaymentResponse * error).

(** [NewPaymentClient]: the two guards it allocates *)
Definition NewPaymentClient_circuitBreaker : Sliding.CircuitBreaker :=
  Sliding.NewCircuitBreaker "payment" 5 (30 * Second).
Definition NewPaymentClient_bulkhead : Res Bulkhead := NewBulkhead "payment" 10.

(** The closure handed to the bulkhead: it assigns the captured [result]
    and [callErr] *)
Definition ProcessPayment_func1_1 (ctx : Context) (req : PaymentRequest) : M Heap error :=
  '(r, e) ← makePaymentCall ctx req;
  modify (set_result r);;
  modify (set_callErr e);;
  gets callErr.

(** The closure handed to the circuit breaker *)
Definition ProcessPayment_func1 (ctx : Context) (req : PaymentRequest)
  : M Heap (option PaymentResponse * error) :=
  modify (set_callErr None);;
  bulkheadErr ← TryExecute (ProcessPayment_func1_1 ctx req);
  match bulkheadErr with
  | Some _ => mret (None, bulkheadErr)
  | None =>
      r ← gets result;
      e ← gets callErr;
      mret (r, e)
  end.

Definition ProcessPayment (ctx : Context) (req : PaymentRequest)
  : M Heap (option PaymentResponse * error) :=
  modify (set_result None);;
  '(r, err) ← Sliding.Execute None (ProcessPayment_func1 ctx req);
  modify (set_result r);;
  r ← gets result;
  mret (r, err).
End PaymentClient.

(** ** Goroutines sharing one bulkhead

    Channel operations are atomic, so concurrent callers of [Execute] and
    [TryExecute] interleave at the [select] and at the deferred receive. *)
Inductive Goroutine : Type :=
  | Arriving (ctx : option Context)   (* about to run the select; [None]: TryExecute *)
  | InCallable                        (* holds a slot, the callable is running *)
  | Returned (e : Res error).         (* the method has returned (or panicked) *)

Record Pool : Type := mkPool { pool_sem : Chan; pool_goroutines : list Goroutine }.

Definition arriving_Done (c : option Context) : bool :=
  match c with Some ctx => ctx_Done ctx | None => false end.
Definition arriving_Err (c : option Context) : error :=
  match c with Some ctx => ctx_Err ctx | None => None end.

Inductive pool_step : Pool → Pool → Prop :=
  | step_arrive sem gs c :
      pool_step (mkPool sem gs) (mkPool sem (gs ++ [Arriving c]))
  | step_select sem gs i c pick_send :
      gs !! i = Some (Arriving c) →
      pool_step (mkPool sem gs)
        match select_case (chan_can_send sem) (arriving_Done c) pick_send with
        | CaseSend => mkPool (chan_send sem) (<[i := InCallable]> gs)
        | CaseDone => mkPool sem (<[i := Returned (Ret (arriving_Err c))]> gs)
        | CaseDefault => mkPool sem (<[i := Returned (Ret (Some ErrBulkheadFull))]> gs)
        end
  | step_return sem gs i (r : Res error) :
      gs !! i = Some InCallable →
      r ≠ Hang →
      chan_can_recv sem = true →
      pool_step (mkPool sem gs) (mkPool (chan_recv sem) (<[i := Returned r]> gs)).

Inductive pool_reachable (p0 : Pool) : Pool → Prop :=
  | reach_refl : pool_reachable p0 p0
  | reach_step p p' : pool_reachable p0 p → pool_step p p' → pool_reachable p0 p'.

Definition in_callable (g : Goroutine) : bool :=
  match g with InCallable => true | _ => false end.
Definition executing (p : Pool) : nat :=
  length (filter (λ g, in_callable g = true) (pool_goroutines p)).

Definition new_pool (b : Bulkhead) : Pool := mkPool (semaphore b) [].

(** * Vocabulary of the statements *)

(** ** The breaker after one atomic step

    What [recordFailure] at time [now] and [recordSuccess] leave in the
    struct, written as functions of the struct before the step; the lemmas
    [sliding_recordFailure_run] and the like prove that the methods compute
    them. *)
Definition sliding_after_failure (now : Time) (cb : Sliding.CircuitBreaker)
  : Sliding.CircuitBreaker :=
  let kept := filter (λ ts, time_Add now (wrap64 (- Sliding.failureWindow cb)) < ts)
                     (Sliding.failureTimestamps cb ++ [now]) in
  {| Sliding.state :=
       match Sliding.state cb with
       | StateClosed =>
           if bool_decide (Sliding.failureThreshold cb <= Z.of_nat (length kept))
           then StateOpen else StateClosed
       | _ => StateOpen
       end;
     Sliding.failureTimestamps := kept;
     Sliding.failureThreshold := Sliding.failureThreshold cb;
     Sliding.failureWindow := Sliding.failureWindow cb;
     Sliding.successThreshold := Sliding.successThreshold cb;
     Sliding.timeout := Sliding.timeout cb;
     Sliding.lastFailureTime := now;
     Sliding.serviceName := Sliding.serviceName cb |}.

Definition sliding_after_success (cb : Sliding.CircuitBreaker) : Sliding.CircuitBreaker :=
  match Sliding.state cb with
  | StateHalfOpen => Sliding.with_state StateClosed (Sliding.with_failureTimestamps [] cb)
  | _ => cb
  end.

Definition counter_after_failure (now : Time) (cb : Fixed.CircuitBreaker)
  : Fixed.CircuitBreaker :=
  let count := wrap64 (Fixed.failureCount cb + 1) in
  {| Fixed.state :=
       match Fixed.state cb with
       | StateClosed =>
           if bool_decide (Fixed.failureThreshold cb <= count) then StateOpen else StateClosed
       | _ => StateOpen
       end;
     Fixed.failureCount := count;
     Fixed.failureThreshold := Fixed.failureThreshold cb;
     Fixed.successThreshold := Fixed.successThreshold cb;
     Fixed.timeout := Fixed.timeout cb;
     Fixed.lastFailureTime := now;
     Fixed.serviceName := Fixed.serviceName cb |}.

Definition counter_after_success (cb : Fixed.CircuitBreaker) : Fixed.CircuitBreaker :=
  match Fixed.state cb with
  | StateHalfOpen => Fixed.with_state StateClosed (Fixed.with_failureCount 0 cb)
  | StateClosed => Fixed.with_failureCount 0 cb
  | StateOpen => cb
  end.

(** ** Runs: the clock is moved to the time of each event *)
Section Runs.
Context {W R : Type}.

Definition at_time {CB A} (t : Time) (m : M (Heap CB W R) A) : M (Heap CB W R) A :=
  modify (set_clock t);; m.

(** Failures recorded at the given times, in order *)
Fixpoint failures_at (ts : list Time) : M (Heap Sliding.CircuitBreaker W R) unit :=
  match ts with
  | [] => mret tt
  | t :: ts => at_time t Sliding.recordFailure;; failures_at ts
  end.

Fixpoint counter_failures_at (ts : list Time) : M (Heap Fixed.CircuitBreaker W R) unit :=
  match ts with
  | [] => mret tt
  | t :: ts => at_time t Fixed.recordFailure;; counter_failures_at ts
  end.

(** Calls of the breaker's [Execute] made one after the other at the given
    times *)
Fixpoint executes_at {T} (zero : T)
    (calls : list (Time * M (Heap Sliding.CircuitBreaker W R) (T * error)))
  : M (Heap Sliding.CircuitBreaker W R) (list (T * error)) :=
  match calls with
  | [] => mret []
  | (t, fn) :: calls =>
      r ← at_time t (Sliding.Execute zero fn);
      rs ← executes_at zero calls;
      mret (r :: rs)
  end.
End Runs.

(** The breaker while failures are being recorded at times that none
    exceeds [A] and that all lie within the window [w] of [A]: after [n] of
    them it is Open, or still Closed with at least [n] timestamps younger
    than [A - w] and, once a failure has been recorded, fewer than [th]
    timestamps in all. *)
Definition tripping (w th : Z) (A : Time) (n : nat) (cb : Sliding.CircuitBreaker) : Prop :=
  Sliding.failureWindow cb = w ∧ Sliding.failureThreshold cb = th ∧
  (Sliding.state cb = StateOpen
   ∨ (Sliding.state cb = StateClosed
      ∧ (n ≤ length (filter (λ ts, (A - w < ts)%Z) (Sliding.failureTimestamps cb)))%nat
      ∧ ((0 < n)%nat → Z.of_nat (length (Sliding.failureTimestamps cb)) < th))).

(** ** The bulkhead around the callable *)

(** Between the [select] choosing the send and the callable: the element
    is buffered and the gauge raised *)
Definition acquire {CB W R} : M (Heap CB W R) unit :=
  semaphore_send;;
  name ← gets (λ h, poolName (bulkhead h));
  bulkheadActive_Add 1 name.

(** The deferred function of a call that holds a slot *)
Definition release {CB W R} : M (Heap CB W R) unit :=
  semaphore_recv;;
  name ← gets (λ h, poolName (bulkhead h));
  bulkheadActive_Add (-1) name.

(** As many calls in flight as the bulkhead has slots *)
Definition at_capacity {CB W R} (h : Heap CB W R) : Prop :=
  chan_len (semaphore (bulkhead h)) = chan_cap (semaphore (bulkhead h)).

(** Every buffered element of the semaphore belongs to a goroutine that is
    inside its callable, and the buffer never holds more than its
    capacity. *)
Definition balanced (p : Pool) : Prop :=
  executing p = chan_len (pool_sem p) ∧ (chan_len (pool_sem p) ≤ chan_cap (pool_sem p))%nat.

(** ** Concrete heaps and callables for the examples

    The world counts the calls that got through to the payment service; a
    response is its payment id.  The guards are those of
    [NewPaymentClient]: threshold 5, window 10s, open for 30s, 10 slots. *)
Definition payment_heap (now : Time) (cb : Sliding.CircuitBreaker) (in_flight : nat)
  : Heap Sliding.CircuitBreaker nat string :=
  mkHeap now metrics0 cb (mkBulkhead (mkChan 10 in_flight) "payment") None None 0%nat.

Definition counter_heap (now : Time) (cb : Fixed.CircuitBreaker)
  : Heap Fixed.CircuitBreaker nat string :=
  mkHeap now metrics0 cb (mkBulkhead (mkChan 10 0) "payment") None None 0%nat.

Definition background : Context := mkContext None.
Definition canceled : Context := mkContext (Some Canceled).

(** A payment call that succeeds, and one that fails *)
Definition payment_ok {CB} (ctx : Context) (req : string)
  : M (Heap CB nat string) (option string * error) :=
  modify (λ h, set_world (S (world h)) h);; mret (Some "pay-1"%string, None).
Definition payment_fails {CB} (ctx : Context) (req : string)
  : M (Heap CB nat string) (option string * error) :=
  modify (λ h, set_world (S (world h)) h);;
  mret (None, Some (ErrorString "payment service returned status 500")).

(** A callable that fails but hands back a non-zero result all the same *)
Definition partial_failure {CB} : M (Heap CB nat string) (option string * error) :=
  mret (Some "pay-partial"%string, Some (ErrorString "failed to decode response")).

(** Callables for the bulkhead *)
Definition callable_ok {CB} : M (Heap CB nat string) error :=
  modify (λ h, set_world (S (world h)) h);; mret None.
Definition callable_panics {CB} : M (Heap CB nat string) error :=
  modify (λ h, set_world (S (world h)) h);; panic "nil pointer dereference".

(** Breaker Closed, no history, nothing in flight, at t=0 *)
Definition fresh_heap : Heap Sliding.CircuitBreaker nat string :=
  payment_heap 0 (Sliding.NewCircuitBreaker "payment" 5 (30 * Second)) 0.

(** Four failures at t=0 on record, the clock at t=11s *)
Definition aged_heap : Heap Sliding.CircuitBreaker nat string :=
  payment_heap (11 * Second)
    (Sliding.with_failureTimestamps [0; 0; 0; 0]
       (Sliding.NewCircuitBreaker "payment" 5 (30 * Second))) 0.

(** Three failures on record, breaker Closed *)
Definition closed_heap : Heap Sliding.CircuitBreaker nat string :=
  payment_heap (2 * Second)
    (Sliding.with_failureTimestamps [0; Second; Second]
       (Sliding.NewCircuitBreaker "payment" 5 (30 * Second))) 0.

Definition counter_closed_heap : Heap Fixed.CircuitBreaker nat string :=
  counter_heap (2 * Second)
    (Fixed.with_failureCount 3 (Fixed.NewCircuitBreaker "payment" 5 (30 * Second))).

(** Five failures within two seconds of t=0 *)
Definition tripped_heap : Heap Sliding.CircuitBreaker nat string :=
  exec (failures_at ([0; 500000000; Second; 1500000000] ++ [2 * Second])) fresh_heap.

(** Four failures at t=0 and a fifth exactly one window later *)
Definition boundary_failures : list Time := [0; 0; 0; 0; 10 * Second].
Definition boundary_heap : Heap Sliding.CircuitBreaker nat string :=
  exec (failures_at boundary_failures) fresh_heap.

(** Calls 1s, 29s and exactly [timeout] after the last of those failures *)
Definition later_calls
  : list (Time * M (Heap Sliding.CircuitBreaker nat string) (option string * error)) :=
  [(3 * Second, payment_ok background "order-1"%string);
   (31 * Second, payment_fails background "order-2"%string);
   (32 * Second, payment_ok background "order-3"%string)].

(** Open since the failure at t=0, asked again 31 seconds later *)
Definition open_heap : Heap Sliding.CircuitBreaker nat string :=
  payment_heap (31 * Second)
    (Sliding.with_state StateOpen
       (Sliding.with_lastFailureTime 0
          (Sliding.with_failureTimestamps [0; 0; 0; 0; 0]
             (Sliding.NewCircuitBreaker "payment" 5 (30 * Second))))) 0.

(** A trial is in progress *)
Definition half_open_heap : Heap Sliding.CircuitBreaker nat string :=
  payment_heap (31 * Second)
    (Sliding.with_state StateHalfOpen
       (Sliding.with_lastFailureTime 0
          (Sliding.with_failureTimestamps [0; 0; 0; 0; 0]
             (Sliding.NewCircuitBreaker "payment" 5 (30 * Second))))) 0.

Definition counter_half_open_heap : Heap Fixed.CircuitBreaker nat string :=
  counter_heap (31 * Second)
    (Fixed.with_state StateHalfOpen
       (Fixed.with_failureCount 5 (Fixed.NewCircuitBreaker "payment" 5 (30 * Second)))).

(** All ten slots taken, breaker Closed and without history *)
Definition full_heap : Heap Sliding.CircuitBreaker nat string :=
  payment_heap 0 (Sliding.NewCircuitBreaker "payment" 5 (30 * Second)) 10.

(** Three slots taken *)
Definition busy_heap : Heap Sliding.CircuitBreaker nat string :=
  payment_heap 0 (Sliding.NewCircuitBreaker "payment" 5 (30 * Second)) 3.

Definition payment_bulkhead : Bulkhead := mkBulkhead (mkChan 10 0) "payment".

(** Two goroutines arrived, the first holds a slot and is in its callable *)
Definition one_running : Pool := mkPool (mkChan 10 1) [InCallable; Arriving (Some canceled)].

(** One payment through both guards *)
Definition pay : M (Heap Sliding.CircuitBreaker nat string) (option string * error) :=
  ProcessPayment payment_ok background "order-1"%string.

(** * Vocabulary of the further properties *)

(** ** One breaker under concurrent callers

    Callers of [Execute] meet the breaker only in [canAttempt],
    [recordFailure] and [recordSuccess], each atomic under [cb.mu].  In
    between, time passes and callables run: they move the clock forward
    and leave the breaker and its gauge alone. *)
Inductive breaker_step {W R : Type} : relation (Heap Sliding.CircuitBreaker W R) :=
  | step_elsewhere h h' :
      circuitBreaker h' = circuitBreaker h →
      circuitBreakerState (metrics h') = circuitBreakerState (metrics h) →
      clock h <= clock h' →
      breaker_step h h'
  | step_canAttempt h : breaker_step h (exec Sliding.canAttempt h)
  | step_recordFailure h : breaker_step h (exec Sliding.recordFailure h)
  | step_recordSuccess h : breaker_step h (exec Sliding.recordSuccess h).

(** The edges of the state machine *)
Definition transition (s s' : CircuitState) : Prop :=
  s' = s
  ∨ (s = StateClosed ∧ s' = StateOpen)
  ∨ (s = StateOpen ∧ s' = StateHalfOpen)
  ∨ (s = StateHalfOpen ∧ s' = StateClosed)
  ∨ (s = StateHalfOpen ∧ s' = StateOpen).

(** What the constructor sets and no method assigns *)
Definition same_configuration (cb cb' : Sliding.CircuitBreaker) : Prop :=
  Sliding.failureThreshold cb' = Sliding.failureThreshold cb
  ∧ Sliding.failureWindow cb' = Sliding.failureWindow cb
  ∧ Sliding.successThreshold cb' = Sliding.successThreshold cb
  ∧ Sliding.timeout cb' = Sliding.timeout cb
  ∧ Sliding.serviceName cb' = Sliding.serviceName cb.

(** The failure history is in order of time, holds nothing from the
    future and nothing a window or more older than the last failure; a
    breaker that is not Closed has its last failure in the past; a Closed
    one holds fewer timestamps than a positive threshold. *)
Definition history_ok {W R : Type} (h : Heap Sliding.CircuitBreaker W R) : Prop :=
  let cb := circuitBreaker h in
  StronglySorted Z.le (Sliding.failureTimestamps cb)
  ∧ Forall (λ ts, ts <= clock h) (Sliding.failureTimestamps cb)
  ∧ Forall (λ ts, Sliding.lastFailureTime cb - Sliding.failureWindow cb < ts
                  ∧ ts <= Sliding.lastFailureTime cb) (Sliding.failureTimestamps cb)
  ∧ (Sliding.state cb ≠ StateClosed → Sliding.lastFailureTime cb <= clock h)
  ∧ (Sliding.state cb = StateClosed →
     0 < Sliding.failureThreshold cb →
     Z.of_nat (length (Sliding.failureTimestamps cb)) < Sliding.failureThreshold cb).

(** The [circuit_breaker_state] series of the breaker's name shows its
    state; before the first transition there is no series yet. *)
Definition gauge_ok {W R : Type} (h : Heap Sliding.CircuitBreaker W R) : Prop :=
  let cb := circuitBreaker h in
  circuitBreakerState (metrics h) !! Sliding.serviceName cb
  = Some (CircuitState_float64 (Sliding.state cb))
  ∨ (circuitBreakerState (metrics h) !! Sliding.serviceName cb = None
     ∧ Sliding.state cb = StateClosed).

(** The [circuit_breaker_failures_total] series of the breaker's name *)
Definition failures_total {W R : Type} (h : Heap Sliding.CircuitBreaker W R) : Z :=
  vec_get (circuitBreakerFailures (metrics h)) (Sliding.serviceName (circuitBreaker h)).

(** Four failures within the last second on record, breaker Closed *)
Definition brink_heap : Heap Sliding.CircuitBreaker nat string :=
  payment_heap (2 * Second)
    (Sliding.with_lastFailureTime (2 * Second)
       (Sliding.with_failureTimestamps [Second; Second; 2 * Second; 2 * Second]
          (Sliding.NewCircuitBreaker "payment" 5 (30 * Second)))) 0.

(** The fresh client five seconds later, one failure recorded then *)
Definition one_failure_heap : Heap Sliding.CircuitBreaker nat string :=
  exec Sliding.recordFailure (set_clock (5 * Second) fresh_heap).

(** The [bulkhead_active] and [bulkhead_rejected_total] series of the
    bulkhead's pool *)
Definition active_gauge {CB W R : Type} (h : Heap CB W R) : Z :=
  vec_get (bulkheadActive (metrics h)) (poolName (bulkhead h)).
Definition rejected_total {CB W R : Type} (h : Heap CB W R) : Z :=
  vec_get (bulkheadRejected (metrics h)) (poolName (bulkhead h)).

(** A callable that never comes back *)
Definition callable_stuck {CB} : M (Heap CB nat string) error :=
  modify (λ h, set_world (S (world h)) h);; hang.

(** Nine of ten slots taken *)
Definition last_slot_heap : Heap Sliding.CircuitBreaker nat string :=
  payment_heap 0 (Sliding.NewCircuitBreaker "payment" 5 (30 * Second)) 9.

(** A trial is in progress and all ten slots are taken *)
Definition half_open_full_heap : Heap Sliding.CircuitBreaker nat string :=
  payment_heap (31 * Second)
    (Sliding.with_state StateHalfOpen
       (Sliding.with_lastFailureTime 0
          (Sliding.with_failureTimestamps [0; 0; 0; 0; 0]
             (Sliding.NewCircuitBreaker "payment" 5 (30 * Second))))) 10.

(** * The payment call and the order handler *)

(** ** fmt, net/http and encoding/json, as far as the order service uses
    them *)

(** [err.Error()] *)
Definition Err_Error (e : Err) : string :=
  match e with
  | ErrCircuitOpen => "circuit breaker is open"
  | ErrBulkheadFull => "bulkhead is full"
  | Canceled => "context canceled"
  | DeadlineExceeded => "context deadline exceeded"
  | ErrorString msg => msg
  end.

(** [fmt.Errorf(prefix + "%w", err)]: a new error value, equal to no
    other, whose text is the prefix followed by the text of [err] *)
Definition Errorf_w (prefix : string) (err : Err) : Err :=
  ErrorString (prefix +:+ Err_Error err).

(** A Go pair [(value, err)] of which exactly one is set *)
Inductive Result (A : Type) : Type :=
  | Ok (a : A)
  | Fail (err : Err).
Arguments Ok {A} a.
Arguments Fail {A} err.

Definition StatusOK : Z := 200.
Definition StatusBadRequest : Z := 400.
Definition StatusNotFound : Z := 404.
Definition StatusInternalServerError : Z := 500.
Definition StatusServiceUnavailable : Z := 503.

Record Request : Type := mkRequest {
  Request_ctx : Context;
  Request_Method : string;
  Request_URL : string;
  Request_Header : gmap string string;
  Request_Body : string
}.

Record Response : Type := mkResponse { StatusCode : Z; Body : string }.

(** [httpReq.Header.Set(key, value)] *)
Definition Header_Set (key value : string) (r : Request) : Request :=
  mkRequest (Request_ctx r) (Request_Method r) (Request_URL r)
    (<[key := value]> (Request_Header r)) (Request_Body r).

(** A [float64] is carried as its 64 bits: the package stores and copies
    amounts and never computes with them. *)
Abbreviation float64 := Z (only parsing).

(** ** models/payment.go of the order service *)
Module PaymentRequest.
Record t : Type := mk { OrderID : string; Amount : float64; Method : string }.
End PaymentRequest.

Module PaymentResponse.
Record t : Type := mk {
  PaymentID : string;
  OrderID : string;
  Amount : float64;
  Status : string;
  TransactionID : string;
  ProcessedAt : Time
}.
End PaymentResponse.

(** ** payment_client.go: the HTTP call

    The JSON codec, the construction of the request and the round trip of
    [http.Client] are the libraries' and the network's: parameters.
    [json_Decode resp] is [json.NewDecoder(resp.Body).Decode(&paymentResp)],
    which reads the body off the connection. *)
Section PaymentCall.
Context {CB W : Type}.
Local Abbreviation Heap := (Heap CB W PaymentResponse.t).

Variable baseURL : string.
Variable json_Marshal : PaymentRequest.t → Result string.
Variable http_NewRequestWithContext : Context → string → string → string → Result Request.
Variable httpClient_Do : Request → M Heap (Result Response).
Variable Body_Close : Response → M Heap unit.
Variable json_Decode : Response → M Heap (Result PaymentResponse.t).

(** [makePaymentCall] of the resilient build *)
Definition makePaymentCall (ctx : Context) (req : PaymentRequest.t)
  : M Heap (option PaymentResponse.t * error) :=
  match json_Marshal req with
  | Fail err => mret (None, Some (Errorf_w "failed to marshal request: " err))
  | Ok body =>
      match http_NewRequestWithContext ctx "POST" (baseURL +:+ "/api/payments") body with
      | Fail err => mret (None, Some (Errorf_w "failed to create request: " err))
      | Ok httpReq =>
          let httpReq := Header_Set "Content-Type" "application/json" httpReq in
          sent ← httpClient_Do httpReq;
          match sent with
          | Fail err => mret (None, Some (Errorf_w "failed to send request: " err))
          | Ok resp =>
              defer (Body_Close resp)
                (if bool_decide (StatusCode resp ≠ StatusOK) then
                   mret (None, Some (ErrorString ("payment service returned status "
                                                  +:+ pretty (StatusCode resp))))
                 else
                   decoded ← json_Decode resp;
                   match decoded with
                   | Fail err => mret (None, Some (Errorf_w "failed to decode response: " err))
                   | Ok paymentResp => mret (Some paymentResp, None)
                   end)
          end
      end
  end.

(** [ProcessPayment] of the build with tag [stage]: the same call with
    no guard around it.  That build's [httpClient] has no timeout, so
    its [httpClient_Do] is another round trip than the one of the
    resilient build, which gives up after three seconds. *)
Definition stage_ProcessPayment (ctx : Context) (req : PaymentRequest.t)
  : M Heap (option PaymentResponse.t * error) :=
  match json_Marshal req with
  | Fail err => mret (None, Some (Errorf_w "failed to marshal request: " err))
  | Ok body =>
      match http_NewRequestWithContext ctx "POST" (baseURL +:+ "/api/payments") body with
      | Fail err => mret (None, Some (Errorf_w "failed to create request: " err))
      | Ok httpReq =>
          let httpReq := Header_Set "Content-Type" "application/json" httpReq in
          sent ← httpClient_Do httpReq;
          match sent with
          | Fail err => mret (None, Some (Errorf_w "failed to send request: " err))
          | Ok resp =>
              defer (Body_Close resp)
                (if bool_decide (StatusCode resp ≠ StatusOK) then
                   mret (None, Some (ErrorString ("payment service returned status "
                                                  +:+ pretty (StatusCode resp))))
                 else
                   decoded ← json_Decode resp;
                   match decoded with
                   | Fail err => mret (None, Some (Errorf_w "failed to decode response: " err))
                   | Ok paymentResp => mret (Some paymentResp, None)
                   end)
          end
      end
  end.
End PaymentCall.

(** ** models/order.go of the order service

    The file that declares [OrderRequest], [OrderResponse] and
    [ErrorResponse] is not available: the records have the fields that
    the handler reads and sets, and the types of [CustomerID] and
    [Items], which the handler only copies, are parameters. *)
Module OrderRequest.
Record t {CustomerID_t Items_t : Type} : Type := mk {
  CustomerID : CustomerID_t;
  Amount : float64;
  Items : Items_t
}.
Arguments t : clear implicits.
Arguments mk {CustomerID_t Items_t}.
End OrderRequest.

Module OrderResponse.
Record t {CustomerID_t Items_t : Type} : Type := mk {
  OrderID : string;
  CustomerID : CustomerID_t;
  Amount : float64;
  Status : string;
  PaymentID : string;
  Items : Items_t;
  CreatedAt : Time
}.
Arguments t : clear implicits.
Arguments mk {CustomerID_t Items_t}.
End OrderResponse.

Module ErrorResponse.
Record t : Type := mk { Title : string; Status : Z; Detail : string }.
End ErrorResponse.

(** What [c.JSON(code, obj)] writes: the status code and the object *)
Inductive JSON {CustomerID_t Items_t : Type} : Type :=
  | JSON_ErrorResponse (e : ErrorResponse.t)
  | JSON_OrderResponse (order : OrderResponse.t CustomerID_t Items_t).
Arguments JSON : clear implicits.

(** [s[:n]] *)
Definition slice_to {S : Type} (n : nat) (s : string) : M S string :=
  if bool_decide (n ≤ String.length s)%nat then mret (String.substring 0 n s)
  else panic "slice bounds out of range".

(** ** handlers/order_handler.go

    [paymentClient] points to the client: here the field holds the heap
    on which the client works (its guards, the metrics and the clock).
    [orders] maps ids to orders that nothing changes once stored. *)
Record OrderHandler {CB W CustomerID_t Items_t : Type} : Type := mkOrderHandler {
  paymentClient : Heap CB W PaymentResponse.t;
  orders : gmap string (OrderResponse.t CustomerID_t Items_t)
}.
Arguments OrderHandler : clear implicits.
Arguments mkOrderHandler {CB W CustomerID_t Items_t}.

Section OrderHandlers.
Context {CB W CustomerID_t Items_t : Type}.
Local Abbreviation Heap := (Heap CB W PaymentResponse.t).
Local Abbreviation OrderHandler := (OrderHandler CB W CustomerID_t Items_t).
Local Abbreviation Reply := (Z * JSON CustomerID_t Items_t)%type.

(** [h.paymentClient.ProcessPayment] of the build the service is
    compiled for *)
Variable ProcessPayment : Context → PaymentRequest.t → M Heap (option PaymentResponse.t * error).

Definition NewOrderHandler (paymentClient : Heap) : OrderHandler :=
  mkOrderHandler paymentClient ∅.

(** A computation of the client, run from the handler *)
Definition on_client {A} (m : M Heap A) : M OrderHandler A := λ s,
  let '(r, h) := m (paymentClient s) in (r, mkOrderHandler h (orders s)).

(** [h.orders[orderID] = order] *)
Definition orders_store (orderID : string) (order : OrderResponse.t CustomerID_t Items_t)
  : M OrderHandler unit :=
  modify (λ s, mkOrderHandler (paymentClient s) (<[orderID := order]> (orders s))).

(** [CreateOrder]: [bound] is what [c.ShouldBindJSON(&req)] yields, [ctx]
    the request's context and [uuid] the text of the fresh UUID; the
    value returned is what the handler hands to [c.JSON]. *)
Definition CreateOrder (bound : Result (OrderRequest.t CustomerID_t Items_t))
    (ctx : Context) (uuid : string) : M OrderHandler Reply :=
  match bound with
  | Fail err =>
      mret (StatusBadRequest,
            JSON_ErrorResponse
              (ErrorResponse.mk "Bad Request" StatusBadRequest
                 ("Invalid order request: " +:+ Err_Error err)))
  | Ok req =>
      prefix ← slice_to 8 uuid;
      let orderID := "order-" +:+ prefix in
      let paymentReq := PaymentRequest.mk orderID (OrderRequest.Amount req) "credit_card" in
      '(paymentResp, err) ← on_client (ProcessPayment ctx paymentReq);
      match err with
      | Some e =>
          if bool_decide (e = ErrCircuitOpen) then
            mret (StatusServiceUnavailable,
                  JSON_ErrorResponse
                    (ErrorResponse.mk "Service Unavailable" StatusServiceUnavailable
                       "Payment service is temporarily unavailable (circuit breaker open)"))
          else if bool_decide (e = ErrBulkheadFull) then
            mret (StatusServiceUnavailable,
                  JSON_ErrorResponse
                    (ErrorResponse.mk "Service Unavailable" StatusServiceUnavailable
                       "Too many concurrent payment requests (bulkhead full)"))
          else
            mret (StatusInternalServerError,
                  JSON_ErrorResponse
                    (ErrorResponse.mk "Internal Server Error" StatusInternalServerError
                       ("Failed to process payment: " +:+ Err_Error e)))
      | None =>
          match paymentResp with
          | None => panic "invalid memory address or nil pointer dereference"
          | Some paymentResp =>
              now ← on_client time_Now;
              let order :=
                OrderResponse.mk orderID (OrderRequest.CustomerID req) (OrderRequest.Amount req)
                  "completed" (PaymentResponse.PaymentID paymentResp)
                  (OrderRequest.Items req) now in
              orders_store orderID order;;
              mret (StatusOK, JSON_OrderResponse order)
          end
      end
  end.

(** [GetOrder]: [orderID] is [c.Param("id")] *)
Definition GetOrder (orderID : string) : M OrderHandler Reply :=
  found ← gets (λ s, orders s !! orderID);
  match found with
  | None =>
      mret (StatusNotFound,
            JSON_ErrorResponse
              (ErrorResponse.mk "Not Found" StatusNotFound
                 ("Order " +:+ orderID +:+ " not found")))
  | Some order => mret (StatusOK, JSON_OrderResponse order)
  end.
End OrderHandlers.

(** ** A payment service and requests for the examples

    The world lists the bodies of the requests that reached the payment
    service, the latest first.  The codec of the examples writes a payment
    request as its order id and reads a response off the same text. *)
Definition service_heap (now : Time) (cb : Sliding.CircuitBreaker) (in_flight : nat)
  : Heap Sliding.CircuitBreaker (list string) PaymentResponse.t :=
  mkHeap now metrics0 cb (mkBulkhead (mkChan 10 in_flight) "payment") None None [].

Definition demo_baseURL : string := "http://payment-service:8082".
Definition demo_Marshal (req : PaymentRequest.t) : Result string :=
  Ok (PaymentRequest.OrderID req).
Definition demo_NewRequest (ctx : Context) (method url body : string) : Result Request :=
  Ok (mkRequest ctx method url ∅ body).
Definition demo_Decode {CB} (resp : Response)
  : M (Heap CB (list string) PaymentResponse.t) (Result PaymentResponse.t) :=
  let body := Body resp in
  mret (if bool_decide (body = "") then Fail (ErrorString "EOF")
        else Ok (PaymentResponse.mk ("pay-" +:+ body) body 0 "completed" ("txn-" +:+ body) 0)).
Definition demo_Close {CB} (resp : Response)
  : M (Heap CB (list string) PaymentResponse.t) unit := mret tt.

(** A service that answers every request with the given status and the
    request's body, and one that cannot be reached *)
Definition service_answers {CB} (status : Z) (q : Request)
  : M (Heap CB (list string) PaymentResponse.t) (Result Response) :=
  modify (λ h, set_world (Request_Body q :: world h) h);;
  mret (Ok (mkResponse status (Request_Body q))).
Definition service_unreachable {CB} (q : Request)
  : M (Heap CB (list string) PaymentResponse.t) (Result Response) :=
  mret (Fail (ErrorString "dial tcp: connection refused")).

Definition demo_call {CB} (status : Z) :=
  makePaymentCall (CB := CB) demo_baseURL demo_Marshal demo_NewRequest
    (service_answers status) demo_Close demo_Decode.
Definition demo_stage {CB} (status : Z) :=
  stage_ProcessPayment (CB := CB) demo_baseURL demo_Marshal demo_NewRequest
    (service_answers status) demo_Close demo_Decode.

Definition demo_payment : PaymentRequest.t := PaymentRequest.mk "order-7" 0 "credit_card".

(** The bits of 100.0 *)
Definition demo_order : OrderRequest.t string (list string) :=
  OrderRequest.mk "customer-1" 4636737291354636288 ["book"; "pen"].
Definition demo_uuid : string := "123e4567-e89b-12d3-a456-426614174000".

(** Handlers on a fresh client, on one whose bulkhead is full and on one
    whose breaker is Open *)
Definition fresh_handler : OrderHandler Sliding.CircuitBreaker (list string) string (list string) :=
  NewOrderHandler (service_heap 0 (Sliding.NewCircuitBreaker "payment" 5 (30 * Second)) 0).
Definition full_handler : OrderHandler Sliding.CircuitBreaker (list string) string (list string) :=
  NewOrderHandler (service_heap 0 (Sliding.NewCircuitBreaker "payment" 5 (30 * Second)) 10).
Definition open_handler : OrderHandler Sliding.CircuitBreaker (list string) string (list string) :=
  NewOrderHandler
    (service_heap (3 * Second)
       (Sliding.with_state StateOpen
          (Sliding.with_lastFailureTime (2 * Second)
             (Sliding.with_failureTimestamps [0; 0; 0; 0; 2 * Second]
                (Sliding.NewCircuitBreaker "payment" 5 (30 * Second))))) 0).

(** A bulkhead without slots *)
Definition no_slot_heap : Heap Sliding.CircuitBreaker nat string :=
  mkHeap 0 metrics0 (Sliding.NewCircuitBreaker "payment" 5 (30 * Second))
    (mkBulkhead (mkChan 0 0) "payment") None None 0%nat.

(** The order that the fresh handler creates for [demo_order] at t=0 *)
Definition demo_created : OrderResponse.t string (list string) :=
  OrderResponse.mk "order-123e4567" "customer-1" 4636737291354636288 "completed"
    "pay-order-123e4567" ["book"; "pen"] 0.

(** A handler whose client has four payment failures of the last second
    on record, breaker Closed *)
Definition brink_handler : OrderHandler Sliding.CircuitBreaker (list string) string (list string) :=
  NewOrderHandler
    (service_heap (2 * Second)
       (Sliding.with_lastFailureTime (2 * Second)
          (Sliding.with_failureTimestamps [Second; Second; 2 * Second; 2 * Second]
             (Sliding.NewCircuitBreaker "payment" 5 (30 * Second)))) 0).

(** * Proofs *)

Ltac unfold_monad :=
  unfold mbind, mret, M_bind, M_ret, bind, ret, gets, modify, hang, panic, defer,
    exec, eval in *.

Ltac unfold_bulkhead :=
  unfold Execute, TryExecute, holding_slot, rejected, semaphore_send, semaphore_recv,
    update_semaphore, bulkheadActive_Add, bulkheadRejected_Inc in *.

(** ** Arithmetic of the 64-bit types *)

Lemma wrap64_id z : int64 z → wrap64 z = z.
Proof.
  unfold int64, wrap64, minInt64, maxInt64. intros Hz.
  rewrite Z.mod_small; lia.
Qed.

Lemma wrap64_neg_duration d : int64 d → 0 < d → wrap64 (- d) = - d.
Proof.
  intros Hd Hpos. apply wrap64_id.
  unfold int64, minInt64, maxInt64 in *. lia.
Qed.

Lemma time_Sub_le t u d : int64 d → t - u <= d → time_Sub t u <= d.
Proof.
  unfold int64, time_Sub, minInt64, maxInt64. intros Hd Hle.
  repeat case_bool_decide; lia.
Qed.

Lemma time_Sub_exact t u : int64 (t - u) → time_Sub t u = t - u.
Proof.
  unfold int64, time_Sub, minInt64, maxInt64. intros Hd.
  repeat case_bool_decide; lia.
Qed.

(** ** The two loops over [failureTimestamps] *)

Lemma count_loop (windowStart : Time) (l : list Time) (n : Z) :
  foldl (λ count ts, if time_After ts windowStart then count + 1 else count) n l
  = n + Z.of_nat (length (filter (λ ts, windowStart < ts) l)).
Proof.
  revert n. induction l as [|t l IH]; intros n; simpl; [lia|].
  rewrite IH. unfold time_After. rewrite filter_cons.
  case_bool_decide; case_decide; cbn [length]; lia.
Qed.

Lemma cleanup_loop (windowStart : Time) (l acc : list Time) :
  foldl (λ valid ts, if time_After ts windowStart then valid ++ [ts] else valid) acc l
  = acc ++ filter (λ ts, windowStart < ts) l.
Proof.
  revert acc. induction l as [|t l IH]; intros acc; simpl.
  - by rewrite app_nil_r.
  - rewrite IH. unfold time_After. rewrite filter_cons.
    case_bool_decide; case_decide; try lia; [|done].
    by rewrite <- app_assoc.
Qed.

Lemma filter_filter_weaker (a b : Z) (l : list Z) :
  a <= b →
  filter (λ x, b < x) (filter (λ x, a < x) l) = filter (λ x, b < x) l.
Proof.
  intros Hab. induction l as [|x l IH]; [done|].
  rewrite (filter_cons _ x l), (filter_cons (λ y, b < y) x l).
  destruct (decide (a < x)) as [Ha|Ha], (decide (b < x)) as [Hb|Hb];
    rewrite ?filter_cons, ?decide_True, ?decide_False by done; rewrite ?IH; try done; lia.
Qed.

Lemma latest_exists (l : list Z) :
  l ≠ [] → ∃ A, A ∈ l ∧ Forall (λ t, t <= A) l.
Proof.
  induction l as [|x l IH]; [done|]. intros _.
  destruct l as [|y l].
  - exists x. split; [by constructor|]. repeat constructor. lia.
  - destruct IH as (A & HA & Hle); [done|].
    destruct (decide (A <= x)).
    + exists x. split; [by constructor|]. constructor; [lia|].
      eapply Forall_impl; [exact Hle|]. simpl. lia.
    + exists A. split; [by constructor|]. constructor; [lia|done].
Qed.

(** ** The atomic steps of the sliding-window breaker *)
Section SlidingSteps.
Import Sliding.
Context {W R : Type}.
Implicit Type h : Heap CircuitBreaker W R.

Lemma sliding_recordFailure_run h :
  ∃ m, recordFailure h
       = (Ret tt, set_metrics m
                    (set_circuitBreaker (sliding_after_failure (clock h) (circuitBreaker h)) h)).
Proof.
  unfold recordFailure, cleanupOldFailures, countFailuresInWindow, setState,
    get_cb, update_cb, time_Now, circuitBreakerFailures_Inc, circuitBreakerState_Set.
  unfold_monad. simpl.
  rewrite cleanup_loop, count_loop. simpl.
  rewrite filter_filter_weaker, Z.add_0_l by lia.
  unfold sliding_after_failure.
  destruct h as [clk m cb b r e w]; destruct cb as [st l th win sth to lft name]; simpl.
  destruct st; simpl; try case_bool_decide; eexists; reflexivity.
Qed.

Lemma sliding_recordSuccess_run h :
  ∃ m, recordSuccess h
       = (Ret tt, set_metrics m (set_circuitBreaker (sliding_after_success (circuitBreaker h)) h)).
Proof.
  unfold recordSuccess, setState, get_cb, update_cb, circuitBreakerState_Set,
    sliding_after_success.
  unfold_monad. simpl.
  destruct h as [clk m cb b r e w]; destruct cb as [st l th win sth to lft name]; simpl.
  destruct st; simpl; eexists; reflexivity.
Qed.

Lemma sliding_recordSuccess_closed h :
  state (circuitBreaker h) = StateClosed → recordSuccess h = (Ret tt, h).
Proof.
  unfold recordSuccess, get_cb. unfold_monad. simpl. by intros ->.
Qed.

Lemma canAttempt_open_waiting h :
  state (circuitBreaker h) = StateOpen →
  time_Sub (clock h) (lastFailureTime (circuitBreaker h)) <= timeout (circuitBreaker h) →
  canAttempt h = (Ret false, h).
Proof.
  intros Hst Hwait. unfold canAttempt, get_cb, time_Since, time_Now. unfold_monad.
  simpl. rewrite Hst. simpl. case_bool_decide; [lia | done].
Qed.

Lemma canAttempt_open_elapsed h :
  state (circuitBreaker h) = StateOpen →
  timeout (circuitBreaker h) < time_Sub (clock h) (lastFailureTime (circuitBreaker h)) →
  canAttempt h = (Ret true, exec (setState StateHalfOpen) h).
Proof.
  intros Hst Hwait. unfold canAttempt, get_cb, time_Since, time_Now. unfold_monad.
  simpl. rewrite Hst. simpl. case_bool_decide; [done | lia].
Qed.

Lemma canAttempt_not_open h :
  state (circuitBreaker h) ≠ StateOpen → canAttempt h = (Ret true, h).
Proof.
  intros Hst. unfold canAttempt, get_cb. unfold_monad. simpl.
  by destruct (state (circuitBreaker h)).
Qed.

Lemma failures_at_run (ts : list Time) h :
  eval (failures_at ts) h = Ret tt ∧
  circuitBreaker (exec (failures_at ts) h)
  = foldl (λ cb t, sliding_after_failure t cb) (circuitBreaker h) ts.
Proof.
  revert h. induction ts as [|t ts IH]; intros h; [done|].
  cbn [failures_at foldl]. unfold at_time.
  destruct (sliding_recordFailure_run (set_clock t h)) as [m Hrun].
  specialize (IH (set_metrics m (set_circuitBreaker
    (sliding_after_failure t (circuitBreaker h)) (set_clock t h)))).
  unfold_monad. simpl in *. rewrite Hrun. simpl. exact IH.
Qed.

Lemma sliding_Execute_run {T} (zero : T) (fn : M (Heap CircuitBreaker W R) (T * error)) h :
  Execute zero fn h
  = match canAttempt h with
    | (Ret true, h1) =>
        match fn h1 with
        | (Ret (r, None), h2) => (Ret (r, None), exec recordSuccess h2)
        | (Ret (r, Some e), h2) => (Ret (zero, Some e), exec recordFailure h2)
        | (Panic v, h2) => (Panic v, h2)
        | (Hang, h2) => (Hang, h2)
        end
    | (Ret false, h1) =>
        (Ret (zero, Some ErrCircuitOpen),
         exec (circuitBreakerFailures_Inc (serviceName (circuitBreaker h1))) h1)
    | (Panic v, h1) => (Panic v, h1)
    | (Hang, h1) => (Hang, h1)
    end.
Proof.
  unfold Execute. unfold mbind, M_bind, bind at 1.
  destruct (canAttempt h) as [[[|]| |] h1]; simpl; try done.
  unfold bind at 1. destruct (fn h1) as [[[r [e|]]| |] h2]; simpl; try done.
  - destruct (sliding_recordFailure_run h2) as [m Hm].
    unfold_monad. by rewrite Hm.
  - destruct (sliding_recordSuccess_run h2) as [m Hm].
    unfold_monad. by rewrite Hm.
Qed.

(** While the breaker waits in Open, [Execute] rejects and only the
    rejection counter moves. *)
Lemma Execute_open_waiting {T} (zero : T) (fn : M (Heap CircuitBreaker W R) (T * error)) h :
  state (circuitBreaker h) = StateOpen →
  time_Sub (clock h) (lastFailureTime (circuitBreaker h)) <= timeout (circuitBreaker h) →
  ∃ m, Execute zero fn h = (Ret (zero, Some ErrCircuitOpen), set_metrics m h).
Proof.
  intros Hst Hwait. rewrite sliding_Execute_run, canAttempt_open_waiting by done.
  eexists. reflexivity.
Qed.

Lemma executes_at_open_waiting {T} (zero : T)
    (calls : list (Time * M (Heap CircuitBreaker W R) (T * error))) h :
  state (circuitBreaker h) = StateOpen →
  Forall (λ call, time_Sub call.1 (lastFailureTime (circuitBreaker h))
                  <= timeout (circuitBreaker h)) calls →
  eval (executes_at zero calls) h = Ret (map (λ _, (zero, Some ErrCircuitOpen)) calls)
  ∧ ∃ m t, exec (executes_at zero calls) h = set_metrics m (set_clock t h).
Proof.
  intros Hst Hcalls. revert h Hst Hcalls.
  induction calls as [|[t fn] calls IH]; intros h Hst Hcalls.
  - split; [done|]. exists (metrics h), (clock h). by destruct h.
  - apply Forall_cons in Hcalls as [Ht Hcalls]. simpl in Ht.
    destruct (Execute_open_waiting zero fn (set_clock t h)) as [m Hrun]; [done..|].
    destruct (IH (set_metrics m (set_clock t h))) as [Hres (m' & t' & Hheap)]; [done..|].
    unfold eval, exec in *. cbn [executes_at]. unfold at_time.
    unfold mbind, M_bind, bind, modify, mret, M_ret, ret in *. simpl.
    rewrite Hrun.
    destruct (executes_at zero calls (set_metrics m (set_clock t h))) as [[rs| |] h'];
      simpl in *; try done.
    injection Hres as ->. split; [done|]. exists m', t'. by rewrite Hheap.
Qed.
End SlidingSteps.

(** ** Failures accumulating toward the threshold *)

Lemma tripping_step w th A n cb t :
  int64 w → 0 < w → t <= A → A - w < t →
  tripping w th A n cb → tripping w th A (S n) (sliding_after_failure t cb).
Proof.
  intros Hw Hpos HtA HAt (Hwin & Hth & Hinv).
  unfold tripping, sliding_after_failure. simpl.
  split; [done|]. split; [done|].
  rewrite Hwin, Hth, wrap64_neg_duration by done. unfold time_Add. rewrite Z.add_opp_r.
  destruct Hinv as [-> | (-> & Hcount & _)]; [by left|].
  case_bool_decide as Hcmp; [by left|]. right. split; [done|].
  rewrite filter_filter_weaker by lia.
  rewrite filter_app, length_app, filter_cons, decide_True by done. simpl.
  split; lia.
Qed.

Lemma tripping_run w th A ts : ∀ n cb,
  int64 w → 0 < w → Forall (λ t, t <= A ∧ A - w < t) ts →
  tripping w th A n cb →
  tripping w th A (n + length ts) (foldl (λ cb t, sliding_after_failure t cb) cb ts).
Proof.
  induction ts as [|t ts IH]; intros n cb Hw Hpos Hts Hinv; simpl.
  - by rewrite Nat.add_0_r.
  - apply Forall_cons in Hts as [[HtA HAt] Hts].
    replace (n + S (length ts))%nat with (S n + length ts)%nat by lia.
    apply IH; [done..|]. by apply tripping_step.
Qed.

Lemma last_failure_time cb ts tn :
  Sliding.lastFailureTime (foldl (λ cb t, sliding_after_failure t cb) cb (ts ++ [tn])) = tn.
Proof. by rewrite foldl_app. Qed.

Lemma timeout_kept ts : ∀ cb,
  Sliding.timeout (foldl (λ cb t, sliding_after_failure t cb) cb ts) = Sliding.timeout cb.
Proof. induction ts as [|t ts IH]; intros cb; simpl; [done|]. by rewrite IH. Qed.

(** ** The atomic steps of the counter breaker *)
Section CounterSteps.
Import Fixed.
Context {W R : Type}.
Implicit Type h : Heap CircuitBreaker W R.

Lemma counter_recordFailure_run h :
  ∃ m, recordFailure h
       = (Ret tt, set_metrics m
                    (set_circuitBreaker (counter_after_failure (clock h) (circuitBreaker h)) h)).
Proof.
  unfold recordFailure, setState, get_cb, update_cb, time_Now,
    circuitBreakerFailures_Inc, circuitBreakerState_Set, counter_after_failure.
  unfold_monad. simpl.
  destruct h as [clk m cb b r e w]; destruct cb as [st c th sth to lft name]; simpl.
  destruct st; simpl; try case_bool_decide; eexists; reflexivity.
Qed.

Lemma counter_recordSuccess_run h :
  ∃ m, recordSuccess h
       = (Ret tt, set_metrics m (set_circuitBreaker (counter_after_success (circuitBreaker h)) h)).
Proof.
  unfold recordSuccess, setState, get_cb, update_cb, circuitBreakerState_Set,
    counter_after_success.
  unfold_monad. simpl.
  destruct h as [clk m cb b r e w]; destruct cb as [st c th sth to lft name]; simpl.
  destruct st; simpl; eexists; reflexivity.
Qed.

Lemma counter_Execute_run {T} (zero : T) (fn : M (Heap CircuitBreaker W R) (T * error)) h :
  Execute zero fn h
  = match canAttempt h with
    | (Ret true, h1) =>
        match fn h1 with
        | (Ret (r, None), h2) => (Ret (r, None), exec recordSuccess h2)
        | (Ret (r, Some e), h2) => (Ret (zero, Some e), exec recordFailure h2)
        | (Panic v, h2) => (Panic v, h2)
        | (Hang, h2) => (Hang, h2)
        end
    | (Ret false, h1) =>
        (Ret (zero, Some ErrCircuitOpen),
         exec (circuitBreakerFailures_Inc (serviceName (circuitBreaker h1))) h1)
    | (Panic v, h1) => (Panic v, h1)
    | (Hang, h1) => (Hang, h1)
    end.
Proof.
  unfold Execute. unfold mbind, M_bind, bind at 1.
  destruct (canAttempt h) as [[[|]| |] h1]; simpl; try done.
  unfold bind at 1. destruct (fn h1) as [[[r [e|]]| |] h2]; simpl; try done.
  - destruct (counter_recordFailure_run h2) as [m Hm].
    unfold_monad. by rewrite Hm.
  - destruct (counter_recordSuccess_run h2) as [m Hm].
    unfold_monad. by rewrite Hm.
Qed.

Lemma counter_failures_at_run (ts : list Time) h :
  circuitBreaker (exec (counter_failures_at ts) h)
  = foldl (λ cb t, counter_after_failure t cb) (circuitBreaker h) ts.
Proof.
  revert h. induction ts as [|t ts IH]; intros h; [done|].
  cbn [counter_failures_at foldl]. unfold at_time.
  destruct (counter_recordFailure_run (set_clock t h)) as [m Hrun].
  specialize (IH (set_metrics m (set_circuitBreaker
    (counter_after_failure t (circuitBreaker h)) (set_clock t h)))).
  unfold_monad. simpl in *. rewrite Hrun. simpl. exact IH.
Qed.

Lemma counter_failures_fold (ts : list Time) : ∀ cb,
  0 <= failureCount cb →
  failureCount cb + Z.of_nat (length ts) <= maxInt64 →
  let cb' := foldl (λ cb t, counter_after_failure t cb) cb ts in
  failureCount cb' = failureCount cb + Z.of_nat (length ts)
  ∧ failureThreshold cb' = failureThreshold cb
  ∧ (state cb = StateOpen → state cb' = StateOpen)
  ∧ (state cb = StateClosed → ts ≠ [] →
     state cb' = if bool_decide (failureThreshold cb
                                 <= failureCount cb + Z.of_nat (length ts))
                 then StateOpen else StateClosed).
Proof.
  induction ts as [|t ts IH]; intros cb H0 Hmax; simpl.
  { split; [lia|]. split; [done|]. split; done. }
  rewrite length_cons, Nat2Z.inj_succ in Hmax.
  assert (wrap64 (failureCount cb + 1) = failureCount cb + 1) as Hwrap.
  { apply wrap64_id. unfold int64, minInt64, maxInt64 in *. lia. }
  destruct (IH (counter_after_failure t cb)) as (Hc & Hth & Hopen & Hclosed).
  { simpl. rewrite Hwrap. lia. }
  { simpl. rewrite Hwrap. lia. }
  simpl in Hc, Hth, Hopen, Hclosed. rewrite Hwrap in *.
  rewrite Nat2Z.inj_succ.
  split; [rewrite Hc; lia|]. split; [done|]. split.
  - intros Hst. apply Hopen. by rewrite Hst.
  - intros Hst _. rewrite Hst in *.
    destruct ts as [|t' ts].
    + simpl. rewrite Hwrap, Hst. done.
    + case_bool_decide as Hnow.
      * rewrite Hopen by done. rewrite bool_decide_eq_true_2; [done|]. lia.
      * rewrite Hclosed by done.
        replace (failureCount cb + 1 + Z.of_nat (length (t' :: ts)))
          with (failureCount cb + Z.succ (Z.of_nat (length (t' :: ts)))) by lia.
        done.
Qed.
End CounterSteps.

(** ** The bulkhead, full or with room *)
Section BulkheadSteps.
Context {CB W R : Type}.
Implicit Type h : Heap CB W R.
Implicit Type fn : M (Heap CB W R) error.

Lemma at_capacity_cannot_send h :
  at_capacity h → chan_can_send (semaphore (bulkhead h)) = false.
Proof. unfold at_capacity, chan_can_send. intros ->. apply bool_decide_eq_false_2. lia. Qed.

Lemma TryExecute_full fn h :
  chan_can_send (semaphore (bulkhead h)) = false →
  TryExecute fn h = (Ret (Some ErrBulkheadFull),
                     exec (bulkheadRejected_Inc (poolName (bulkhead h))) h).
Proof. intros Hfull. unfold_bulkhead. unfold_monad. simpl. by rewrite Hfull. Qed.

Lemma Execute_full pick_send ctx fn h :
  chan_can_send (semaphore (bulkhead h)) = false →
  Execute pick_send ctx fn h
  = if ctx_Done ctx then (Ret (ctx_Err ctx), h)
    else (Ret (Some ErrBulkheadFull), exec (bulkheadRejected_Inc (poolName (bulkhead h))) h).
Proof.
  intros Hfull. unfold_bulkhead. unfold_monad. simpl. rewrite Hfull.
  by destruct (ctx_Done ctx).
Qed.

Lemma Execute_room pick_send ctx fn h :
  chan_can_send (semaphore (bulkhead h)) = true →
  Execute pick_send ctx fn h
  = if ctx_Done ctx && negb pick_send then (Ret (ctx_Err ctx), h) else TryExecute fn h.
Proof.
  intros Hroom. unfold_bulkhead. unfold_monad. simpl. rewrite Hroom.
  by destruct (ctx_Done ctx), pick_send.
Qed.

Lemma TryExecute_room fn h :
  chan_can_send (semaphore (bulkhead h)) = true →
  TryExecute fn h = defer release fn (exec acquire h).
Proof.
  intros Hroom. unfold release, acquire. unfold_bulkhead. unfold_monad. simpl.
  by rewrite Hroom.
Qed.
End BulkheadSteps.

(** ** Goroutines: slots held and callables running *)

Lemma executing_insert (gs : list Goroutine) (i : nat) (g g' : Goroutine) :
  gs !! i = Some g →
  (length (filter (λ g, in_callable g = true) (<[i := g']> gs))
   + (if in_callable g then 1 else 0)
   = length (filter (λ g, in_callable g = true) gs)
     + (if in_callable g' then 1 else 0))%nat.
Proof.
  revert i. induction gs as [|x gs IH]; intros [|i] Hi; simplify_eq/=.
  - rewrite !filter_cons. destruct (in_callable g), (in_callable g');
      repeat case_decide; simpl; try done; lia.
  - specialize (IH i Hi). rewrite !filter_cons. case_decide; simpl; lia.
Qed.

Lemma executing_arrive (gs : list Goroutine) (c : option Context) :
  length (filter (λ g, in_callable g = true) (gs ++ [Arriving c]))
  = length (filter (λ g, in_callable g = true) gs).
Proof. rewrite filter_app, length_app. simpl. lia. Qed.

Lemma balanced_step p p' :
  balanced p → pool_step p p' →
  balanced p' ∧ chan_cap (pool_sem p') = chan_cap (pool_sem p).
Proof.
  unfold balanced, executing. intros [Hex Hcap] Hstep.
  destruct Hstep as [sem gs c|sem gs i c pick Hi|sem gs i r Hi Hr Hrecv]; simpl in *.
  - by rewrite executing_arrive.
  - pose proof (executing_insert gs i _ InCallable Hi) as Hin.
    pose proof (executing_insert gs i _ (Returned (Ret (arriving_Err c))) Hi) as Hdone.
    pose proof (executing_insert gs i _ (Returned (Ret (Some ErrBulkheadFull))) Hi) as Hfull.
    simpl in *. unfold select_case, chan_can_send.
    case_bool_decide; destruct (arriving_Done c), pick; simpl; lia.
  - pose proof (executing_insert gs i _ (Returned r) Hi) as Hret. simpl in *.
    unfold chan_can_recv in Hrecv. apply bool_decide_eq_true_1 in Hrecv. lia.
Qed.

Lemma balanced_reachable p0 p :
  balanced p0 → pool_reachable p0 p →
  balanced p ∧ chan_cap (pool_sem p) = chan_cap (pool_sem p0).
Proof.
  intros H0. induction 1 as [|p p' _ [IH IHcap] Hstep]; [done|].
  destruct (balanced_step p p' IH Hstep) as [Hb Hc]. split; [done|]. by rewrite Hc.
Qed.

Lemma NewBulkhead_ok name N b :
  NewBulkhead name N = Ret b → 0 <= N ∧ b = mkBulkhead (mkChan (Z.to_nat N) 0) name.
Proof. unfold NewBulkhead. case_bool_decide; [done|]. intros [= <-]. split; [lia|done]. Qed.

(** A goroutine inside its callable can always be released: the deferred
    receive never waits. *)
Lemma balanced_can_release p i :
  balanced p → pool_goroutines p !! i = Some InCallable → chan_can_recv (pool_sem p) = true.
Proof.
  unfold balanced, executing, chan_can_recv. intros [Hex _] Hi.
  apply bool_decide_eq_true_2. rewrite <- Hex.
  destruct (filter (λ g, in_callable g = true) (pool_goroutines p)) eqn:Hf; simpl; [|lia].
  assert (InCallable ∈ filter (λ g, in_callable g = true) (pool_goroutines p)) as Hin.
  { apply list_elem_of_filter. split; [done|]. by eapply list_elem_of_lookup_2. }
  rewrite Hf in Hin. by apply elem_of_nil in Hin.
Qed.

Lemma one_running_reachable : pool_reachable (new_pool payment_bulkhead) one_running.
Proof.
  eapply reach_step; [eapply reach_step; [eapply reach_step; [apply reach_refl|]|]|].
  - apply (step_arrive _ _ None).
  - apply (step_arrive _ _ (Some canceled)).
  - exact (step_select (mkChan 10 0) [Arriving None; Arriving (Some canceled)] 0 None true
             eq_refl).
Qed.

(** ** [ProcessPayment], closure by closure *)
Section ProcessPaymentSteps.
Import Sliding.
Context {W PaymentRequest PaymentResponse : Type}.
Local Abbreviation Heap := (Heap CircuitBreaker W PaymentResponse).
Variable makePaymentCall : Context → PaymentRequest → M Heap (option PaymentResponse * error).
Implicit Type h : Heap.

Lemma ProcessPayment_run ctx req h :
  ProcessPayment makePaymentCall ctx req h
  = match Execute None (ProcessPayment_func1 makePaymentCall ctx req) (set_result None h) with
    | (Ret (r, err), h2) => (Ret (r, err), set_result r h2)
    | (Panic v, h2) => (Panic v, h2)
    | (Hang, h2) => (Hang, h2)
    end.
Proof.
  unfold ProcessPayment. unfold_monad. simpl.
  by destruct (Execute _ _ _) as [[[r e]| |] h2].
Qed.

Lemma ProcessPayment_func1_full ctx req h :
  chan_can_send (semaphore (bulkhead h)) = false →
  ProcessPayment_func1 makePaymentCall ctx req h
  = (Ret (None, Some ErrBulkheadFull),
     exec (bulkheadRejected_Inc (poolName (bulkhead h))) (set_callErr None h)).
Proof.
  intros Hfull. unfold ProcessPayment_func1.
  unfold mbind, M_bind, bind, modify. rewrite TryExecute_full by done. done.
Qed.

Lemma ProcessPayment_func1_failed ctx req h r e h_out :
  chan_can_send (semaphore (bulkhead h)) = true →
  makePaymentCall ctx req (exec acquire (set_callErr None (set_result None h)))
  = (Ret (r, Some e), h_out) →
  bulkhead h_out = bulkhead (exec acquire (set_callErr None (set_result None h))) →
  ProcessPayment_func1 makePaymentCall ctx req (set_result None h)
  = (Ret (None, Some e), exec release (set_callErr (Some e) (set_result r h_out))).
Proof.
  intros Hroom Hcall Hbh. unfold ProcessPayment_func1.
  unfold mbind, M_bind, bind, modify. rewrite TryExecute_room by done.
  unfold defer, ProcessPayment_func1_1. unfold mbind, M_bind, bind, modify, gets.
  simpl. rewrite Hcall. simpl.
  assert (release (set_callErr (Some e) (set_result r h_out))
          = (Ret tt, exec release (set_callErr (Some e) (set_result r h_out)))) as ->; [|done].
  unfold release. unfold_bulkhead. unfold_monad. simpl. rewrite Hbh. done.
Qed.
End ProcessPaymentSteps.

(** * The claims *)

(** ** C1: the composition in [ProcessPayment] *)
Section Composition.
Import Sliding.
Context {W PaymentRequest PaymentResponse : Type}.
Local Abbreviation Heap := (Heap CircuitBreaker W PaymentResponse).
Variable makePaymentCall : Context → PaymentRequest → M Heap (option PaymentResponse * error).
Implicit Type h : Heap.

(** C1, as the code has it.  [ProcessPayment] runs the bulkhead inside the
    breaker's callable, with [TryExecute], so no context is consulted when
    a call asks to be let in.  (1) While the breaker waits in Open the call
    returns [ErrCircuitOpen]; breaker, bulkhead and world stay as they
    were: no failure event is recorded and nothing is attempted.  Of the
    metrics only [circuit_breaker_failures_total] of the breaker's name
    moves: it goes up by one.  (2) With
    the breaker Closed and the bulkhead at capacity the call returns
    [ErrBulkheadFull] to the caller without attempting the payment call,
    and the breaker records that error as a failure exactly as
    [recordFailure] does: it is timestamped, becomes [lastFailureTime] and
    counts toward the threshold.  (3) With the breaker Closed and a free
    slot, a payment call that returns an error (and leaves breaker and
    bulkhead alone) has its error returned, the slot released, and the
    failure recorded at the time the call came back. *)
Theorem C1_rejections_in_ProcessPayment (ctx : Context) (req : PaymentRequest) h :
  let cb := circuitBreaker h in
  let h' := exec (ProcessPayment makePaymentCall ctx req) h in
  (state cb = StateOpen →
   time_Sub (clock h) (lastFailureTime cb) <= timeout cb →
   eval (ProcessPayment makePaymentCall ctx req) h = Ret (None, Some ErrCircuitOpen)
   ∧ circuitBreaker h' = cb
   ∧ bulkhead h' = bulkhead h
   ∧ world h' = world h
   ∧ circuitBreakerFailures (metrics h')
     = vec_Add 1 (serviceName cb) (circuitBreakerFailures (metrics h))
   ∧ circuitBreakerState (metrics h') = circuitBreakerState (metrics h)
   ∧ bulkheadActive (metrics h') = bulkheadActive (metrics h)
   ∧ bulkheadRejected (metrics h') = bulkheadRejected (metrics h))
  ∧ (state cb = StateClosed →
     at_capacity h →
     eval (ProcessPayment makePaymentCall ctx req) h = Ret (None, Some ErrBulkheadFull)
     ∧ circuitBreaker h' = circuitBreaker (exec recordFailure h)
     ∧ lastFailureTime (circuitBreaker h') = clock h
     ∧ bulkhead h' = bulkhead h
     ∧ world h' = world h)
  ∧ (∀ r e h_out,
     let h_in := exec acquire (set_callErr None (set_result None h)) in
     state cb = StateClosed →
     chan_can_send (semaphore (bulkhead h)) = true →
     makePaymentCall ctx req h_in = (Ret (r, Some e), h_out) →
     circuitBreaker h_out = cb →
     bulkhead h_out = bulkhead h_in →
     eval (ProcessPayment makePaymentCall ctx req) h = Ret (None, Some e)
     ∧ circuitBreaker h' = circuitBreaker (exec recordFailure h_out)
     ∧ bulkhead h' = bulkhead h).
Proof.
  intros cb h'. unfold h', eval, exec. rewrite ProcessPayment_run. split; [|split].
  - intros Hst Hwait.
    rewrite sliding_Execute_run.
    rewrite canAttempt_open_waiting by (simpl; by fold cb).
    done.
  - intros Hst Hfull. apply at_capacity_cannot_send in Hfull.
    rewrite sliding_Execute_run, canAttempt_not_open
      by (simpl; fold cb; by rewrite Hst).
    rewrite ProcessPayment_func1_full by done.
    set (h1 := exec (bulkheadRejected_Inc _) _).
    destruct (sliding_recordFailure_run h) as [m Hm].
    destruct (sliding_recordFailure_run h1) as [m1 Hm1].
    unfold exec. rewrite Hm, Hm1. done.
  - intros r e h_out Hst Hroom Hcall Hcb Hbh.
    rewrite sliding_Execute_run, canAttempt_not_open
      by (simpl; fold cb; by rewrite Hst).
    rewrite (ProcessPayment_func1_failed makePaymentCall ctx req h r e h_out) by done.
    set (h1 := set_callErr _ _).
    destruct (sliding_recordFailure_run h_out) as [m Hm].
    destruct (sliding_recordFailure_run (exec release h1)) as [m1 Hm1].
    unfold exec in *. rewrite Hm, Hm1. simpl.
    unfold release. unfold_bulkhead. unfold_monad. simpl.
    rewrite Hbh. simpl. rewrite Hcb. split; [done|]. split; [done|].
    rewrite Hbh. simpl. by destruct (bulkhead h) as [[c l] n].
Qed.
End Composition.

Lemma C1_witness :
  eval pay tripped_heap = Ret (None, Some ErrCircuitOpen)
  ∧ circuitBreaker (exec pay tripped_heap) = circuitBreaker tripped_heap
  ∧ vec_get (circuitBreakerFailures (metrics (exec pay tripped_heap))) "payment"
    = vec_get (circuitBreakerFailures (metrics tripped_heap)) "payment" + 1
  ∧ eval pay full_heap = Ret (None, Some ErrBulkheadFull)
  ∧ Sliding.failureTimestamps (circuitBreaker (exec pay full_heap)) = [0]
  ∧ Sliding.failureTimestamps (circuitBreaker
      (exec (ProcessPayment payment_fails background "order-1"%string) busy_heap)) = [0].
Proof.
  pose proof (C1_rejections_in_ProcessPayment payment_ok background "order-1"%string
                tripped_heap) as [Hopen _].
  pose proof (C1_rejections_in_ProcessPayment payment_ok background "order-1"%string
                full_heap) as (_ & Hfull & _).
  pose proof (C1_rejections_in_ProcessPayment payment_fails background "order-1"%string
                busy_heap) as (_ & _ & Hfail).
  destruct Hopen as (Hopen & Hcb & _ & _ & Hmetric & _);
    [vm_compute; reflexivity | vm_compute; discriminate |].
  destruct Hfull as (Hfull & Hrec & _); [vm_compute; reflexivity..|].
  destruct (Hfail None (ErrorString "payment service returned status 500")
              (exec (payment_fails background "order-1"%string)
                    (exec acquire (set_callErr None (set_result None busy_heap)))))
    as (_ & Hrec' & _); [vm_compute; reflexivity..|].
  unfold pay.
  split; [exact Hopen|]. split; [exact Hcb|].
  split; [rewrite Hmetric; vm_compute; reflexivity|]. split; [exact Hfull|].
  rewrite Hrec, Hrec'. vm_compute. split; reflexivity.
Defined.

(** The breaker is Closed with an empty history and all ten slots are
    taken.  [ProcessPayment] returns [ErrBulkheadFull] without reaching the
    payment service, and the breaker has recorded a failure event; five such
    rejections in a row open the breaker, and the sixth caller gets
    [ErrCircuitOpen]. *)
Lemma C1_counterexample :
  Sliding.state (circuitBreaker full_heap) = StateClosed
  ∧ Sliding.failureTimestamps (circuitBreaker full_heap) = []
  ∧ eval pay full_heap = Ret (None, Some ErrBulkheadFull)
  ∧ world (exec pay full_heap) = 0%nat
  ∧ Sliding.failureTimestamps (circuitBreaker (exec pay full_heap)) = [0]
  ∧ Sliding.failureTimestamps (circuitBreaker (exec pay full_heap))
    ≠ Sliding.failureTimestamps (circuitBreaker full_heap)
  ∧ Sliding.state (circuitBreaker (exec (pay;; pay;; pay;; pay;; pay) full_heap)) = StateOpen
  ∧ eval (pay;; pay;; pay;; pay;; pay;; pay) full_heap = Ret (None, Some ErrCircuitOpen).
Proof. vm_compute. repeat split; discriminate. Qed.

(** ** C2 and C3: tripping, rejecting, probing *)
Section Tripping.
Import Sliding.
Context {W R : Type}.
Implicit Type h : Heap CircuitBreaker W R.

(** C2, as the code has it.  The breaker starts Closed; failures are
    recorded at the times [ts] and then [tn], at least [failureThreshold]
    of them, any two less than [failureWindow] apart: [ts.After] is
    strict, so a failure exactly [failureWindow] before the current one
    has aged out.  Then the breaker is Open with
    [lastFailureTime = tn], and [Execute] calls made while no more than
    [timeout] has passed since [tn] all return the zero result with
    [ErrCircuitOpen]; they leave the breaker, the bulkhead, the world and
    the captured variables as they were, whatever the callables are: none
    is invoked. *)
Theorem C2_threshold_failures_open_the_breaker {T} (zero : T) h (ts : list Time) (tn : Time)
    (calls : list (Time * M (Heap CircuitBreaker W R) (T * error))) :
  let cb := circuitBreaker h in
  state cb = StateClosed →
  int64 (failureWindow cb) →
  int64 (timeout cb) →
  failureThreshold cb <= Z.of_nat (length (ts ++ [tn])) →
  (∀ t t', t ∈ ts ++ [tn] → t' ∈ ts ++ [tn] → t' - t < failureWindow cb) →
  Forall (λ call, call.1 - tn <= timeout cb) calls →
  let h1 := exec (failures_at (ts ++ [tn])) h in
  let h2 := exec (executes_at zero calls) h1 in
  state (circuitBreaker h1) = StateOpen
  ∧ lastFailureTime (circuitBreaker h1) = tn
  ∧ eval (executes_at zero calls) h1 = Ret (map (λ _, (zero, Some ErrCircuitOpen)) calls)
  ∧ circuitBreaker h2 = circuitBreaker h1
  ∧ bulkhead h2 = bulkhead h1
  ∧ world h2 = world h1
  ∧ result h2 = result h1
  ∧ callErr h2 = callErr h1.
Proof.
  intros cb Hst Hw Hto Hlen Hclose Hcalls h1 h2.
  assert (0 < failureWindow cb) as Hpos.
  { assert (tn ∈ ts ++ [tn]) as Hin by (apply elem_of_app; right; by constructor).
    specialize (Hclose tn tn Hin Hin). lia. }
  destruct (failures_at_run (ts ++ [tn]) h) as [_ Hrun]. fold h1 cb in Hrun.
  destruct (latest_exists (ts ++ [tn])) as (A & HA & Hle); [by destruct ts|].
  assert (tripping (failureWindow cb) (failureThreshold cb) A (0 + length (ts ++ [tn]))
            (circuitBreaker h1)) as (Hwin & Hth & Hinv).
  { rewrite Hrun. apply tripping_run; [done..| |].
    - apply Forall_forall. intros t Ht. split.
      + by eapply Forall_forall in Hle.
      + specialize (Hclose t A Ht HA). lia.
    - split; [done|]. split; [done|]. right. split; [done|]. split; lia. }
  assert (timeout (circuitBreaker h1) = timeout cb) as Hto1.
  { rewrite Hrun. apply timeout_kept. }
  assert (state (circuitBreaker h1) = StateOpen) as Hopen.
  { destruct Hinv as [|(_ & Hcount & Hbelow)]; [done|]. exfalso.
    pose proof (length_filter (λ ts, A - failureWindow cb < ts)
                  (failureTimestamps (circuitBreaker h1))) as Hfl.
    rewrite length_app in *. simpl in *. lia. }
  assert (lastFailureTime (circuitBreaker h1) = tn) as Hlast.
  { rewrite Hrun. apply last_failure_time. }
  destruct (executes_at_open_waiting zero calls h1) as [Hres (m & t & Hheap)]; [done| |].
  { rewrite Hlast, Hto1. eapply Forall_impl; [exact Hcalls|].
    intros c Hc. by apply time_Sub_le. }
  unfold h2. rewrite Hheap. done.
Qed.

(** C3, as the code has it.  With the breaker Open and
    [time.Since(lastFailureTime) > timeout], the check at the head of the
    next [Execute] sets the state to HalfOpen and lets the call through:
    the callable runs in that heap and its outcome is recorded.  While the
    breaker is HalfOpen every such check lets its call through and changes
    nothing: the number of calls that pass before an outcome is recorded
    is not limited to one. *)
Theorem C3_elapsed_timeout_lets_trials_through {T} (zero : T)
    (fn : M (Heap CircuitBreaker W R) (T * error)) h :
  state (circuitBreaker h) = StateOpen →
  timeout (circuitBreaker h) < time_Sub (clock h) (lastFailureTime (circuitBreaker h)) →
  let h1 := exec (setState StateHalfOpen) h in
  canAttempt h = (Ret true, h1)
  ∧ circuitBreaker h1 = with_state StateHalfOpen (circuitBreaker h)
  ∧ Execute zero fn h
    = match fn h1 with
      | (Ret (r, None), h2) => (Ret (r, None), exec recordSuccess h2)
      | (Ret (r, Some e), h2) => (Ret (zero, Some e), exec recordFailure h2)
      | (Panic v, h2) => (Panic v, h2)
      | (Hang, h2) => (Hang, h2)
      end
  ∧ (∀ h', state (circuitBreaker h') = StateHalfOpen → canAttempt h' = (Ret true, h')).
Proof.
  intros Hst Hel h1.
  pose proof (canAttempt_open_elapsed h Hst Hel) as Hgo. fold h1 in Hgo.
  split; [done|]. split; [done|]. split.
  - by rewrite sliding_Execute_run, Hgo.
  - intros h' Hhalf. apply canAttempt_not_open. by rewrite Hhalf.
Qed.
End Tripping.

Lemma C2_witness :
  Sliding.state (circuitBreaker tripped_heap) = StateOpen
  ∧ eval (executes_at None later_calls) tripped_heap
    = Ret [(None, Some ErrCircuitOpen); (None, Some ErrCircuitOpen); (None, Some ErrCircuitOpen)]
  ∧ world (exec (executes_at None later_calls) tripped_heap) = 0%nat.
Proof.
  destruct (C2_threshold_failures_open_the_breaker None fresh_heap
              [0; 500000000; Second; 1500000000] (2 * Second) later_calls)
    as (Hopen & _ & Hres & _ & _ & Hworld & _).
  - reflexivity.
  - vm_compute. split; discriminate.
  - vm_compute. split; discriminate.
  - vm_compute. discriminate.
  - intros t t' Ht Ht'. simpl in Ht, Ht'.
    repeat (apply elem_of_cons in Ht as [->|Ht]); try by apply elem_of_nil in Ht.
    all: repeat (apply elem_of_cons in Ht' as [->|Ht']); try by apply elem_of_nil in Ht'.
    all: vm_compute; reflexivity.
  - repeat constructor; vm_compute; discriminate.
  - split; [exact Hopen|]. split; [exact Hres|].
    unfold tripped_heap. rewrite Hworld. vm_compute. reflexivity.
Defined.

(** Threshold 5, window 10s: four failures at t=0 and a fifth exactly
    ten seconds later are five failures no more than the window apart,
    yet the fifth finds the first four aged out.  The breaker stays
    Closed with one timestamp in its history, and the next call gets
    through to the payment service. *)
Lemma C2_counterexample :
  Sliding.state (circuitBreaker fresh_heap) = StateClosed
  ∧ Sliding.failureThreshold (circuitBreaker fresh_heap)
    <= Z.of_nat (length boundary_failures)
  ∧ Forall (λ t, Forall (λ t', t' - t <= Sliding.failureWindow (circuitBreaker fresh_heap))
                   boundary_failures) boundary_failures
  ∧ Sliding.state (circuitBreaker boundary_heap) = StateClosed
  ∧ Sliding.state (circuitBreaker boundary_heap) ≠ StateOpen
  ∧ Sliding.failureTimestamps (circuitBreaker boundary_heap) = [10 * Second]
  ∧ eval (Sliding.Execute None (payment_ok background "order-1"%string)) boundary_heap
    = Ret (Some "pay-1"%string, None)
  ∧ eval (Sliding.Execute None (payment_ok background "order-1"%string)) boundary_heap
    ≠ Ret (None, Some ErrCircuitOpen)
  ∧ world (exec (Sliding.Execute None (payment_ok background "order-1"%string)) boundary_heap)
    = 1%nat.
Proof.
  split; [reflexivity|]. split; [vm_compute; discriminate|].
  split; [repeat constructor; vm_compute; discriminate|].
  vm_compute. repeat split; discriminate.
Qed.

Lemma C3_witness :
  eval Sliding.canAttempt open_heap = Ret true
  ∧ Sliding.state (circuitBreaker (exec Sliding.canAttempt open_heap)) = StateHalfOpen
  ∧ world (exec (Sliding.Execute None (payment_ok background "order-1"%string)) open_heap) = 1%nat.
Proof.
  destruct (C3_elapsed_timeout_lets_trials_through None (payment_ok background "order-1"%string)
              open_heap) as (Hgo & Hcb & Hrun & _); [vm_compute; reflexivity..|].
  unfold eval, exec. rewrite Hgo, Hrun. vm_compute. repeat split.
Defined.

(** Two checks in a row on that breaker, no outcome recorded in between:
    the first makes it HalfOpen, and both let their call through, with the
    failure history untouched.  The same through [Execute]: a trial whose
    callable goes on to call [Execute] on the same breaker gets both calls
    through to the payment service. *)
Lemma C3_counterexample :
  eval (first ← Sliding.canAttempt; second ← Sliding.canAttempt; mret (first, second)) open_heap
  = Ret (true, true)
  ∧ Sliding.state (circuitBreaker (exec Sliding.canAttempt open_heap)) = StateHalfOpen
  ∧ Sliding.failureTimestamps (circuitBreaker
      (exec (Sliding.canAttempt;; Sliding.canAttempt) open_heap)) = [0; 0; 0; 0; 0]
  ∧ world (exec (Sliding.Execute None
                   (payment_ok background "order-1"%string;;
                    Sliding.Execute None (payment_ok background "order-2"%string)))
                open_heap) = 2%nat.
Proof. vm_compute. repeat split. Qed.

(** ** C4: the sliding window *)
Section SlidingWindow.
Import Sliding.
Context {W R : Type}.
Implicit Type h : Heap CircuitBreaker W R.

(** C4, as the code has it.  In the sliding-window breaker failures
    recorded [failureWindow] or more before the current one do not count:
    [countFailuresInWindow] counts exactly the timestamps younger than
    the window, the breaker after [recordFailure] is the same whether or
    not the older ones were in the history, and with threshold 5 and the
    10-second window 4 failures at t=0 followed by 1 failure at t=11s
    leave the breaker Closed, only the last failure in its history.  The
    counter breaker keeps no timestamps and has no window: whatever the
    times of the failures, starting Closed it counts each of them and is
    Open exactly if the count has reached [failureThreshold]. *)
Theorem C4_aged_out_failures_never_count h
    (hc : Heap Fixed.CircuitBreaker W R) (ts : list Time) :
  let cb := circuitBreaker h in
  let now := clock h in
  let fresh := filter (λ ts, now - failureWindow cb < ts) (failureTimestamps cb) in
  let counter := circuitBreaker hc in
  let counter' := circuitBreaker (exec (counter_failures_at ts) hc) in
  (int64 (failureWindow cb) →
   0 < failureWindow cb →
   eval (countFailuresInWindow now) h = Ret (Z.of_nat (length fresh))
   ∧ circuitBreaker (exec recordFailure (set_circuitBreaker (with_failureTimestamps fresh cb) h))
     = circuitBreaker (exec recordFailure h)
   ∧ (∀ name to, cb = NewCircuitBreaker name 5 to →
       let h' := exec (failures_at [0; 0; 0; 0; 11 * Second]) h in
       state (circuitBreaker h') = StateClosed
       ∧ failureTimestamps (circuitBreaker h') = [11 * Second]))
  ∧ (Fixed.state counter = StateClosed →
     ts ≠ [] →
     0 <= Fixed.failureCount counter →
     Fixed.failureCount counter + Z.of_nat (length ts) <= maxInt64 →
     Fixed.failureCount counter' = Fixed.failureCount counter + Z.of_nat (length ts)
     ∧ Fixed.state counter'
       = if bool_decide (Fixed.failureThreshold counter
                         <= Fixed.failureCount counter + Z.of_nat (length ts))
         then StateOpen else StateClosed).
Proof.
  intros cb now fresh counter counter'. split.
  - intros Hw Hpos. split; [|split].
    + unfold countFailuresInWindow, get_cb. unfold_monad. simpl.
      rewrite count_loop, wrap64_neg_duration by done.
      unfold time_Add. by rewrite Z.add_0_l, Z.add_opp_r.
    + unfold exec.
      destruct (sliding_recordFailure_run h) as [m ->].
      destruct (sliding_recordFailure_run
                  (set_circuitBreaker (with_failureTimestamps fresh cb) h)) as [m' ->].
      simpl. unfold sliding_after_failure; simpl.
      fold cb now. rewrite wrap64_neg_duration by done.
      unfold time_Add. rewrite Z.add_opp_r.
      assert (filter (λ ts, now - failureWindow cb < ts) (fresh ++ [now])
              = filter (λ ts, now - failureWindow cb < ts) (failureTimestamps cb ++ [now]))
        as ->; [|done].
      unfold fresh. rewrite !filter_app. f_equal.
      apply filter_filter_weaker. lia.
    + intros name to Hcb h'.
      destruct (failures_at_run [0; 0; 0; 0; 11 * Second] h) as [_ Hrun].
      unfold h'. rewrite Hrun. fold cb. rewrite Hcb. by vm_compute.
  - intros Hst Hne H0 Hmax. unfold counter'. rewrite counter_failures_at_run.
    destruct (counter_failures_fold ts counter H0 Hmax) as (Hc & _ & _ & Hclosed).
    split; [done|]. by apply Hclosed.
Qed.
End SlidingWindow.

Lemma C4_witness :
  eval (Sliding.countFailuresInWindow (11 * Second)) aged_heap = Ret 0
  ∧ Sliding.state (circuitBreaker (exec Sliding.recordFailure aged_heap)) = StateClosed
  ∧ Fixed.failureCount
      (circuitBreaker (exec (counter_failures_at [11 * Second]) counter_closed_heap)) = 4.
Proof.
  destruct (C4_aged_out_failures_never_count aged_heap counter_closed_heap [11 * Second])
    as [Hsliding Hcounter].
  destruct Hsliding as (Hcount & Hsame & _).
  - vm_compute. split; discriminate.
  - reflexivity.
  - destruct Hcounter as [Hfour _].
    + reflexivity.
    + discriminate.
    + vm_compute. discriminate.
    + vm_compute. discriminate.
    + split; [exact Hcount|]. split; [|exact Hfour].
      rewrite <- Hsame. vm_compute. reflexivity.
Defined.

(** Threshold 5 on the counter breaker, Closed with a count of 0: four
    failures at t=0 and one at t=11s, the first four more than ten seconds
    before the fifth, open it. *)
Lemma C4_counterexample :
  Fixed.state (circuitBreaker
                 (counter_heap 0 (Fixed.NewCircuitBreaker "payment" 5 (30 * Second))))
  = StateClosed
  ∧ Fixed.failureThreshold
      (circuitBreaker (counter_heap 0 (Fixed.NewCircuitBreaker "payment" 5 (30 * Second))))
    = 5
  ∧ Fixed.state (circuitBreaker
      (exec (counter_failures_at [0; 0; 0; 0; 11 * Second])
            (counter_heap 0 (Fixed.NewCircuitBreaker "payment" 5 (30 * Second)))))
    = StateOpen
  ∧ Fixed.state (circuitBreaker
      (exec (counter_failures_at [0; 0; 0; 0; 11 * Second])
            (counter_heap 0 (Fixed.NewCircuitBreaker "payment" 5 (30 * Second)))))
    ≠ StateClosed.
Proof. vm_compute. repeat split; discriminate. Qed.

(** ** C5 and C6: outcomes recorded in HalfOpen and in Closed *)
Section HalfOpenAndClosed.
Context {W R : Type}.

(** C5. In HalfOpen one recorded success closes the breaker and clears the
    failure history (the timestamps, or the counter in the counter
    variant), and one recorded failure, whatever the threshold and the
    history, reopens it with [lastFailureTime] set to the time of that
    failure. *)
Theorem C5_half_open_trial_outcome
    (hs : Heap Sliding.CircuitBreaker W R) (hf : Heap Fixed.CircuitBreaker W R) :
  Sliding.state (circuitBreaker hs) = StateHalfOpen →
  Fixed.state (circuitBreaker hf) = StateHalfOpen →
  (eval Sliding.recordSuccess hs = Ret tt
   ∧ Sliding.state (circuitBreaker (exec Sliding.recordSuccess hs)) = StateClosed
   ∧ Sliding.failureTimestamps (circuitBreaker (exec Sliding.recordSuccess hs)) = []
   ∧ eval Sliding.recordFailure hs = Ret tt
   ∧ Sliding.state (circuitBreaker (exec Sliding.recordFailure hs)) = StateOpen
   ∧ Sliding.lastFailureTime (circuitBreaker (exec Sliding.recordFailure hs)) = clock hs)
  ∧ (eval Fixed.recordSuccess hf = Ret tt
     ∧ Fixed.state (circuitBreaker (exec Fixed.recordSuccess hf)) = StateClosed
     ∧ Fixed.failureCount (circuitBreaker (exec Fixed.recordSuccess hf)) = 0
     ∧ eval Fixed.recordFailure hf = Ret tt
     ∧ Fixed.state (circuitBreaker (exec Fixed.recordFailure hf)) = StateOpen
     ∧ Fixed.lastFailureTime (circuitBreaker (exec Fixed.recordFailure hf)) = clock hf).
Proof.
  intros Hs Hf. unfold exec, eval.
  destruct (sliding_recordSuccess_run hs) as [m1 ->].
  destruct (sliding_recordFailure_run hs) as [m2 ->].
  destruct (counter_recordSuccess_run hf) as [m3 ->].
  destruct (counter_recordFailure_run hf) as [m4 ->].
  simpl.
  unfold sliding_after_success, sliding_after_failure,
    counter_after_success, counter_after_failure.
  rewrite Hs, Hf. simpl. repeat split.
Qed.

(** C6, as the code has it. Sliding-window breaker: a success recorded
    while Closed changes nothing at all, so the failure history is kept;
    a failure recorded while Closed that leaves fewer than
    [failureThreshold] failures in the window is appended to the history
    (from which the aged-out timestamps are dropped), becomes
    [lastFailureTime], and the breaker stays Closed.  Counter breaker: a
    success recorded while Closed resets [failureCount] to 0; a failure
    that leaves the counter below the threshold is counted and the breaker
    stays Closed. *)
Theorem C6_closed_outcomes
    (hs : Heap Sliding.CircuitBreaker W R) (hf : Heap Fixed.CircuitBreaker W R) :
  let cs := circuitBreaker hs in
  let cf := circuitBreaker hf in
  Sliding.state cs = StateClosed →
  Fixed.state cf = StateClosed →
  int64 (Sliding.failureWindow cs) →
  0 < Sliding.failureWindow cs →
  (Sliding.recordSuccess hs = (Ret tt, hs)
   ∧ (Z.of_nat (length (filter (λ ts, clock hs - Sliding.failureWindow cs < ts)
                               (Sliding.failureTimestamps cs ++ [clock hs])))
      < Sliding.failureThreshold cs →
      let cs' := circuitBreaker (exec Sliding.recordFailure hs) in
      Sliding.state cs' = StateClosed
      ∧ Sliding.failureTimestamps cs'
        = filter (λ ts, clock hs - Sliding.failureWindow cs < ts) (Sliding.failureTimestamps cs)
          ++ [clock hs]
      ∧ Sliding.lastFailureTime cs' = clock hs))
  ∧ (Fixed.state (circuitBreaker (exec Fixed.recordSuccess hf)) = StateClosed
     ∧ Fixed.failureCount (circuitBreaker (exec Fixed.recordSuccess hf)) = 0
     ∧ (wrap64 (Fixed.failureCount cf + 1) < Fixed.failureThreshold cf →
        let cf' := circuitBreaker (exec Fixed.recordFailure hf) in
        Fixed.state cf' = StateClosed
        ∧ Fixed.failureCount cf' = wrap64 (Fixed.failureCount cf + 1))).
Proof.
  intros cs cf Hs Hf Hw Hpos. split.
  - split; [by apply sliding_recordSuccess_closed|].
    intros Hbelow cs'. unfold cs', exec.
    destruct (sliding_recordFailure_run hs) as [m ->]. simpl.
    unfold sliding_after_failure. fold cs. simpl.
    rewrite wrap64_neg_duration by done. unfold time_Add. rewrite Z.add_opp_r.
    rewrite Hs. rewrite bool_decide_eq_false_2 by lia.
    split; [done|]. split; [|done].
    rewrite filter_app. f_equal.
    rewrite filter_cons, decide_True by lia. done.
  - unfold exec.
    destruct (counter_recordSuccess_run hf) as [m1 ->].
    destruct (counter_recordFailure_run hf) as [m2 ->]. simpl.
    unfold counter_after_success, counter_after_failure. fold cf.
    rewrite Hf. simpl. split; [done|]. split; [done|].
    intros Hbelow. by rewrite bool_decide_eq_false_2 by lia.
Qed.
End HalfOpenAndClosed.

Lemma C5_witness :
  Sliding.failureTimestamps (circuitBreaker (exec Sliding.recordSuccess half_open_heap)) = []
  ∧ Sliding.state (circuitBreaker (exec Sliding.recordFailure half_open_heap)) = StateOpen
  ∧ Fixed.failureCount (circuitBreaker (exec Fixed.recordSuccess counter_half_open_heap)) = 0
  ∧ Fixed.state (circuitBreaker (exec Fixed.recordFailure counter_half_open_heap)) = StateOpen.
Proof.
  destruct (C5_half_open_trial_outcome half_open_heap counter_half_open_heap)
    as [(_ & _ & H1 & _ & H2 & _) (_ & _ & H3 & _ & H4 & _)]; [reflexivity..|].
  exact (conj H1 (conj H2 (conj H3 H4))).
Defined.

Lemma C6_witness :
  Sliding.recordSuccess closed_heap = (Ret tt, closed_heap)
  ∧ Sliding.state (circuitBreaker (exec Sliding.recordFailure closed_heap)) = StateClosed
  ∧ Fixed.failureCount (circuitBreaker (exec Fixed.recordSuccess counter_closed_heap)) = 0
  ∧ Fixed.failureCount (circuitBreaker (exec Fixed.recordFailure counter_closed_heap)) = 4.
Proof.
  destruct (C6_closed_outcomes closed_heap counter_closed_heap)
    as [[H1 H2] (_ & H3 & H4)].
  - reflexivity.
  - reflexivity.
  - vm_compute. split; discriminate.
  - reflexivity.
  - split; [exact H1|]. split; [apply H2; vm_compute; reflexivity|].
    split; [exact H3|]. apply H4. vm_compute. reflexivity.
Defined.

(** The counter breaker, Closed with three failures counted, forgets them
    when a success is recorded: its failure history is not left
    unchanged. *)
Lemma C6_counterexample :
  Fixed.state (circuitBreaker counter_closed_heap) = StateClosed
  ∧ Fixed.failureCount (circuitBreaker counter_closed_heap) = 3
  ∧ Fixed.failureCount (circuitBreaker (exec Fixed.recordSuccess counter_closed_heap)) = 0
  ∧ Fixed.failureCount (circuitBreaker (exec Fixed.recordSuccess counter_closed_heap))
    ≠ Fixed.failureCount (circuitBreaker counter_closed_heap).
Proof. vm_compute. repeat split. discriminate. Qed.

(** ** C7, C8 and C9: the bulkhead *)
Section BulkheadClaims.
Context {CB W R : Type}.
Implicit Type h : Heap CB W R.
Implicit Type fn : M (Heap CB W R) error.

(** C7, as the code has it.  For a bulkhead made with capacity [N],
    however arrivals, selects and returns of any number of goroutines
    interleave, the callables running are as many as the elements
    buffered in the semaphore and never more than [N].  With [N] calls in
    flight [TryExecute] returns [ErrBulkheadFull] at once; [Execute]
    returns [ErrBulkheadFull] at once if its context is not done and the
    context's error if it is; in each case the callable is not invoked
    and only the rejection counter can change. *)
Theorem C7_capacity_is_never_exceeded (name : string) (N : Z) (b : Bulkhead) (p : Pool)
    h fn (pick_send : bool) (ctx : Context) :
  NewBulkhead name N = Ret b →
  pool_reachable (new_pool b) p →
  at_capacity h →
  (executing p = chan_len (pool_sem p)
   ∧ Z.of_nat (chan_len (pool_sem p)) <= N
   ∧ Z.of_nat (executing p) <= N)
  ∧ TryExecute fn h
    = (Ret (Some ErrBulkheadFull), exec (bulkheadRejected_Inc (poolName (bulkhead h))) h)
  ∧ Execute pick_send ctx fn h
    = if ctx_Done ctx then (Ret (ctx_Err ctx), h)
      else (Ret (Some ErrBulkheadFull),
            exec (bulkheadRejected_Inc (poolName (bulkhead h))) h).
Proof.
  intros Hnew Hreach Hfull.
  apply NewBulkhead_ok in Hnew as [HN ->].
  apply at_capacity_cannot_send in Hfull.
  split; [|split; [by apply TryExecute_full | by apply Execute_full]].
  assert (balanced (new_pool (mkBulkhead (mkChan (Z.to_nat N) 0) name))) as Hnew.
  { split; simpl; [done|lia]. }
  destruct (balanced_reachable _ _ Hnew Hreach) as [[Hex Hle] Hcap].
  simpl in Hcap. rewrite Hex. split; [done|]. lia.
Qed.

(** C8. A call that gets a slot ([TryExecute] with room in the semaphore,
    or [Execute] when its select sends) takes one slot, runs the callable
    with that slot taken, and when the callable returns an error, returns
    nil or panics, runs the deferred release exactly once: the method
    ends as the callable did and the in-flight count is what it was
    before the call.  The callable is any computation that leaves the
    bulkhead as it found it.  Among goroutines sharing the bulkhead, the
    slots taken are at every moment as many as the callables running, and
    a running callable can always release. *)
Theorem C8_admission_is_matched_by_one_release h fn (r : Res error) (h_out : Heap CB W R)
    (pick_send : bool) (ctx : Context) (b : Bulkhead) (p : Pool) :
  let h_in := exec acquire h in
  chan_can_send (semaphore (bulkhead h)) = true →
  fn h_in = (r, h_out) →
  r ≠ Hang →
  bulkhead h_out = bulkhead h_in →
  chan_len (semaphore b) = 0%nat →
  pool_reachable (new_pool b) p →
  chan_len (semaphore (bulkhead h_in)) = S (chan_len (semaphore (bulkhead h)))
  ∧ TryExecute fn h = (r, exec release h_out)
  ∧ eval release h_out = Ret tt
  ∧ bulkhead (exec (TryExecute fn) h) = bulkhead h
  ∧ (select_case true (ctx_Done ctx) pick_send = CaseSend →
     Execute pick_send ctx fn h = TryExecute fn h)
  ∧ chan_len (pool_sem p) = executing p
  ∧ (∀ i, pool_goroutines p !! i = Some InCallable → chan_can_recv (pool_sem p) = true).
Proof.
  intros h_in Hroom Hfn Hr Hframe Hempty Hreach.
  assert (chan_len (semaphore (bulkhead h_in)) = S (chan_len (semaphore (bulkhead h))))
    as Hlen by done.
  assert (release h_out = (Ret tt, exec release h_out)
          ∧ bulkhead (exec release h_out) = bulkhead h) as [Hrel Hback].
  { unfold release. unfold_bulkhead. unfold_monad. simpl. rewrite Hframe. simpl.
    split; [done|]. rewrite Hframe. simpl. by destruct (bulkhead h) as [[c l] n]. }
  split; [done|].
  assert (TryExecute fn h = (r, exec release h_out)) as Htry.
  { rewrite TryExecute_room by done. unfold defer. fold h_in. rewrite Hfn, Hrel.
    by destruct r. }
  split; [done|]. split; [by unfold eval; rewrite Hrel|].
  split; [by unfold exec at 1; rewrite Htry|].
  split.
  - intros Hsend. rewrite Execute_room by done.
    unfold select_case in Hsend. by destruct (ctx_Done ctx), pick_send.
  - destruct (balanced_reachable (new_pool b) p) as [Hbal _]; [|done|].
    { split; simpl; [done|lia]. }
    split; [by destruct Hbal|]. intros i Hi. by eapply balanced_can_release.
Qed.

(** C9, as the code has it.  With no slot available, [Execute] returns
    the context's error if the context is done and [ErrBulkheadFull] if it
    is not, at once and without invoking the callable.  With a slot
    available and the context done, both communications of the select can
    proceed and the runtime picks: either the context's error is returned
    and no slot is taken, or the call takes the slot and runs exactly as
    under [TryExecute]. *)
Theorem C9_execute_admission h fn (pick_send : bool) (ctx : Context) :
  (ctx_Done ctx = true → ctx_Err ctx ≠ None)
  ∧ (chan_can_send (semaphore (bulkhead h)) = false →
     ctx_Done ctx = true →
     Execute pick_send ctx fn h = (Ret (ctx_Err ctx), h))
  ∧ (chan_can_send (semaphore (bulkhead h)) = false →
     ctx_Done ctx = false →
     Execute pick_send ctx fn h
     = (Ret (Some ErrBulkheadFull), exec (bulkheadRejected_Inc (poolName (bulkhead h))) h))
  ∧ (chan_can_send (semaphore (bulkhead h)) = true →
     ctx_Done ctx = true →
     Execute false ctx fn h = (Ret (ctx_Err ctx), h)
     ∧ Execute true ctx fn h = TryExecute fn h).
Proof.
  split; [|split; [|split]].
  - unfold ctx_Done. intros Hd. by apply bool_decide_eq_true_1 in Hd.
  - intros Hfull Hd. by rewrite Execute_full, Hd.
  - intros Hfull Hd. by rewrite Execute_full, Hd.
  - intros Hroom Hd. by rewrite !Execute_room, Hd.
Qed.
End BulkheadClaims.

Lemma C7_witness :
  (Z.of_nat (executing one_running) <= 10)
  ∧ TryExecute callable_ok full_heap
    = (Ret (Some ErrBulkheadFull), exec (bulkheadRejected_Inc "payment") full_heap)
  ∧ eval (Execute true background callable_ok) full_heap = Ret (Some ErrBulkheadFull).
Proof.
  destruct (C7_capacity_is_never_exceeded "payment" 10 payment_bulkhead one_running
              full_heap callable_ok true background)
    as ((_ & _ & Hex) & Htry & Hexe).
  - reflexivity.
  - exact one_running_reachable.
  - reflexivity.
  - split; [exact Hex|]. split; [exact Htry|]. unfold eval. by rewrite Hexe.
Defined.

(** With all ten slots taken and a context that is already cancelled,
    [Execute] returns [context.Canceled], not [ErrBulkheadFull], whichever
    way the select would break a tie. *)
Lemma C7_counterexample :
  at_capacity full_heap
  ∧ eval (Execute true canceled callable_ok) full_heap = Ret (Some Canceled)
  ∧ eval (Execute false canceled callable_ok) full_heap = Ret (Some Canceled)
  ∧ eval (Execute true canceled callable_ok) full_heap ≠ Ret (Some ErrBulkheadFull).
Proof. vm_compute. repeat split. discriminate. Qed.

Lemma C8_witness :
  eval (TryExecute callable_panics) busy_heap = Panic "nil pointer dereference"
  ∧ eval GetActiveCount (exec (TryExecute callable_panics) busy_heap) = Ret 3
  ∧ world (exec (TryExecute callable_panics) busy_heap) = 1%nat.
Proof.
  destruct (C8_admission_is_matched_by_one_release busy_heap callable_panics
              (Panic "nil pointer dereference")
              (exec callable_panics (exec acquire busy_heap))
              true background payment_bulkhead one_running)
    as (_ & Htry & _ & Hback & _).
  - reflexivity.
  - vm_compute. reflexivity.
  - discriminate.
  - vm_compute. reflexivity.
  - reflexivity.
  - exact one_running_reachable.
  - split; [by unfold eval; rewrite Htry|]. split.
    + unfold eval, GetActiveCount, gets. cbn [fst]. by rewrite Hback.
    + unfold exec. rewrite Htry. vm_compute. reflexivity.
Defined.

Lemma C9_witness :
  Execute true canceled callable_ok full_heap = (Ret (Some Canceled), full_heap)
  ∧ eval (Execute true background callable_ok) full_heap = Ret (Some ErrBulkheadFull)
  ∧ Execute false canceled callable_ok busy_heap = (Ret (Some Canceled), busy_heap).
Proof.
  destruct (C9_execute_admission full_heap callable_ok true canceled) as (_ & Hdone & _ & _).
  destruct (C9_execute_admission full_heap callable_ok true background) as (_ & _ & Hfull & _).
  destruct (C9_execute_admission busy_heap callable_ok true canceled) as (_ & _ & _ & Hroom).
  split; [by apply Hdone|]. split; [|by apply Hroom].
  unfold eval. by rewrite Hfull.
Defined.

(** A context already cancelled, three of ten slots taken, and the select
    picks the send: the call takes a slot, the callable runs and its nil
    error is returned instead of [context.Canceled]. *)
Lemma C9_counterexample :
  ctx_Done canceled = true
  ∧ eval (Execute true canceled callable_ok) busy_heap = Ret None
  ∧ world (exec (Execute true canceled callable_ok) busy_heap) = 1%nat
  ∧ eval (Execute true canceled callable_ok) busy_heap ≠ Ret (ctx_Err canceled).
Proof. vm_compute. repeat split. discriminate. Qed.

(** ** C10: what [Execute] returns beside an error *)
Section ZeroResult.
Context {W R T : Type} (zero : T).

(** C10. Whatever [Execute] returns, in either variant: with a non-nil
    error the result is the zero value of [T], the error being
    [ErrCircuitOpen] of a rejection or the very error the callable
    returned, whose own result is dropped; with a nil error the result is
    the one the callable returned. *)
Theorem C10_zero_result_with_error
    (fns : M (Heap Sliding.CircuitBreaker W R) (T * error)) hs
    (fnf : M (Heap Fixed.CircuitBreaker W R) (T * error)) hf
    (rs rf : T) (es ef : error) :
  eval (Sliding.Execute zero fns) hs = Ret (rs, es) →
  eval (Fixed.Execute zero fnf) hf = Ret (rf, ef) →
  match es with
  | Some e =>
      rs = zero
      ∧ ((e = ErrCircuitOpen ∧ ∃ h1, Sliding.canAttempt hs = (Ret false, h1))
         ∨ (∃ h1 partial h2, Sliding.canAttempt hs = (Ret true, h1)
                             ∧ fns h1 = (Ret (partial, Some e), h2)))
  | None => ∃ h1 h2, Sliding.canAttempt hs = (Ret true, h1) ∧ fns h1 = (Ret (rs, None), h2)
  end
  ∧ match ef with
    | Some e =>
        rf = zero
        ∧ ((e = ErrCircuitOpen ∧ ∃ h1, Fixed.canAttempt hf = (Ret false, h1))
           ∨ (∃ h1 partial h2, Fixed.canAttempt hf = (Ret true, h1)
                               ∧ fnf h1 = (Ret (partial, Some e), h2)))
    | None => ∃ h1 h2, Fixed.canAttempt hf = (Ret true, h1) ∧ fnf h1 = (Ret (rf, None), h2)
    end.
Proof.
  unfold eval. rewrite sliding_Execute_run, counter_Execute_run. intros Hs Hf. split.
  - destruct (Sliding.canAttempt hs) as [[[|]| |] h1]; simpl in Hs; try done.
    + destruct (fns h1) as [[[r [e|]]| |] h2] eqn:Hfn; simpl in Hs; try done;
        injection Hs as <- <-; [split; [done|]; right|]; eauto.
    + injection Hs as <- <-. split; [done|]. left. eauto.
  - destruct (Fixed.canAttempt hf) as [[[|]| |] h1]; simpl in Hf; try done.
    + destruct (fnf h1) as [[[r [e|]]| |] h2] eqn:Hfn; simpl in Hf; try done;
        injection Hf as <- <-; [split; [done|]; right|]; eauto.
    + injection Hf as <- <-. split; [done|]. left. eauto.
Qed.
End ZeroResult.

Lemma C10_witness :
  eval (Sliding.Execute None partial_failure) closed_heap
  = Ret (None, Some (ErrorString "failed to decode response"))
  ∧ eval (Fixed.Execute None partial_failure) counter_closed_heap
    = Ret (None, Some (ErrorString "failed to decode response")).
Proof.
  set (rs := eval (Sliding.Execute None partial_failure) closed_heap).
  set (rf := eval (Fixed.Execute None partial_failure) counter_closed_heap).
  assert (∃ r, rs = Ret (r, Some (ErrorString "failed to decode response")))
    as [r Hs] by (eexists; vm_compute; reflexivity).
  assert (∃ r, rf = Ret (r, Some (ErrorString "failed to decode response")))
    as [r' Hf] by (eexists; vm_compute; reflexivity).
  destruct (C10_zero_result_with_error None partial_failure closed_heap
              partial_failure counter_closed_heap r r' _ _ Hs Hf) as [[Hr _] [Hr' _]].
  rewrite Hs, Hf, Hr, Hr'. done.
Defined.

(** * Further properties *)

(** ** The breaker's state machine *)
Section BreakerMachine.
Import Sliding.
Context {W R : Type}.
Implicit Type h : Heap CircuitBreaker W R.

Lemma canAttempt_cases h :
  (state (circuitBreaker h) = StateOpen
   ∧ timeout (circuitBreaker h) < time_Sub (clock h) (lastFailureTime (circuitBreaker h))
   ∧ canAttempt h = (Ret true, exec (setState StateHalfOpen) h))
  ∨ (state (circuitBreaker h) = StateOpen
     ∧ time_Sub (clock h) (lastFailureTime (circuitBreaker h)) <= timeout (circuitBreaker h)
     ∧ canAttempt h = (Ret false, h))
  ∨ (state (circuitBreaker h) ≠ StateOpen ∧ canAttempt h = (Ret true, h)).
Proof.
  destruct (decide (state (circuitBreaker h) = StateOpen)) as [Hst|Hst].
  - destruct (decide (timeout (circuitBreaker h)
                      < time_Sub (clock h) (lastFailureTime (circuitBreaker h)))).
    + left. by rewrite canAttempt_open_elapsed.
    + right. left. rewrite canAttempt_open_waiting; [|done|lia]. split; [done|]. split; [lia|done].
  - right. right. by rewrite canAttempt_not_open.
Qed.

(** X1. One atomic step of the breaker moves its state only along
    Closed→Open, Open→HalfOpen, HalfOpen→Closed or HalfOpen→Open, never
    assigns a construction parameter, and takes each edge for its reason
    only: Closed→Open with the step's time as [lastFailureTime] and at
    least [failureThreshold] timestamps kept, Open→HalfOpen with
    [time.Since(lastFailureTime) > timeout], HalfOpen→Closed with the
    history emptied. *)
Theorem X1_breaker_transitions h h' :
  breaker_step h h' →
  let cb := circuitBreaker h in
  let cb' := circuitBreaker h' in
  transition (state cb) (state cb')
  ∧ same_configuration cb cb'
  ∧ (state cb = StateClosed → state cb' = StateOpen →
     lastFailureTime cb' = clock h
     ∧ failureThreshold cb <= Z.of_nat (length (failureTimestamps cb')))
  ∧ (state cb = StateOpen → state cb' = StateHalfOpen →
     timeout cb < time_Sub (clock h) (lastFailureTime cb)
     ∧ lastFailureTime cb' = lastFailureTime cb)
  ∧ (state cb = StateHalfOpen → state cb' = StateClosed → failureTimestamps cb' = [])
  ∧ (state cb = StateHalfOpen → state cb' = StateOpen → lastFailureTime cb' = clock h).
Proof.
  intros Hstep cb cb'. unfold cb, cb', transition, same_configuration.
  destruct Hstep as [h h' Hcb _ _|h|h|h].
  - rewrite Hcb. repeat split; try (by left); congruence.
  - destruct (canAttempt_cases h) as [(Hst & Hel & Hrun)|[(Hst & _ & Hrun)|(Hst & Hrun)]];
      unfold exec; rewrite Hrun; simpl; rewrite ?Hst;
      repeat split; try (by left); try congruence; naive_solver.
  - unfold exec. destruct (sliding_recordFailure_run h) as [m ->]. simpl.
    unfold sliding_after_failure. simpl.
    destruct (state (circuitBreaker h)); simpl;
      try case_bool_decide; repeat split; try congruence; naive_solver.
  - unfold exec. destruct (sliding_recordSuccess_run h) as [m ->]. simpl.
    unfold sliding_after_success.
    destruct (state (circuitBreaker h)) eqn:Hst; simpl; rewrite ?Hst;
      repeat split; try congruence; naive_solver.
Qed.
End BreakerMachine.

(** ** What every reachable breaker satisfies *)

Lemma StronglySorted_filter_le (P : Z → Prop) `{!∀ x, Decision (P x)} (l : list Z) :
  StronglySorted Z.le l → StronglySorted Z.le (filter P l).
Proof.
  induction 1 as [|x l Hl IH Hx]; [constructor|].
  rewrite filter_cons. case_decide; [|done].
  constructor; [done|]. apply Forall_forall. intros y Hy.
  apply list_elem_of_filter in Hy as [_ Hy]. by eapply Forall_forall in Hx.
Qed.

Section BreakerInvariants.
Import Sliding.
Context {W R : Type}.
Implicit Type h : Heap CircuitBreaker W R.

Lemma history_ok_step h h' :
  int64 (failureWindow (circuitBreaker h)) →
  0 < failureWindow (circuitBreaker h) →
  breaker_step h h' → history_ok h → history_ok h'.
Proof.
  intros Hw Hpos Hstep (Hsorted & Hpast & Hwin & Hlast & Hclosed).
  unfold history_ok.
  destruct Hstep as [h h' Hcb _ Hclk|h|h|h].
  - rewrite Hcb. repeat split; try done.
    + eapply Forall_impl; [exact Hpast|]. simpl. lia.
    + intros Hst. specialize (Hlast Hst). lia.
  - destruct (canAttempt_cases h) as [(Hst & Hel & Hrun)|[(Hst & _ & Hrun)|(Hst & Hrun)]];
      unfold exec; rewrite Hrun; simpl; try done.
    repeat split; try done.
    + intros _. apply Hlast. by rewrite Hst.
  - unfold exec. destruct (sliding_recordFailure_run h) as [m ->]. simpl.
    unfold sliding_after_failure. simpl.
    rewrite wrap64_neg_duration by done. unfold time_Add. rewrite Z.add_opp_r.
    assert (StronglySorted Z.le (failureTimestamps (circuitBreaker h) ++ [clock h])) as Hs.
    { apply StronglySorted_app_2; [|done|repeat constructor].
      intros x1 x2 Hx1 Hx2. apply list_elem_of_singleton in Hx2 as ->.
      by eapply Forall_forall in Hpast. }
    repeat split.
    + by apply StronglySorted_filter_le.
    + apply Forall_forall. intros ts Hts. apply list_elem_of_filter in Hts as [_ Hts].
      apply elem_of_app in Hts as [Hts| ->%list_elem_of_singleton]; [|lia].
      by eapply Forall_forall in Hpast.
    + apply Forall_forall. intros ts Hts. apply list_elem_of_filter in Hts as [Hyoung Hts].
      split; [done|].
      apply elem_of_app in Hts as [Hts| ->%list_elem_of_singleton]; [|lia].
      by eapply Forall_forall in Hpast.
    + lia.
    + destruct (state (circuitBreaker h)); [|done..].
      case_bool_decide; [done|]. intros _ _. lia.
  - unfold exec. destruct (sliding_recordSuccess_run h) as [m ->]. simpl.
    unfold sliding_after_success.
    destruct (state (circuitBreaker h)) eqn:Hst; simpl; rewrite ?Hst; try done.
    repeat split; try done; try constructor.
Qed.

Lemma gauge_ok_step h h' : breaker_step h h' → gauge_ok h → gauge_ok h'.
Proof.
  unfold gauge_ok. intros Hstep Hg.
  destruct Hstep as [h h' Hcb Hm _|h|h|h].
  - by rewrite Hcb, Hm.
  - destruct (canAttempt_cases h) as [(Hst & Hel & Hrun)|[(Hst & _ & Hrun)|(Hst & Hrun)]];
      unfold exec; rewrite Hrun; simpl; try done.
    left. unfold setState, update_cb, get_cb, circuitBreakerState_Set, vec_Set.
    unfold_monad. simpl. apply lookup_insert_eq.
  - unfold exec, recordFailure, cleanupOldFailures, countFailuresInWindow, setState,
      get_cb, update_cb, time_Now, circuitBreakerFailures_Inc, circuitBreakerState_Set, vec_Set.
    unfold_monad. simpl.
    destruct (state (circuitBreaker h)) eqn:Hst; simpl; rewrite ?Hst in *; try done.
    + case_bool_decide; simpl; [left; apply lookup_insert_eq|by rewrite Hst].
    + left. apply lookup_insert_eq.
  - unfold exec, recordSuccess, setState, get_cb, update_cb, circuitBreakerState_Set, vec_Set.
    unfold_monad. simpl.
    destruct (state (circuitBreaker h)) eqn:Hst; simpl; rewrite ?Hst in *; try done.
    left. apply lookup_insert_eq.
Qed.

Lemma same_configuration_step h h' :
  breaker_step h h' → same_configuration (circuitBreaker h) (circuitBreaker h').
Proof.
  unfold same_configuration. intros [h1 h2 Hcb _ _|h1|h1|h1].
  - by rewrite Hcb.
  - destruct (canAttempt_cases h1) as [(_ & _ & Hrun)|[(_ & _ & Hrun)|(_ & Hrun)]];
      unfold exec; by rewrite Hrun.
  - unfold exec. by destruct (sliding_recordFailure_run h1) as [m ->].
  - unfold exec. destruct (sliding_recordSuccess_run h1) as [m ->]. simpl.
    unfold sliding_after_success. by destruct (state (circuitBreaker h1)).
Qed.

Lemma same_configuration_reachable h0 h :
  rtc breaker_step h0 h → same_configuration (circuitBreaker h0) (circuitBreaker h).
Proof.
  revert h. apply rtc_ind_r; [done|].
  intros h h' _ Hstep (H1 & H2 & H3 & H4 & H5).
  destruct (same_configuration_step h h' Hstep) as (G1 & G2 & G3 & G4 & G5).
  unfold same_configuration. by rewrite G1, G2, G3, G4, G5.
Qed.
End BreakerInvariants.

Section BreakerReachable.
Import Sliding.
Context {W R : Type}.
Implicit Type h : Heap CircuitBreaker W R.

(** X2. Whatever the interleaving of admission checks, recorded outcomes
    and time passing, a breaker made by [NewCircuitBreaker] keeps its
    construction parameters and has its failure history in order of time,
    without timestamps from the future or a window or more older than
    the last failure; while it is not Closed its last failure lies in the
    past, and while it is Closed it holds fewer timestamps than a
    positive threshold. *)
Theorem X2_breaker_history_invariant h0 h (name : string) (th : Z) (to : Duration) :
  circuitBreaker h0 = NewCircuitBreaker name th to →
  rtc breaker_step h0 h →
  history_ok h ∧ same_configuration (NewCircuitBreaker name th to) (circuitBreaker h).
Proof.
  intros Hnew Hreach. rewrite <- Hnew.
  cut (history_ok h ∧ rtc breaker_step h0 h); [|split; [|done]].
  { intros [Hok Hr]. split; [done|]. by apply same_configuration_reachable. }
  revert h Hreach. apply rtc_ind_r.
  - unfold history_ok. rewrite Hnew. simpl. repeat split; try constructor; try done.
  - intros h h' Hr Hstep Hok.
    destruct (same_configuration_reachable h0 h Hr) as (_ & Hwin & _).
    rewrite Hnew in Hwin. simpl in Hwin.
    eapply history_ok_step; [| |done..]; rewrite Hwin; by vm_compute.
Qed.

(** X3. The [circuit_breaker_state] gauge of the breaker's name shows the
    breaker's state after every step: starting from a new breaker whose
    series does not exist yet, the gauge reads 0, 1 or 2 for Closed, Open
    or HalfOpen. *)
Theorem X3_gauge_mirrors_state h0 h (name : string) (th : Z) (to : Duration) :
  circuitBreaker h0 = NewCircuitBreaker name th to →
  circuitBreakerState (metrics h0) !! name = None →
  rtc breaker_step h0 h →
  vec_get (circuitBreakerState (metrics h)) name
  = CircuitState_float64 (state (circuitBreaker h)).
Proof.
  intros Hnew Hnone Hreach.
  assert (gauge_ok h) as Hg.
  { revert h Hreach. apply rtc_ind_r.
    - right. by rewrite Hnew.
    - intros h h' _ Hstep Hok. by eapply gauge_ok_step. }
  destruct (same_configuration_reachable h0 h Hreach) as (_ & _ & _ & _ & Hname).
  rewrite Hnew in Hname. simpl in Hname.
  unfold gauge_ok in Hg. rewrite Hname in Hg. unfold vec_get.
  destruct Hg as [-> | [-> ->]]; done.
Qed.

(** X4. Outcomes that come in while the breaker is Open (from calls let
    through before it opened): a success changes nothing, a failure leaves
    it Open and becomes [lastFailureTime], so the open period starts over
    and calls are rejected until [timeout] has passed since that
    failure. *)
Theorem X4_outcomes_recorded_while_open h (t : Time) :
  state (circuitBreaker h) = StateOpen →
  int64 (timeout (circuitBreaker h)) →
  t - clock h <= timeout (circuitBreaker h) →
  let h' := exec recordFailure h in
  recordSuccess h = (Ret tt, h)
  ∧ state (circuitBreaker h') = StateOpen
  ∧ lastFailureTime (circuitBreaker h') = clock h
  ∧ canAttempt (set_clock t h') = (Ret false, set_clock t h').
Proof.
  intros Hst Hto Ht h'.
  assert (circuitBreaker h' = sliding_after_failure (clock h) (circuitBreaker h)) as Hcb.
  { unfold h', exec. by destruct (sliding_recordFailure_run h) as [m ->]. }
  split; [|split; [|split]].
  - unfold recordSuccess, get_cb. unfold_monad. simpl. by rewrite Hst.
  - rewrite Hcb. unfold sliding_after_failure. simpl. by rewrite Hst.
  - by rewrite Hcb.
  - apply canAttempt_open_waiting; simpl; rewrite Hcb; unfold sliding_after_failure; simpl.
    + by rewrite Hst.
    + by apply time_Sub_le.
Qed.
End BreakerReachable.

Section BreakerExecute.
Import Sliding.
Context {W R T : Type} (zero : T).
Implicit Type h : Heap CircuitBreaker W R.
Implicit Type fn : M (Heap CircuitBreaker W R) (T * error).

Lemma canAttempt_keeps_failures_total h b h1 :
  canAttempt h = (Ret b, h1) →
  failures_total h1 = failures_total h
  ∧ serviceName (circuitBreaker h1) = serviceName (circuitBreaker h).
Proof.
  destruct (canAttempt_cases h) as [(_ & _ & Hrun)|[(_ & _ & Hrun)|(_ & Hrun)]];
    rewrite Hrun; intros [= <- <-]; done.
Qed.

Lemma recordFailure_failures_total h :
  failures_total (exec recordFailure h) = failures_total h + 1.
Proof.
  unfold failures_total, exec, recordFailure, cleanupOldFailures, countFailuresInWindow,
    setState, get_cb, update_cb, time_Now, circuitBreakerFailures_Inc,
    circuitBreakerState_Set, vec_Add, vec_get.
  unfold_monad. simpl.
  destruct (state (circuitBreaker h)); simpl; try case_bool_decide; simpl;
    by rewrite lookup_insert_eq.
Qed.

Lemma recordSuccess_failures_total h :
  failures_total (exec recordSuccess h) = failures_total h.
Proof.
  unfold failures_total, exec, recordSuccess, setState, get_cb, update_cb,
    circuitBreakerState_Set.
  unfold_monad. simpl. by destruct (state (circuitBreaker h)).
Qed.

(** X5. [circuit_breaker_failures_total] counts every [Execute] that
    returns an error.  A call that the breaker rejects returns
    [ErrCircuitOpen] and raises the counter by one whatever its callable
    is: the callable is not run.  A call that is let through raises it by
    one if the callable returns an error and leaves it if the callable
    succeeds, for a callable that leaves the counter alone. *)
Theorem X5_failures_total_counts_errors fn h (b : bool) h1 :
  canAttempt h = (Ret b, h1) →
  if b then
    ∀ (r : T) (e : error) h2,
      fn h1 = (Ret (r, e), h2) →
      failures_total h2 = failures_total h1 →
      failures_total (exec (Execute zero fn) h)
      = failures_total h + match e with Some _ => 1 | None => 0 end
  else
    eval (Execute zero fn) h = Ret (zero, Some ErrCircuitOpen)
    ∧ failures_total (exec (Execute zero fn) h) = failures_total h + 1.
Proof.
  intros Hcan.
  destruct (canAttempt_keeps_failures_total h b h1 Hcan) as [Htot Hname].
  destruct b.
  - intros r e h2 Hfn Hframe. unfold exec at 1. rewrite sliding_Execute_run, Hcan, Hfn.
    destruct e as [e|]; simpl.
    + rewrite recordFailure_failures_total. lia.
    + rewrite recordSuccess_failures_total. lia.
  - unfold eval, exec at 1. rewrite sliding_Execute_run, Hcan.
    split; [done|]. simpl. rewrite <- Htot.
    unfold failures_total, exec, circuitBreakerFailures_Inc, vec_Add, vec_get.
    unfold_monad. simpl. by rewrite lookup_insert_eq.
Qed.

(** X6. A trial through [Execute]: on a breaker that is Open with its
    timeout elapsed, a callable that succeeds gets its result returned and
    leaves the breaker Closed with an empty history; one that fails gets
    the zero result with its error and leaves the breaker Open again, its
    [lastFailureTime] the moment the callable came back.  The callable is
    one that leaves the breaker alone. *)
Theorem X6_trial_through_Execute fn h (r : T) (e : error) h2 :
  let h1 := exec (setState StateHalfOpen) h in
  let h' := exec (Execute zero fn) h in
  state (circuitBreaker h) = StateOpen →
  timeout (circuitBreaker h) < time_Sub (clock h) (lastFailureTime (circuitBreaker h)) →
  fn h1 = (Ret (r, e), h2) →
  circuitBreaker h2 = circuitBreaker h1 →
  match e with
  | None =>
      eval (Execute zero fn) h = Ret (r, None)
      ∧ state (circuitBreaker h') = StateClosed
      ∧ failureTimestamps (circuitBreaker h') = []
  | Some _ =>
      eval (Execute zero fn) h = Ret (zero, e)
      ∧ state (circuitBreaker h') = StateOpen
      ∧ lastFailureTime (circuitBreaker h') = clock h2
  end.
Proof.
  intros h1 h' Hst Hel Hfn Hcb.
  assert (state (circuitBreaker h2) = StateHalfOpen) as Hhalf by by rewrite Hcb.
  unfold h', eval, exec.
  rewrite sliding_Execute_run, canAttempt_open_elapsed by done.
  fold h1. rewrite Hfn. destruct e as [e|]; simpl; unfold exec.
  - destruct (sliding_recordFailure_run h2) as [m ->]. simpl.
    unfold sliding_after_failure. simpl. by rewrite Hhalf.
  - destruct (sliding_recordSuccess_run h2) as [m ->]. simpl.
    unfold sliding_after_success. by rewrite Hhalf.
Qed.
End BreakerExecute.

(** ** The counter breaker *)
Section CounterBreaker.
Import Fixed.
Context {W R : Type}.
Implicit Type h : Heap CircuitBreaker W R.

(** X7. The counter breaker counts failures since the last success
    whatever the time between them: starting Closed with [failureCount]
    at [c], after [k >= 1] more recorded failures the count is [c + k] and
    the breaker is Open exactly if [c + k] has reached
    [failureThreshold]. *)
Theorem X7_counter_breaker_opens_at_threshold h (ts : list Time) :
  let cb := circuitBreaker h in
  let cb' := circuitBreaker (exec (counter_failures_at ts) h) in
  state cb = StateClosed →
  ts ≠ [] →
  0 <= failureCount cb →
  failureCount cb + Z.of_nat (length ts) <= maxInt64 →
  failureCount cb' = failureCount cb + Z.of_nat (length ts)
  ∧ state cb' = if bool_decide (failureThreshold cb <= failureCount cb + Z.of_nat (length ts))
                then StateOpen else StateClosed.
Proof.
  intros cb cb' Hst Hne H0 Hmax. unfold cb'. rewrite counter_failures_at_run.
  destruct (counter_failures_fold ts cb H0 Hmax) as (Hc & _ & _ & Hclosed).
  split; [done|]. by apply Hclosed.
Qed.
End CounterBreaker.

(** ** More of the bulkhead *)
Section BulkheadMore.
Context {CB W R : Type}.
Implicit Type h : Heap CB W R.
Implicit Type fn : M (Heap CB W R) error.

Lemma release_run h :
  chan_can_recv (semaphore (bulkhead h)) = true →
  release h
  = (Ret tt,
     set_metrics
       (mkMetrics (circuitBreakerState (metrics h)) (circuitBreakerFailures (metrics h))
          (vec_Add (-1) (poolName (bulkhead h)) (bulkheadActive (metrics h)))
          (bulkheadRejected (metrics h)))
       (set_bulkhead (mkBulkhead (chan_recv (semaphore (bulkhead h))) (poolName (bulkhead h)))
          h)).
Proof.
  intros Hrecv. unfold release. unfold_bulkhead. unfold_monad. simpl. by rewrite Hrecv.
Qed.

Lemma release_after_acquire h (h_out : Heap CB W R) :
  bulkhead h_out = bulkhead (exec acquire h) →
  ∃ m, release h_out = (Ret tt, set_metrics m (set_bulkhead (bulkhead h) h_out)).
Proof.
  intros Hb. rewrite release_run.
  - eexists. f_equal. f_equal. rewrite Hb. simpl. by destruct (bulkhead h) as [[c l] n].
  - rewrite Hb. apply bool_decide_eq_true_2. simpl. lia.
Qed.

Lemma release_frame h (res : Res unit) (h' : Heap CB W R) :
  release h = (res, h') →
  result h' = result h ∧ callErr h' = callErr h ∧ world h' = world h
  ∧ circuitBreaker h' = circuitBreaker h ∧ clock h' = clock h.
Proof.
  unfold release. unfold_bulkhead. unfold_monad. simpl.
  destruct (chan_can_recv _); intros [= <- <-]; done.
Qed.

(** X8. [NewBulkhead] panics for a negative capacity and otherwise
    makes an empty semaphore of exactly that capacity under the given
    pool name; a bulkhead of capacity 0 rejects every call and stays as
    it is. *)
Theorem X8_NewBulkhead_capacity (name : string) (N : Z) h fn :
  (N < 0 → NewBulkhead name N = Panic "makechan: size out of range")
  ∧ (0 <= N →
     NewBulkhead name N = Ret (mkBulkhead (mkChan (Z.to_nat N) 0) name)
     ∧ Z.of_nat (Z.to_nat N) = N)
  ∧ (NewBulkhead name 0 = Ret (bulkhead h) →
     eval (TryExecute fn) h = Ret (Some ErrBulkheadFull)
     ∧ bulkhead (exec (TryExecute fn) h) = bulkhead h
     ∧ world (exec (TryExecute fn) h) = world h).
Proof.
  unfold NewBulkhead. split; [|split].
  - intros HN. by rewrite bool_decide_eq_true_2.
  - intros HN. rewrite bool_decide_eq_false_2 by lia. split; [done|lia].
  - simpl. intros [= Hb]. unfold eval, exec.
    rewrite TryExecute_full; [done|]. by rewrite <- Hb.
Qed.

(** X9. Around a callable that holds a slot the [bulkhead_active] gauge
    is one higher than before the call, and once the callable has
    returned or panicked it is back at its old value; the rejection
    counter does not move.  The callable is one that leaves the bulkhead
    and the metrics alone. *)
Theorem X9_active_gauge_around_callable h fn (r : Res error) (h_out : Heap CB W R) :
  let h_in := exec acquire h in
  let h' := exec (TryExecute fn) h in
  chan_can_send (semaphore (bulkhead h)) = true →
  fn h_in = (r, h_out) →
  r ≠ Hang →
  bulkhead h_out = bulkhead h_in →
  metrics h_out = metrics h_in →
  active_gauge h_in = active_gauge h + 1
  ∧ active_gauge h' = active_gauge h
  ∧ rejected_total h' = rejected_total h.
Proof.
  intros h_in h' Hroom Hfn Hr Hb Hm.
  assert (active_gauge h_in = active_gauge h + 1) as Hin.
  { unfold h_in, active_gauge, acquire. unfold_bulkhead. unfold_monad. simpl.
    unfold vec_Add, vec_get. by rewrite lookup_insert_eq. }
  split; [done|].
  assert (chan_can_recv (semaphore (bulkhead h_out)) = true) as Hrecv
    by (rewrite Hb; apply bool_decide_eq_true_2; simpl; lia).
  assert (h' = exec release h_out) as ->.
  { unfold h', exec. rewrite TryExecute_room by done. fold h_in. unfold defer, exec.
    rewrite Hfn, (release_run h_out Hrecv).
    destruct r; [done|done|by destruct Hr]. }
  unfold exec. rewrite (release_run h_out Hrecv).
  unfold active_gauge, rejected_total in *. simpl. rewrite Hm, Hb.
  unfold h_in, acquire. unfold_bulkhead. unfold_monad. simpl.
  unfold vec_Add, vec_get. rewrite !lookup_insert_eq. simpl.
  split; [lia|done].
Qed.

(** X10. A callable that never returns keeps its slot: the method does
    not return either, nothing is released, and the semaphore holds one
    element more than before the call. *)
Theorem X10_stuck_callable_keeps_its_slot h fn (h_out : Heap CB W R) :
  let h_in := exec acquire h in
  chan_can_send (semaphore (bulkhead h)) = true →
  fn h_in = (Hang, h_out) →
  bulkhead h_out = bulkhead h_in →
  TryExecute fn h = (Hang, h_out)
  ∧ chan_len (semaphore (bulkhead (exec (TryExecute fn) h)))
    = S (chan_len (semaphore (bulkhead h))).
Proof.
  intros h_in Hroom Hfn Hb.
  assert (TryExecute fn h = (Hang, h_out)) as Hrun.
  { rewrite TryExecute_room by done. unfold defer. fold h_in. by rewrite Hfn. }
  split; [done|]. unfold exec. rewrite Hrun. simpl. by rewrite Hb.
Qed.

(** X11. A call refused for lack of a slot raises
    [bulkhead_rejected_total] by one and leaves the gauge; an [Execute]
    turned away because its context is done is not counted as a
    rejection. *)
Theorem X11_rejected_total_counts_full_only h fn (pick_send : bool) (ctx : Context) :
  at_capacity h →
  rejected_total (exec (TryExecute fn) h) = rejected_total h + 1
  ∧ active_gauge (exec (TryExecute fn) h) = active_gauge h
  ∧ rejected_total (exec (Execute pick_send ctx fn) h)
    = rejected_total h + (if ctx_Done ctx then 0 else 1).
Proof.
  intros Hfull%at_capacity_cannot_send.
  unfold exec. rewrite TryExecute_full, Execute_full by done.
  assert (rejected_total (exec (bulkheadRejected_Inc (poolName (bulkhead h))) h)
          = rejected_total h + 1) as Hinc.
  { unfold rejected_total, exec, bulkheadRejected_Inc, vec_Add, vec_get. unfold_monad.
    simpl. by rewrite lookup_insert_eq. }
  split; [done|]. split; [done|].
  destruct (ctx_Done ctx); simpl; [lia|done].
Qed.

(** X12. A callable that itself enters the bulkhead cannot deadlock: when
    the outer call takes the last slot, the inner call is refused at
    once, its callable is not run, the outer call returns that
    [ErrBulkheadFull] and gives its slot back. *)
Theorem X12_reentrant_call_is_rejected h fn :
  S (chan_len (semaphore (bulkhead h))) = chan_cap (semaphore (bulkhead h)) →
  eval (TryExecute (TryExecute fn)) h = Ret (Some ErrBulkheadFull)
  ∧ bulkhead (exec (TryExecute (TryExecute fn)) h) = bulkhead h
  ∧ world (exec (TryExecute (TryExecute fn)) h) = world h
  ∧ rejected_total (exec (TryExecute (TryExecute fn)) h) = rejected_total h + 1.
Proof.
  intros Hlast.
  assert (chan_can_send (semaphore (bulkhead h)) = true) as Hroom.
  { unfold chan_can_send. apply bool_decide_eq_true_2. lia. }
  assert (chan_can_send (semaphore (bulkhead (exec acquire h))) = false) as Hfull.
  { unfold chan_can_send. apply bool_decide_eq_false_2. simpl. lia. }
  set (h1 := exec acquire h) in *.
  set (h2 := exec (bulkheadRejected_Inc (poolName (bulkhead h1))) h1).
  assert (chan_can_recv (semaphore (bulkhead h2)) = true) as Hrecv
    by (apply bool_decide_eq_true_2; simpl; lia).
  assert (TryExecute (TryExecute fn) h = (Ret (Some ErrBulkheadFull), (release h2).2)) as Hrun.
  { rewrite TryExecute_room by done. unfold defer. fold h1.
    rewrite (TryExecute_full fn h1) by done. fold h2.
    by rewrite (release_run h2 Hrecv). }
  unfold eval, exec. rewrite Hrun, (release_run h2 Hrecv). simpl.
  unfold rejected_total. simpl. unfold vec_Add, vec_get. rewrite !lookup_insert_eq.
  split; [done|]. split; [by destruct (bulkhead h) as [[c l] n]|]. split; [done|].
  simpl. lia.
Qed.
End BulkheadMore.

(** ** More of [ProcessPayment] *)
Section ProcessPaymentMore.
Import Sliding.
Context {W PaymentRequest PaymentResponse : Type}.
Local Abbreviation Heap := (Heap CircuitBreaker W PaymentResponse).
Variable makePaymentCall : Context → PaymentRequest → M Heap (option PaymentResponse * error).
Implicit Type h : Heap.

Lemma ProcessPayment_func1_succeeded ctx req h r h_out :
  chan_can_send (semaphore (bulkhead h)) = true →
  makePaymentCall ctx req (exec acquire (set_callErr None (set_result None h)))
  = (Ret (r, None), h_out) →
  bulkhead h_out = bulkhead (exec acquire (set_callErr None (set_result None h))) →
  ProcessPayment_func1 makePaymentCall ctx req (set_result None h)
  = (Ret (r, None), exec release (set_callErr None (set_result r h_out))).
Proof.
  intros Hroom Hcall Hbh. unfold ProcessPayment_func1.
  unfold mbind, M_bind, bind, modify. rewrite TryExecute_room by done.
  unfold defer, ProcessPayment_func1_1. unfold mbind, M_bind, bind, modify, gets.
  simpl. rewrite Hcall. simpl.
  assert (release (set_callErr None (set_result r h_out))
          = (Ret tt, exec release (set_callErr None (set_result r h_out)))) as Hrel.
  { unfold release. unfold_bulkhead. unfold_monad. simpl. rewrite Hbh. done. }
  rewrite Hrel. simpl.
  unfold release, exec. unfold_bulkhead. unfold_monad. simpl. rewrite Hbh. done.
Qed.

Lemma ProcessPayment_func1_room ctx req h r e h2 :
  chan_can_send (semaphore (bulkhead h)) = true →
  ProcessPayment_func1 makePaymentCall ctx req h = (Ret (r, e), h2) →
  ∃ r0 h_out,
    makePaymentCall ctx req (exec acquire (set_callErr None h)) = (Ret (r0, e), h_out)
    ∧ (e = None → r = r0).
Proof.
  intros Hroom. unfold ProcessPayment_func1.
  unfold mbind, M_bind, bind, modify. rewrite TryExecute_room by done.
  unfold defer, ProcessPayment_func1_1. unfold mbind, M_bind, bind, modify, gets.
  simpl. destruct (makePaymentCall ctx req _) as [[[r0 e0]| |] h_out]; simpl.
  - destruct (release _) as [[[]| |] h3] eqn:Hrel; simpl; try done.
    apply release_frame in Hrel. simpl in Hrel. destruct Hrel as (Hres & Herr & _).
    destruct e0 as [e0|].
    + intros [= <- <- <-]. by exists r0, h_out.
    + unfold gets. simpl. rewrite Hres, Herr. intros [= <- <- <-]. by exists r0, h_out.
  - by destruct (release _) as [[[]| |] h3].
  - done.
Qed.

Lemma ProcessPayment_func1_returns ctx req h r0 e0 h_out :
  chan_can_send (semaphore (bulkhead h)) = true →
  makePaymentCall ctx req (exec acquire (set_callErr None h)) = (Ret (r0, e0), h_out) →
  bulkhead h_out = bulkhead (exec acquire (set_callErr None h)) →
  ∃ h2, ProcessPayment_func1 makePaymentCall ctx req h
        = (Ret (match e0 with Some _ => None | None => r0 end, e0), h2).
Proof.
  intros Hroom Hcall Hbh. unfold ProcessPayment_func1.
  unfold mbind, M_bind, bind, modify. rewrite TryExecute_room by done.
  unfold defer, ProcessPayment_func1_1. unfold mbind, M_bind, bind, modify, gets.
  simpl. rewrite Hcall. simpl.
  destruct (release_after_acquire (set_callErr None h) (set_callErr e0 (set_result r0 h_out)) Hbh)
    as [m Hrel].
  rewrite Hrel. destruct e0; simpl; by eexists.
Qed.

Lemma ProcessPayment_failed ctx req h r e h_out :
  state (circuitBreaker h) ≠ StateOpen →
  chan_can_send (semaphore (bulkhead h)) = true →
  makePaymentCall ctx req (exec acquire (set_callErr None (set_result None h)))
  = (Ret (r, Some e), h_out) →
  bulkhead h_out = bulkhead (exec acquire (set_callErr None (set_result None h))) →
  ∃ m, ProcessPayment makePaymentCall ctx req h
       = (Ret (None, Some e),
          set_result None
            (set_metrics m
               (set_circuitBreaker
                  (sliding_after_failure (clock h_out) (circuitBreaker h_out))
                  (set_bulkhead (bulkhead h) (set_callErr (Some e) (set_result r h_out)))))).
Proof.
  intros Hst Hroom Hcall Hbh. rewrite ProcessPayment_run.
  rewrite sliding_Execute_run, canAttempt_not_open by done.
  rewrite (ProcessPayment_func1_failed makePaymentCall ctx req h r e h_out) by done.
  set (h1 := set_callErr _ _).
  destruct (release_after_acquire (set_callErr None (set_result None h)) h1 Hbh) as [m0 Hrel].
  unfold exec. rewrite Hrel. cbn [snd].
  match goal with
  | |- context [recordFailure ?s] => destruct (sliding_recordFailure_run s) as [m Hm]
  end.
  rewrite Hm. by exists m.
Qed.

Lemma ProcessPayment_open_waiting ctx req h :
  state (circuitBreaker h) = StateOpen →
  time_Sub (clock h) (lastFailureTime (circuitBreaker h)) <= timeout (circuitBreaker h) →
  ∃ m, ProcessPayment makePaymentCall ctx req h
       = (Ret (None, Some ErrCircuitOpen), set_metrics m (set_result None h)).
Proof.
  intros Hst Hwait. rewrite ProcessPayment_run.
  destruct (Execute_open_waiting None (ProcessPayment_func1 makePaymentCall ctx req)
              (set_result None h) Hst Hwait) as [m ->].
  by exists m.
Qed.

(** X13. The good path of [ProcessPayment]: with the breaker not
    rejecting and a slot free, a payment call that returns a response
    and a nil error (and leaves breaker and bulkhead alone) has that
    response returned, the slot is given back, and no failure is
    recorded: a Closed breaker is left exactly as it was, a HalfOpen one
    is closed with its history cleared. *)
Theorem X13_ProcessPayment_success (ctx : Context) (req : PaymentRequest) h
    (r : option PaymentResponse) (h_out : Heap) :
  let cb := circuitBreaker h in
  let h_in := exec acquire (set_callErr None (set_result None h)) in
  let h' := exec (ProcessPayment makePaymentCall ctx req) h in
  state cb ≠ StateOpen →
  chan_can_send (semaphore (bulkhead h)) = true →
  makePaymentCall ctx req h_in = (Ret (r, None), h_out) →
  circuitBreaker h_out = cb →
  bulkhead h_out = bulkhead h_in →
  eval (ProcessPayment makePaymentCall ctx req) h = Ret (r, None)
  ∧ bulkhead h' = bulkhead h
  ∧ world h' = world h_out
  ∧ (state cb = StateClosed → circuitBreaker h' = cb)
  ∧ (state cb = StateHalfOpen →
     state (circuitBreaker h') = StateClosed ∧ failureTimestamps (circuitBreaker h') = []).
Proof.
  intros cb h_in h' Hst Hroom Hcall Hcb Hbh.
  unfold h', eval, exec. rewrite ProcessPayment_run.
  rewrite sliding_Execute_run, canAttempt_not_open by done.
  rewrite (ProcessPayment_func1_succeeded ctx req h r h_out) by done.
  set (h1 := set_callErr _ _).
  destruct (sliding_recordSuccess_run (exec release h1)) as [m Hm].
  unfold exec in *. rewrite Hm. simpl.
  unfold release. unfold_bulkhead. unfold_monad. simpl.
  rewrite Hbh. simpl. rewrite Hcb.
  split; [done|]. split.
  { rewrite Hbh. simpl. by destruct (bulkhead h) as [[c l] n]. }
  split; [done|]. unfold sliding_after_success.
  split; intros ->; done.
Qed.

(** X14. A trial that finds the bulkhead full: with the breaker HalfOpen
    and every slot taken, [ProcessPayment] returns [ErrBulkheadFull]
    without attempting the payment call, and that error, recorded as the
    trial's failure, sends the breaker back to Open with
    [lastFailureTime] now. *)
Theorem X14_full_bulkhead_fails_the_trial (ctx : Context) (req : PaymentRequest) h :
  let h' := exec (ProcessPayment makePaymentCall ctx req) h in
  state (circuitBreaker h) = StateHalfOpen →
  at_capacity h →
  eval (ProcessPayment makePaymentCall ctx req) h = Ret (None, Some ErrBulkheadFull)
  ∧ state (circuitBreaker h') = StateOpen
  ∧ lastFailureTime (circuitBreaker h') = clock h
  ∧ bulkhead h' = bulkhead h
  ∧ world h' = world h.
Proof.
  intros h' Hst Hfull%at_capacity_cannot_send.
  unfold h', eval, exec. rewrite ProcessPayment_run.
  rewrite sliding_Execute_run, canAttempt_not_open by (simpl; by rewrite Hst).
  rewrite ProcessPayment_func1_full by done.
  set (h1 := exec (bulkheadRejected_Inc _) _).
  destruct (sliding_recordFailure_run h1) as [m1 Hm1].
  unfold exec. rewrite Hm1. simpl. unfold sliding_after_failure. simpl.
  by rewrite Hst.
Qed.
End ProcessPaymentMore.

(** ** The payment call *)
Section PaymentCallFacts.
Context {CB W : Type}.
Local Abbreviation Heap := (Heap CB W PaymentResponse.t).
Variable baseURL : string.
Variable json_Marshal : PaymentRequest.t → Result string.
Variable http_NewRequestWithContext : Context → string → string → string → Result Request.
Variable httpClient_Do : Request → M Heap (Result Response).
Variable Body_Close : Response → M Heap unit.
Variable json_Decode : Response → M Heap (Result PaymentResponse.t).
Implicit Type h : Heap.

Local Abbreviation call :=
  (makePaymentCall baseURL json_Marshal http_NewRequestWithContext httpClient_Do
     Body_Close json_Decode).

Lemma makePaymentCall_returns ctx req h r e h' :
  call ctx req h = (Ret (r, e), h') →
  (∃ paymentResp, r = Some paymentResp ∧ e = None)
  ∨ (∃ msg, r = None ∧ e = Some (ErrorString msg)).
Proof.
  unfold makePaymentCall, Errorf_w.
  destruct (json_Marshal req) as [body|err]; [|intros [= <- <- _]; right; by eexists].
  destruct (http_NewRequestWithContext _ _ _ _) as [httpReq|err];
    [|intros [= <- <- _]; right; by eexists].
  unfold mbind, M_bind, bind.
  destruct (httpClient_Do _ h) as [[[resp|err]| |] h1]; try done;
    [|intros [= <- <- _]; right; by eexists].
  unfold defer. case_bool_decide.
  - unfold mret, M_ret, ret. destruct (Body_Close resp h1) as [[[]| |] h2]; try done.
    intros [= <- <- _]; right; by eexists.
  - destruct (json_Decode resp h1) as [[[paymentResp|err]| |] hd]; unfold mret, M_ret, ret;
      try done; destruct (Body_Close resp hd) as [[[]| |] h2]; try done.
    + intros [= <- <- _]; left; by eexists.
    + intros [= <- <- _]; right; by eexists.
Qed.

(** X15. What [makePaymentCall] returns: a response exactly when the
    error is nil; every error is a new value made by [fmt.Errorf], so it
    is none of [ErrCircuitOpen], [ErrBulkheadFull], [context.Canceled]
    and [context.DeadlineExceeded].  Once the round trip has produced a
    response its body is closed on every path, last of all: a status
    other than 200 is an error that carries the status code and the body
    is not decoded; with status 200 the body is decoded, and a response
    is returned only if it is the one decoded. *)
Theorem X15_makePaymentCall_result ctx req h r e h' :
  call ctx req h = (Ret (r, e), h') →
  (is_Some r ↔ e = None)
  ∧ (∀ err, e = Some err →
       err ∉ [ErrCircuitOpen; ErrBulkheadFull; Canceled; DeadlineExceeded])
  ∧ (∀ body httpReq resp h1,
       json_Marshal req = Ok body →
       http_NewRequestWithContext ctx "POST" (baseURL +:+ "/api/payments") body = Ok httpReq →
       httpClient_Do (Header_Set "Content-Type" "application/json" httpReq) h
       = (Ret (Ok resp), h1) →
       if bool_decide (StatusCode resp = StatusOK) then
         ∃ decoded h2,
           json_Decode resp h1 = (Ret decoded, h2)
           ∧ Body_Close resp h2 = (Ret tt, h')
           ∧ (∀ paymentResp, r = Some paymentResp → decoded = Ok paymentResp)
       else
         Body_Close resp h1 = (Ret tt, h')
         ∧ e = Some (ErrorString ("payment service returned status "
                                  +:+ pretty (StatusCode resp)))).
Proof.
  intros Hrun. split; [|split].
  - destruct (makePaymentCall_returns _ _ _ _ _ _ Hrun) as [(p & -> & ->)|(msg & -> & ->)].
    + done.
    + split; [by intros [? ?]|done].
  - intros err ->.
    destruct (makePaymentCall_returns _ _ _ _ _ _ Hrun) as [(p & _ & ?)|(msg & _ & [= ->])];
      [done|].
    rewrite !not_elem_of_cons. repeat split; try done. apply not_elem_of_nil.
  - intros body httpReq resp h1 Hbody Hreq Hdo. revert Hrun.
    unfold makePaymentCall. rewrite Hbody, Hreq.
    unfold mbind, M_bind, bind. rewrite Hdo. unfold defer.
    case_bool_decide as Hstatus.
    + rewrite bool_decide_eq_false_2 by done.
      unfold mret, M_ret, ret. destruct (Body_Close resp h1) as [[[]| |] h2]; try done.
      intros [= <- <- <-]. done.
    + rewrite bool_decide_eq_true_2 by done.
      destruct (json_Decode resp h1) as [[[paymentResp|err]| |] hd]; unfold mret, M_ret, ret;
        try done; destruct (Body_Close resp hd) as [[[]| |] h2] eqn:Hclose; try done.
      * intros [= <- <- <-]. eexists _, _. split; [reflexivity|]. split; [exact Hclose|].
        by intros ? [= <-].
      * intros [= <- <- <-]. eexists _, _. split; [reflexivity|]. split; [exact Hclose|].
        done.
Qed.

Lemma makePaymentCall_total ctx req h :
  (∀ q h0, ∃ sent h1, httpClient_Do q h0 = (Ret sent, h1) ∧ bulkhead h1 = bulkhead h0) →
  (∀ resp h0, ∃ decoded h1, json_Decode resp h0 = (Ret decoded, h1)
                            ∧ bulkhead h1 = bulkhead h0) →
  (∀ resp h0, ∃ h1, Body_Close resp h0 = (Ret tt, h1) ∧ bulkhead h1 = bulkhead h0) →
  ∃ r e h', call ctx req h = (Ret (r, e), h') ∧ bulkhead h' = bulkhead h.
Proof.
  intros Hdo Hdecode Hclose. unfold makePaymentCall.
  destruct (json_Marshal req) as [body|err]; [|by eexists _, _, _].
  destruct (http_NewRequestWithContext _ _ _ _) as [httpReq|err]; [|by eexists _, _, _].
  unfold mbind, M_bind, bind.
  destruct (Hdo (Header_Set "Content-Type" "application/json" httpReq) h)
    as (sent & h1 & -> & Hb1).
  destruct sent as [resp|err]; [|by eexists _, _, _].
  unfold defer. rewrite <- Hb1. case_bool_decide.
  - destruct (Hclose resp h1) as (h2 & Hc & Hb2). rewrite <- Hb2.
    unfold mret, M_ret, ret. rewrite Hc. by eexists _, _, _.
  - destruct (Hdecode resp h1) as (decoded & hd & -> & Hbd).
    destruct (Hclose resp hd) as (h2 & Hc & Hb2). rewrite <- Hbd, <- Hb2.
    destruct decoded; unfold mret, M_ret, ret; rewrite Hc; by eexists _, _, _.
Qed.
End PaymentCallFacts.

(** ** The guarded payment call *)
Section ResilientClient.
Import Sliding.
Context {W : Type}.
Local Abbreviation Heap := (Heap CircuitBreaker W PaymentResponse.t).
Variable baseURL : string.
Variable json_Marshal : PaymentRequest.t → Result string.
Variable http_NewRequestWithContext : Context → string → string → string → Result Request.
Variable httpClient_Do : Request → M Heap (Result Response).
Variable Body_Close : Response → M Heap unit.
Variable json_Decode : Response → M Heap (Result PaymentResponse.t).
Implicit Type h : Heap.

Local Abbreviation call :=
  (makePaymentCall baseURL json_Marshal http_NewRequestWithContext httpClient_Do
     Body_Close json_Decode).

(** X16. The guards are transparent when they let a call through: with
    the breaker not rejecting and a slot free, [ProcessPayment] returns
    exactly the response and error that [makePaymentCall] returned.
    Nothing is lost where [Execute] puts the zero result beside an error,
    because [makePaymentCall] returns no response with one.  The slot is
    given back, and an error is recorded as a failure at the moment the
    call came back.  The HTTP round trip is one that leaves breaker and
    bulkhead alone. *)
Theorem X16_guards_are_transparent ctx req h r e h_out :
  let cb := circuitBreaker h in
  let h_in := exec acquire (set_callErr None (set_result None h)) in
  let h' := exec (ProcessPayment call ctx req) h in
  state cb ≠ StateOpen →
  chan_can_send (semaphore (bulkhead h)) = true →
  call ctx req h_in = (Ret (r, e), h_out) →
  circuitBreaker h_out = cb →
  bulkhead h_out = bulkhead h_in →
  eval (ProcessPayment call ctx req) h = Ret (r, e)
  ∧ bulkhead h' = bulkhead h
  ∧ world h' = world h_out
  ∧ (e ≠ None → circuitBreaker h' = sliding_after_failure (clock h_out) cb).
Proof.
  intros cb h_in h' Hst Hroom Hcall Hcb Hbh.
  unfold h', eval, exec. rewrite ProcessPayment_run.
  rewrite sliding_Execute_run, canAttempt_not_open by done.
  destruct (makePaymentCall_returns _ _ _ _ _ _ _ _ _ _ _ _ Hcall)
    as [(p & -> & ->)|(msg & -> & ->)].
  - rewrite (ProcessPayment_func1_succeeded call ctx req h (Some p) h_out) by done.
    set (h1 := set_callErr _ _).
    destruct (release_after_acquire (set_callErr None (set_result None h)) h1 Hbh)
      as [m0 Hrel].
    unfold exec. rewrite Hrel. cbn [snd].
    match goal with
    | |- context [recordSuccess ?s] => destruct (sliding_recordSuccess_run s) as [m Hm]
    end.
    rewrite Hm. done.
  - rewrite (ProcessPayment_func1_failed call ctx req h None (ErrorString msg) h_out) by done.
    set (h1 := set_callErr _ _).
    destruct (release_after_acquire (set_callErr None (set_result None h)) h1 Hbh)
      as [m0 Hrel].
    unfold exec. rewrite Hrel. cbn [snd].
    match goal with
    | |- context [recordFailure ?s] => destruct (sliding_recordFailure_run s) as [m Hm]
    end.
    rewrite Hm. simpl. by rewrite Hcb.
Qed.
End ResilientClient.

(** ** The order handler *)
Section HandlerFacts.
Context {CB W CustomerID_t Items_t : Type}.
Local Abbreviation Heap := (Heap CB W PaymentResponse.t).
Variable ProcessPayment : Context → PaymentRequest.t → M Heap (option PaymentResponse.t * error).
Implicit Type s : OrderHandler CB W CustomerID_t Items_t.
Implicit Type body : JSON CustomerID_t Items_t.
Implicit Type bound : Result (OrderRequest.t CustomerID_t Items_t).

(** The paths of [CreateOrder] that reach [c.JSON] *)
Lemma CreateOrder_returns bound ctx uuid s (code : Z) body s' :
  CreateOrder ProcessPayment bound ctx uuid s = (Ret (code, body), s') →
  (∃ err, bound = Fail err ∧ code = StatusBadRequest ∧ s' = s
     ∧ body = JSON_ErrorResponse
                (ErrorResponse.mk "Bad Request" StatusBadRequest
                   ("Invalid order request: " +:+ Err_Error err)))
  ∨ (∃ req paymentResp err h,
       let orderID := "order-" +:+ String.substring 0 8 uuid in
       bound = Ok req
       ∧ (8 ≤ String.length uuid)%nat
       ∧ ProcessPayment ctx (PaymentRequest.mk orderID (OrderRequest.Amount req) "credit_card")
           (paymentClient s) = (Ret (paymentResp, err), h)
       ∧ match err with
         | Some e =>
             s' = mkOrderHandler h (orders s)
             ∧ ∃ detail,
                 body = JSON_ErrorResponse
                          (ErrorResponse.mk
                             (if bool_decide (e ∈ [ErrCircuitOpen; ErrBulkheadFull])
                              then "Service Unavailable" else "Internal Server Error")
                             code detail)
                 ∧ code = (if bool_decide (e ∈ [ErrCircuitOpen; ErrBulkheadFull])
                           then StatusServiceUnavailable else StatusInternalServerError)
         | None =>
             ∃ p, paymentResp = Some p
               ∧ code = StatusOK
               ∧ let order :=
                   OrderResponse.mk orderID (OrderRequest.CustomerID req)
                     (OrderRequest.Amount req) "completed" (PaymentResponse.PaymentID p)
                     (OrderRequest.Items req) (clock h) in
                 body = JSON_OrderResponse order
                 ∧ s' = mkOrderHandler h (<[orderID := order]> (orders s))
         end).
Proof.
  unfold CreateOrder. destruct bound as [req|err].
  - intros Hrun. right. revert Hrun. unfold slice_to.
    unfold mbind, M_bind, bind at 1. case_bool_decide as Hlen; [|done].
    unfold mret, M_ret, ret at 1. unfold bind at 1. unfold on_client at 1.
    destruct (ProcessPayment _ _ _) as [[[paymentResp err]| |] h] eqn:Hpay; try done.
    intros Hrun. exists req, paymentResp, err, h. simpl.
    split; [done|]. split; [done|]. split; [done|].
    destruct err as [e|].
    + revert Hrun.
      destruct (decide (e = ErrCircuitOpen)) as [->|Hopen];
        [intros [= <- <- <-]; split; [done|]; eexists; split; reflexivity|].
      destruct (decide (e = ErrBulkheadFull)) as [->|Hfull];
        [intros [= <- <- <-]; split; [done|]; eexists; split; reflexivity|].
      rewrite !bool_decide_eq_false_2 by done.
      rewrite (bool_decide_eq_false_2 (e ∈ _)).
      * intros [= <- <- <-]. split; [done|]. eexists. split; reflexivity.
      * rewrite !not_elem_of_cons. repeat split; try done. apply not_elem_of_nil.
    + destruct paymentResp as [p|]; [|done].
      revert Hrun. unfold orders_store, on_client, time_Now. unfold_monad. simpl.
      intros [= <- <- <-]. by exists p.
  - intros [= <- <- <-]. left. by exists err.
Qed.
Lemma CreateOrder_replies req ctx uuid s r e h :
  (8 ≤ String.length uuid)%nat →
  ProcessPayment ctx
    (PaymentRequest.mk ("order-" +:+ String.substring 0 8 uuid) (OrderRequest.Amount req)
       "credit_card") (paymentClient s) = (Ret (r, e), h) →
  (e = None → is_Some r) →
  ∃ code body s', CreateOrder ProcessPayment (Ok req) ctx uuid s = (Ret (code, body), s').
Proof.
  intros Hlen Hpay Hresp. unfold CreateOrder, slice_to.
  unfold mbind, M_bind, bind at 1. rewrite bool_decide_eq_true_2 by done.
  unfold mret, M_ret, ret at 1. unfold bind at 1. unfold on_client at 1.
  rewrite Hpay. destruct e as [e|].
  - repeat case_bool_decide; by eexists _, _, _.
  - destruct Hresp as [p ->]; [done|].
    unfold orders_store, on_client, time_Now. unfold_monad. simpl. by eexists _, _, _.
Qed.

Lemma CreateOrder_failed req ctx uuid s p e h :
  (8 ≤ String.length uuid)%nat →
  ProcessPayment ctx
    (PaymentRequest.mk ("order-" +:+ String.substring 0 8 uuid) (OrderRequest.Amount req)
       "credit_card") (paymentClient s) = (Ret (p, Some e), h) →
  CreateOrder ProcessPayment (Ok req) ctx uuid s
  = (Ret (if bool_decide (e = ErrCircuitOpen) then
            (StatusServiceUnavailable,
             JSON_ErrorResponse
               (ErrorResponse.mk "Service Unavailable" StatusServiceUnavailable
                  "Payment service is temporarily unavailable (circuit breaker open)"))
          else if bool_decide (e = ErrBulkheadFull) then
            (StatusServiceUnavailable,
             JSON_ErrorResponse
               (ErrorResponse.mk "Service Unavailable" StatusServiceUnavailable
                  "Too many concurrent payment requests (bulkhead full)"))
          else
            (StatusInternalServerError,
             JSON_ErrorResponse
               (ErrorResponse.mk "Internal Server Error" StatusInternalServerError
                  ("Failed to process payment: " +:+ Err_Error e)))),
     mkOrderHandler h (orders s)).
Proof.
  intros Hlen Hpay. unfold CreateOrder, slice_to.
  unfold mbind, M_bind, bind at 1. rewrite bool_decide_eq_true_2 by done.
  unfold mret, M_ret, ret at 1. unfold bind at 1. unfold on_client at 1.
  rewrite Hpay. by repeat case_bool_decide.
Qed.

(** X17. Every reply of [CreateOrder] carries one of the codes 200, 400,
    500 and 503.  The code is 400 exactly when the body did not bind, and
    then neither the payment client nor the store is touched.  Every
    reply other than 200 is an error object whose [Status] field equals
    the code of the reply, and it leaves the stored orders as they
    were. *)
Theorem X17_CreateOrder_error_replies bound ctx uuid s (code : Z) body s' :
  CreateOrder ProcessPayment bound ctx uuid s = (Ret (code, body), s') →
  code ∈ [StatusOK; StatusBadRequest; StatusInternalServerError; StatusServiceUnavailable]
  ∧ (code = StatusBadRequest ↔ ∃ err, bound = Fail err)
  ∧ (code = StatusBadRequest → s' = s)
  ∧ (code ≠ StatusOK →
     orders s' = orders s
     ∧ ∃ e, body = JSON_ErrorResponse e ∧ ErrorResponse.Status e = code).
Proof.
  intros [(err & -> & -> & -> & ->)|(req & p & err & h & -> & _ & _ & Hout)]%CreateOrder_returns.
  - split; [by repeat constructor|]. split; [by split; [eexists|]|].
    split; [done|]. intros _. split; [done|]. by eexists.
  - destruct err as [e|].
    + destruct Hout as (-> & detail & -> & Hcode). simpl.
      split; [|split; [|split]].
      * rewrite Hcode. case_bool_decide; by repeat constructor.
      * rewrite Hcode. split; [by case_bool_decide|by intros [? ?]].
      * rewrite Hcode. by case_bool_decide.
      * intros _. split; [done|]. by eexists.
    + destruct Hout as (p' & -> & -> & -> & ->). simpl.
      split; [by repeat constructor|]. split; [|done].
      split; [done|by intros [? ?]].
Qed.

(** X18. An order that [CreateOrder] has answered with 200 is the one
    [GetOrder] returns for its id, until a later order takes the same id:
    the id is "order-" followed by the first eight characters of the
    UUID, customer, amount and items are those of the request, the status
    is "completed", the payment id is the payment service's, and
    [CreatedAt] is the time after the payment.  Looking up any other id
    gives what it gave before, and [GetOrder] changes nothing. *)
Theorem X18_created_order_can_be_fetched bound ctx uuid s body s' :
  CreateOrder ProcessPayment bound ctx uuid s = (Ret (StatusOK, body), s') →
  ∃ req paymentResp order h,
    bound = Ok req
    ∧ body = JSON_OrderResponse order
    ∧ ProcessPayment ctx
        (PaymentRequest.mk (OrderResponse.OrderID order) (OrderRequest.Amount req) "credit_card")
        (paymentClient s) = (Ret (Some paymentResp, None), h)
    ∧ order = OrderResponse.mk ("order-" +:+ String.substring 0 8 uuid)
                (OrderRequest.CustomerID req) (OrderRequest.Amount req) "completed"
                (PaymentResponse.PaymentID paymentResp) (OrderRequest.Items req)
                (clock (paymentClient s'))
    ∧ GetOrder (OrderResponse.OrderID order) s' = (Ret (StatusOK, JSON_OrderResponse order), s')
    ∧ ∀ id, id ≠ OrderResponse.OrderID order →
        GetOrder id s' = ((GetOrder id s).1, s').
Proof.
  intros [(err & _ & [=] & _)|(req & p & err & h & -> & _ & Hpay & Hout)]%CreateOrder_returns.
  destruct err as [e|].
  { destruct Hout as (_ & _ & _ & Hcode). by case_bool_decide. }
  destruct Hout as (p' & -> & _ & -> & ->). simpl in *.
  eexists req, p', _, h. split; [done|]. split; [done|]. split; [exact Hpay|].
  split; [done|]. unfold GetOrder. unfold_monad. simpl. split.
  - by rewrite lookup_insert_eq.
  - intros id Hid. rewrite lookup_insert_ne by done. by destruct (orders s !! id).
Qed.
End HandlerFacts.

(** ** The handler on the guarded client *)
Section GuardedHandler.
Import Sliding.
Context {W CustomerID_t Items_t : Type}.
Local Abbreviation Heap := (Heap CircuitBreaker W PaymentResponse.t).
Variable baseURL : string.
Variable json_Marshal : PaymentRequest.t → Result string.
Variable http_NewRequestWithContext : Context → string → string → string → Result Request.
Variable httpClient_Do : Request → M Heap (Result Response).
Variable Body_Close : Response → M Heap unit.
Variable json_Decode : Response → M Heap (Result PaymentResponse.t).
Implicit Type h : Heap.
Implicit Type s : OrderHandler CircuitBreaker W CustomerID_t Items_t.
Implicit Type body : JSON CustomerID_t Items_t.

Local Abbreviation call :=
  (makePaymentCall baseURL json_Marshal http_NewRequestWithContext httpClient_Do
     Body_Close json_Decode).

(** How a returning [ProcessPayment] went, by the guards it met *)
Lemma ProcessPayment_returns ctx req h r err h' :
  ProcessPayment call ctx req h = (Ret (r, err), h') →
  let cb := circuitBreaker h in
  (state cb = StateOpen ∧ time_Sub (clock h) (lastFailureTime cb) <= timeout cb
   ∧ err = Some ErrCircuitOpen ∧ world h' = world h)
  ∨ (¬ (state cb = StateOpen ∧ time_Sub (clock h) (lastFailureTime cb) <= timeout cb)
     ∧ chan_can_send (semaphore (bulkhead h)) = false
     ∧ err = Some ErrBulkheadFull ∧ world h' = world h)
  ∨ (¬ (state cb = StateOpen ∧ time_Sub (clock h) (lastFailureTime cb) <= timeout cb)
     ∧ chan_can_send (semaphore (bulkhead h)) = true
     ∧ ((∃ p, r = Some p ∧ err = None) ∨ (∃ msg, err = Some (ErrorString msg)))).
Proof.
  rewrite ProcessPayment_run, sliding_Execute_run. intros Hrun cb. subst cb.
  assert (∀ h1, bulkhead h1 = bulkhead h →
    match ProcessPayment_func1 call ctx req h1 with
    | (Ret (r0, None), h2) => (Ret (r0, None), set_result r0 (exec recordSuccess h2))
    | (Ret (r0, Some e), h2) => (Ret (None, Some e), set_result None (exec recordFailure h2))
    | (Panic v, h2) => (Panic v, h2)
    | (Hang, h2) => (Hang, h2)
    end = (Ret (r, err), h') →
    world h1 = world h →
    (chan_can_send (semaphore (bulkhead h)) = false
     ∧ err = Some ErrBulkheadFull ∧ world h' = world h)
    ∨ (chan_can_send (semaphore (bulkhead h)) = true
       ∧ ((∃ p, r = Some p ∧ err = None) ∨ (∃ msg, err = Some (ErrorString msg))))) as Hlet.
  { intros h1 Hb Hrun1 Hw.
    destruct (chan_can_send (semaphore (bulkhead h))) eqn:Hsend.
    - right. split; [done|].
      destruct (ProcessPayment_func1 call ctx req h1) as [[[r0 e0]| |] h2] eqn:Hfn; try done.
      apply ProcessPayment_func1_room in Hfn as (r1 & h_out & Hcall & Hr); [|by rewrite Hb].
      apply makePaymentCall_returns in Hcall as [(p & -> & ->)|(msg & -> & ->)].
      + rewrite Hr in Hrun1 by done. injection Hrun1 as <- <- <-. left. by exists p.
      + injection Hrun1 as <- <- <-. right. by exists msg.
    - left. split; [done|]. rewrite ProcessPayment_func1_full in Hrun1 by by rewrite Hb.
      injection Hrun1 as <- <- <-. split; [done|].
      match goal with
      | |- context [exec recordFailure ?s] => destruct (sliding_recordFailure_run s) as [m Hm]
      end.
      unfold exec at 1. rewrite Hm. simpl. done. }
  destruct (canAttempt_cases (set_result None h)) as [(Hst & Hel & Hcan)|[(Hst & Hel & Hcan)|[Hst Hcan]]];
    rewrite Hcan in Hrun; simpl in Hst; try simpl in Hel.
  - right. assert (¬ (state (circuitBreaker h) = StateOpen
      ∧ time_Sub (clock h) (lastFailureTime (circuitBreaker h))
        <= timeout (circuitBreaker h))) as Hnot by (intros [_ ?]; lia).
    destruct (ProcessPayment_func1 call ctx req _) as [[[r0 [e0|]]| |] h2] eqn:Hfn in Hrun;
      try done; (edestruct Hlet as [(? & ? & ?)|(? & ?)];
        [| rewrite Hfn; exact Hrun | |by left|by right]; done).
  - left. injection Hrun as <- <- <-. done.
  - right. assert (¬ (state (circuitBreaker h) = StateOpen
      ∧ time_Sub (clock h) (lastFailureTime (circuitBreaker h))
        <= timeout (circuitBreaker h))) as Hnot by (by intros [? _]).
    destruct (ProcessPayment_func1 call ctx req _) as [[[r0 [e0|]]| |] h2] eqn:Hfn in Hrun;
      try done; (edestruct Hlet as [(? & ? & ?)|(? & ?)];
        [| rewrite Hfn; exact Hrun | |by left|by right]; done).
Qed.

Lemma ProcessPayment_total ctx req h :
  (∀ q h0, ∃ sent h1, httpClient_Do q h0 = (Ret sent, h1) ∧ bulkhead h1 = bulkhead h0) →
  (∀ resp h0, ∃ decoded h1, json_Decode resp h0 = (Ret decoded, h1)
                            ∧ bulkhead h1 = bulkhead h0) →
  (∀ resp h0, ∃ h1, Body_Close resp h0 = (Ret tt, h1) ∧ bulkhead h1 = bulkhead h0) →
  ∃ r e h', ProcessPayment call ctx req h = (Ret (r, e), h') ∧ (e = None → is_Some r).
Proof.
  intros Hdo Hdecode Hclose. rewrite ProcessPayment_run, sliding_Execute_run.
  assert (∀ h1, ∃ r e h2,
    ProcessPayment_func1 call ctx req h1 = (Ret (r, e), h2) ∧ (e = None → is_Some r)) as Hfn.
  { intros h1. destruct (chan_can_send (semaphore (bulkhead h1))) eqn:Hsend.
    - destruct (makePaymentCall_total baseURL json_Marshal http_NewRequestWithContext
                  httpClient_Do Body_Close json_Decode ctx req
                  (exec acquire (set_callErr None h1)) Hdo Hdecode Hclose)
        as (r0 & e0 & h_out & Hcall & Hb).
      destruct (ProcessPayment_func1_returns call ctx req h1 r0 e0 h_out Hsend Hcall Hb)
        as [h2 ->].
      apply makePaymentCall_returns in Hcall as [(p & -> & ->)|(msg & -> & ->)];
        eexists _, _, _; split; done.
    - rewrite ProcessPayment_func1_full by done. eexists _, _, _; split; done. }
  destruct (canAttempt_cases (set_result None h)) as [(_ & _ & ->)|[(_ & _ & ->)|[_ ->]]].
  - destruct (Hfn (exec (setState StateHalfOpen) (set_result None h)))
      as (r & [e|] & h2 & -> & Hr); eexists _, _, _; split; done.
  - eexists _, _, _; split; done.
  - destruct (Hfn (set_result None h)) as (r & [e|] & h2 & -> & Hr);
      eexists _, _, _; split; done.
Qed.

(** X19. On the guarded client the handler answers 503 exactly when a
    guard turned the payment away: the breaker is Open with its timeout
    not yet elapsed, or it lets the call through and the bulkhead has no
    free slot.  A 503 means the payment service was not contacted and no
    order was stored; a payment call that was let through and failed,
    for whatever reason, is a 500. *)
Theorem X19_unavailable_iff_guard_rejects req ctx uuid s (code : Z) body s' :
  let h := paymentClient s in
  let cb := circuitBreaker h in
  CreateOrder (ProcessPayment call) (Ok req) ctx uuid s = (Ret (code, body), s') →
  (code = StatusServiceUnavailable
   ↔ (state cb = StateOpen ∧ time_Sub (clock h) (lastFailureTime cb) <= timeout cb)
     ∨ chan_can_send (semaphore (bulkhead h)) = false)
  ∧ (code = StatusServiceUnavailable →
     world (paymentClient s') = world h ∧ orders s' = orders s).
Proof.
  intros h cb
    [(err & [=] & _)|(req' & p & err & h1 & [= <-] & _ & Hpay & Hout)]%CreateOrder_returns.
  apply ProcessPayment_returns in Hpay. fold h cb in Hpay.
  destruct Hpay as [(Hst & Hel & -> & Hw)|[(Hnot & Hfull & -> & Hw)
    |(Hnot & Hroom & [(p' & -> & ->)|(msg & ->)])]].
  - destruct Hout as (-> & detail & -> & ->). simpl. split; [|done].
    split; [by left|done].
  - destruct Hout as (-> & detail & -> & ->). simpl. split; [|done].
    split; [by right|done].
  - destruct Hout as (p'' & _ & -> & _). split; [|done].
    split; [done|]. intros [?|?]; [done|congruence].
  - destruct Hout as (-> & detail & -> & ->). simpl. split; [|done].
    split; [done|]. intros [?|?]; [done|congruence].
Qed.

(** X20. [CreateOrder] always replies: given a UUID text of at least
    eight characters and an HTTP round trip, decoder and [Body.Close]
    that return and leave the bulkhead alone, the handler neither panics
    nor blocks.
    No nil response is dereferenced, because the client returns a
    response whenever it returns no error, and the deferred release of
    the slot finds the element its own admission put in. *)
Theorem X20_CreateOrder_always_replies
    (bound : Result (OrderRequest.t CustomerID_t Items_t)) ctx uuid s :
  (8 ≤ String.length uuid)%nat →
  (∀ q h0, ∃ sent h1, httpClient_Do q h0 = (Ret sent, h1) ∧ bulkhead h1 = bulkhead h0) →
  (∀ resp h0, ∃ decoded h1, json_Decode resp h0 = (Ret decoded, h1)
                            ∧ bulkhead h1 = bulkhead h0) →
  (∀ resp h0, ∃ h1, Body_Close resp h0 = (Ret tt, h1) ∧ bulkhead h1 = bulkhead h0) →
  ∃ (code : Z) body s',
    CreateOrder (ProcessPayment call) bound ctx uuid s = (Ret (code, body), s').
Proof.
  intros Hlen Hdo Hdecode Hclose. destruct bound as [req|err]; [|by eexists _, _, _].
  destruct (ProcessPayment_total ctx
    (PaymentRequest.mk ("order-" +:+ String.substring 0 8 uuid) (OrderRequest.Amount req)
       "credit_card") (paymentClient s) Hdo Hdecode Hclose) as (r & e & h' & Hpay & Hr).
  by eapply CreateOrder_replies.
Qed.

(** X22. Payments that fail trip the breaker for the orders that follow:
    when an order's payment call fails on a Closed breaker and that
    failure is at least the [failureThreshold]-th within the last ten
    seconds, the order is answered 500 and the breaker is left Open; every
    order that arrives until [timeout] has passed since that failure is
    answered 503 at once, without a call to the payment service and
    without being stored. *)
Theorem X22_failing_payments_trip_the_breaker
    (req : OrderRequest.t CustomerID_t Items_t) ctx uuid s r err h_out :
  let h := paymentClient s in
  let cb := circuitBreaker h in
  let h_in := exec acquire (set_callErr None (set_result None h)) in
  let paymentReq :=
    PaymentRequest.mk ("order-" +:+ String.substring 0 8 uuid) (OrderRequest.Amount req)
      "credit_card" in
  let s1 := exec (CreateOrder (ProcessPayment call) (Ok req) ctx uuid) s in
  (8 ≤ String.length uuid)%nat →
  state cb = StateClosed →
  failureWindow cb = 10 * Second →
  chan_can_send (semaphore (bulkhead h)) = true →
  call ctx paymentReq h_in = (Ret (r, Some err), h_out) →
  circuitBreaker h_out = cb →
  bulkhead h_out = bulkhead h_in →
  failureThreshold cb
  <= Z.of_nat (length (filter (λ ts, clock h_out - 10 * Second < ts)
                         (failureTimestamps cb ++ [clock h_out]))) →
  eval (CreateOrder (ProcessPayment call) (Ok req) ctx uuid) s
  = Ret (StatusInternalServerError,
         JSON_ErrorResponse
           (ErrorResponse.mk "Internal Server Error" StatusInternalServerError
              ("Failed to process payment: " +:+ Err_Error err)))
  ∧ state (circuitBreaker (paymentClient s1)) = StateOpen
  ∧ ∀ (t : Time) (req2 : OrderRequest.t CustomerID_t Items_t) ctx2 uuid2,
      (8 ≤ String.length uuid2)%nat →
      time_Sub t (clock h_out) <= timeout cb →
      let s2 := mkOrderHandler (set_clock t (paymentClient s1)) (orders s1) in
      let s3 := exec (CreateOrder (ProcessPayment call) (Ok req2) ctx2 uuid2) s2 in
      eval (CreateOrder (ProcessPayment call) (Ok req2) ctx2 uuid2) s2
      = Ret (StatusServiceUnavailable,
             JSON_ErrorResponse
               (ErrorResponse.mk "Service Unavailable" StatusServiceUnavailable
                  "Payment service is temporarily unavailable (circuit breaker open)"))
      ∧ world (paymentClient s3) = world h_out
      ∧ orders s3 = orders s.
Proof.
  intros h cb h_in paymentReq s1 Hlen Hst Hwin Hroom Hcall Hcb Hbh Hcount.
  destruct (ProcessPayment_failed call ctx paymentReq h r err h_out) as [m Hpay];
    [change (state cb ≠ StateOpen); by rewrite Hst|done|done|done|].
  pose proof (CreateOrder_failed (ProcessPayment call) req ctx uuid s _ _ _ Hlen Hpay) as Hrun.
  apply makePaymentCall_returns in Hcall as [(p & _ & [=])|(msg & _ & [= ->])].
  rewrite !bool_decide_eq_false_2 in Hrun by done.
  assert (sliding_after_failure (clock h_out) cb
          = {| state := StateOpen;
               failureTimestamps := filter (λ ts, clock h_out - 10 * Second < ts)
                                      (failureTimestamps cb ++ [clock h_out]);
               failureThreshold := failureThreshold cb;
               failureWindow := failureWindow cb;
               successThreshold := successThreshold cb;
               timeout := timeout cb;
               lastFailureTime := clock h_out;
               serviceName := serviceName cb |}) as Hafter.
  { unfold sliding_after_failure. rewrite Hst, Hwin.
    rewrite wrap64_neg_duration by (vm_compute; (split; discriminate) || reflexivity).
    rewrite bool_decide_eq_true_2 by exact Hcount. reflexivity. }
  match type of Hrun with
  | _ = (_, mkOrderHandler ?hf _) => set (h1 := hf) in Hrun
  end.
  assert (circuitBreaker h1 = sliding_after_failure (clock h_out) cb) as Hcb1
    by (unfold h1; simpl; by rewrite Hcb).
  assert (world h1 = world h_out) as Hw1 by reflexivity.
  clearbody h1. rewrite Hafter in Hcb1.
  unfold s1, eval, exec. rewrite Hrun. cbn [fst snd paymentClient orders].
  split; [done|]. split; [by rewrite Hcb1|].
  intros t req2 ctx2 uuid2 Hlen2 Hwait.
  set (s2 := mkOrderHandler (set_clock t h1) (orders s)).
  destruct (ProcessPayment_open_waiting call ctx2
              (PaymentRequest.mk ("order-" +:+ String.substring 0 8 uuid2)
                 (OrderRequest.Amount req2) "credit_card") (paymentClient s2))
    as [m2 Hpay2].
  { simpl. by rewrite Hcb1. }
  { simpl. rewrite Hcb1. exact Hwait. }
  rewrite (CreateOrder_failed (ProcessPayment call) req2 ctx2 uuid2 s2 _ _ _ Hlen2 Hpay2).
  done.
Qed.
End GuardedHandler.

(** ** The handler on the unguarded client *)
Section StageHandler.
Context {CB W CustomerID_t Items_t : Type}.
Local Abbreviation Heap := (Heap CB W PaymentResponse.t).
Variable baseURL : string.
Variable json_Marshal : PaymentRequest.t → Result string.
Variable http_NewRequestWithContext : Context → string → string → string → Result Request.
Variable httpClient_Do : Request → M Heap (Result Response).
Variable Body_Close : Response → M Heap unit.
Variable json_Decode : Response → M Heap (Result PaymentResponse.t).
Implicit Type s : OrderHandler CB W CustomerID_t Items_t.
Implicit Type body : JSON CustomerID_t Items_t.

Local Abbreviation stage :=
  (stage_ProcessPayment baseURL json_Marshal http_NewRequestWithContext httpClient_Do
     Body_Close json_Decode).

(** X21. In the stage build the handler never answers 503: the payment
    client has no guard that could turn a call away.  Every reply is 200,
    400 or 500, and every failure of the payment call, a cancelled or
    timed out request included, is answered 500 with the detail
    "Failed to process payment: " followed by the text of that error;
    nothing is stored. *)
Theorem X21_stage_build_never_unavailable
    (bound : Result (OrderRequest.t CustomerID_t Items_t)) ctx uuid s :
  (∀ (code : Z) body s',
     CreateOrder stage bound ctx uuid s = (Ret (code, body), s') →
     code ∈ [StatusOK; StatusBadRequest; StatusInternalServerError])
  ∧ (∀ req r err h,
       bound = Ok req →
       (8 ≤ String.length uuid)%nat →
       stage ctx
         (PaymentRequest.mk ("order-" +:+ String.substring 0 8 uuid) (OrderRequest.Amount req)
            "credit_card") (paymentClient s) = (Ret (r, Some err), h) →
       CreateOrder stage bound ctx uuid s
       = (Ret (StatusInternalServerError,
               JSON_ErrorResponse
                 (ErrorResponse.mk "Internal Server Error" StatusInternalServerError
                    ("Failed to process payment: " +:+ Err_Error err))),
          mkOrderHandler h (orders s))).
Proof.
  split.
  - intros code body s'
      [(err & -> & -> & -> & ->)|(req & p & err & h & -> & Hlen & Hpay & Hout)]%CreateOrder_returns.
    { by repeat constructor. }
    simpl in Hpay.
    apply makePaymentCall_returns in Hpay as [(p' & -> & ->)|(msg & -> & ->)].
    + destruct Hout as (p'' & _ & -> & _). by repeat constructor.
    + destruct Hout as (-> & detail & -> & ->). simpl. by repeat constructor.
  - intros req r err h -> Hlen Hpay.
    rewrite (CreateOrder_failed stage req ctx uuid s r err h Hlen Hpay).
    apply makePaymentCall_returns in Hpay as [(p' & _ & [=])|(msg & _ & [= ->])].
    by rewrite !bool_decide_eq_false_2.
Qed.
End StageHandler.

(** * The further properties at concrete inputs *)

(** The fifth failure within a second opens the breaker. *)
Lemma X1_witness :
  breaker_step brink_heap (exec Sliding.recordFailure brink_heap)
  ∧ transition StateClosed StateOpen
  ∧ Sliding.lastFailureTime (circuitBreaker (exec Sliding.recordFailure brink_heap))
    = 2 * Second.
Proof.
  pose proof (X1_breaker_transitions brink_heap (exec Sliding.recordFailure brink_heap)
                (step_recordFailure brink_heap)) as (Hedge & _ & Hopen & _).
  split; [apply step_recordFailure|]. split; [exact Hedge|].
  destruct Hopen as [Hlast _]; [reflexivity|vm_compute; reflexivity|].
  rewrite Hlast. reflexivity.
Defined.

Lemma one_failure_reachable : rtc breaker_step fresh_heap one_failure_heap.
Proof.
  eapply rtc_l; [|apply rtc_once, step_recordFailure].
  apply step_elsewhere; [reflexivity|reflexivity|vm_compute; discriminate].
Qed.

Lemma X2_witness :
  history_ok one_failure_heap
  ∧ Sliding.failureThreshold (circuitBreaker one_failure_heap) = 5.
Proof.
  destruct (X2_breaker_history_invariant fresh_heap one_failure_heap "payment" 5 (30 * Second))
    as [Hok (Hth & _)].
  - reflexivity.
  - exact one_failure_reachable.
  - split; [exact Hok|exact Hth].
Defined.

Lemma X3_witness :
  vec_get (circuitBreakerState (metrics one_failure_heap)) "payment" = 0.
Proof.
  rewrite (X3_gauge_mirrors_state fresh_heap one_failure_heap "payment" 5 (30 * Second)).
  - vm_compute. reflexivity.
  - reflexivity.
  - reflexivity.
  - exact one_failure_reachable.
Defined.

(** A failure that comes in 31 seconds into the open period starts the
    period over: a call 30 seconds after it is still rejected. *)
Lemma X4_witness :
  Sliding.recordSuccess open_heap = (Ret tt, open_heap)
  ∧ Sliding.lastFailureTime (circuitBreaker (exec Sliding.recordFailure open_heap))
    = 31 * Second
  ∧ eval Sliding.canAttempt (set_clock (61 * Second) (exec Sliding.recordFailure open_heap))
    = Ret false.
Proof.
  destruct (X4_outcomes_recorded_while_open open_heap (61 * Second))
    as (Hsucc & _ & Hlast & Hcan).
  - reflexivity.
  - vm_compute. split; discriminate.
  - vm_compute. discriminate.
  - split; [exact Hsucc|]. split; [exact Hlast|]. unfold eval. rewrite Hcan. reflexivity.
Defined.

(** On the tripped breaker a call is counted though its callable would
    never return; on the fresh one a failed call is counted. *)
Lemma X5_witness :
  eval (Sliding.Execute (T := option string) None hang) tripped_heap
  = Ret (None, Some ErrCircuitOpen)
  ∧ failures_total (exec (Sliding.Execute (T := option string) None hang) tripped_heap)
    = failures_total tripped_heap + 1
  ∧ failures_total (exec (Sliding.Execute None (payment_fails background "order-1")) fresh_heap)
    = 1.
Proof.
  pose proof (X5_failures_total_counts_errors (T := option string) None hang
                tripped_heap false tripped_heap) as Hrejected.
  pose proof (X5_failures_total_counts_errors None (payment_fails background "order-1")
                fresh_heap true fresh_heap) as Hfailed.
  destruct Hrejected as [Hres Hcount]; [vm_compute; reflexivity|].
  split; [exact Hres|]. split; [exact Hcount|].
  rewrite (Hfailed eq_refl None (Some (ErrorString "payment service returned status 500"))
             (set_world 1%nat fresh_heap)).
  - vm_compute. reflexivity.
  - reflexivity.
  - reflexivity.
Defined.

Lemma X6_witness :
  eval (Sliding.Execute None (payment_ok background "order-1")) open_heap
  = Ret (Some "pay-1", None)
  ∧ Sliding.state (circuitBreaker
      (exec (Sliding.Execute None (payment_ok background "order-1")) open_heap))
    = StateClosed.
Proof.
  pose proof (X6_trial_through_Execute None (payment_ok background "order-1") open_heap
                (Some "pay-1") None
                (set_world 1%nat (exec (Sliding.setState StateHalfOpen) open_heap)))
    as Htrial.
  destruct Htrial as (Hres & Hst & _).
  - reflexivity.
  - vm_compute. reflexivity.
  - reflexivity.
  - reflexivity.
  - split; [exact Hres|exact Hst].
Defined.

(** Failures 3 and 40 seconds in, far apart, take the count from 3 to 5
    and open the counter breaker. *)
Lemma X7_witness :
  Fixed.failureCount
    (circuitBreaker (exec (counter_failures_at [3 * Second; 40 * Second]) counter_closed_heap))
  = 5
  ∧ Fixed.state
      (circuitBreaker (exec (counter_failures_at [3 * Second; 40 * Second]) counter_closed_heap))
    = StateOpen.
Proof.
  destruct (X7_counter_breaker_opens_at_threshold counter_closed_heap [3 * Second; 40 * Second])
    as [Hcount Hstate].
  - reflexivity.
  - discriminate.
  - vm_compute. discriminate.
  - vm_compute. discriminate.
  - split; [exact Hcount|exact Hstate].
Defined.

Lemma X8_witness :
  NewBulkhead "payment" 0 = Ret (mkBulkhead (mkChan 0 0) "payment")
  ∧ eval (TryExecute callable_ok) no_slot_heap = Ret (Some ErrBulkheadFull)
  ∧ world (exec (TryExecute callable_ok) no_slot_heap) = 0%nat.
Proof.
  destruct (X8_NewBulkhead_capacity "payment" 0 no_slot_heap callable_ok)
    as (_ & Hnew & Hzero).
  destruct Hnew as [Hnew _]; [vm_compute; discriminate|].
  destruct Hzero as (Hres & _ & Hworld); [reflexivity|].
  split; [exact Hnew|]. split; [exact Hres|exact Hworld].
Defined.

Lemma X9_witness :
  active_gauge (exec acquire fresh_heap) = 1
  ∧ active_gauge (exec (TryExecute callable_ok) fresh_heap) = 0.
Proof.
  destruct (X9_active_gauge_around_callable fresh_heap callable_ok (Ret None)
              (set_world 1%nat (exec acquire fresh_heap)))
    as (Hin & Hout & _).
  - reflexivity.
  - reflexivity.
  - discriminate.
  - reflexivity.
  - reflexivity.
  - split; [exact Hin|exact Hout].
Defined.

Lemma X10_witness :
  eval (TryExecute callable_stuck) fresh_heap = Hang
  ∧ chan_len (semaphore (bulkhead (exec (TryExecute callable_stuck) fresh_heap))) = 1%nat.
Proof.
  destruct (X10_stuck_callable_keeps_its_slot fresh_heap callable_stuck
              (set_world 1%nat (exec acquire fresh_heap)))
    as [Hrun Hlen].
  - reflexivity.
  - reflexivity.
  - reflexivity.
  - split; [|exact Hlen]. unfold eval. rewrite Hrun. reflexivity.
Defined.

Lemma X11_witness :
  rejected_total (exec (TryExecute callable_ok) full_heap) = 1
  ∧ rejected_total (exec (Execute true canceled callable_ok) full_heap) = 0.
Proof.
  destruct (X11_rejected_total_counts_full_only full_heap callable_ok true canceled)
    as (Htry & _ & Hexe).
  - reflexivity.
  - split; [exact Htry|exact Hexe].
Defined.

Lemma X12_witness :
  eval (TryExecute (TryExecute callable_ok)) last_slot_heap = Ret (Some ErrBulkheadFull)
  ∧ bulkhead (exec (TryExecute (TryExecute callable_ok)) last_slot_heap)
    = bulkhead last_slot_heap
  ∧ world (exec (TryExecute (TryExecute callable_ok)) last_slot_heap) = 0%nat.
Proof.
  destruct (X12_reentrant_call_is_rejected last_slot_heap callable_ok)
    as (Hres & Hb & Hw & _).
  - reflexivity.
  - split; [exact Hres|]. split; [exact Hb|exact Hw].
Defined.

Lemma X13_witness :
  eval (ProcessPayment payment_ok background "order-1") half_open_heap
  = Ret (Some "pay-1", None)
  ∧ Sliding.state
      (circuitBreaker (exec (ProcessPayment payment_ok background "order-1") half_open_heap))
    = StateClosed.
Proof.
  destruct (X13_ProcessPayment_success payment_ok background "order-1" half_open_heap
              (Some "pay-1")
              (set_world 1%nat
                 (exec acquire (set_callErr None (set_result None half_open_heap)))))
    as (Hres & _ & _ & _ & Hhalf).
  - vm_compute. discriminate.
  - reflexivity.
  - reflexivity.
  - reflexivity.
  - reflexivity.
  - split; [exact Hres|]. by destruct Hhalf.
Defined.

Lemma X14_witness :
  eval (ProcessPayment payment_ok background "order-1") half_open_full_heap
  = Ret (None, Some ErrBulkheadFull)
  ∧ Sliding.state
      (circuitBreaker (exec (ProcessPayment payment_ok background "order-1")
                         half_open_full_heap))
    = StateOpen
  ∧ world (exec (ProcessPayment payment_ok background "order-1") half_open_full_heap)
    = 0%nat.
Proof.
  destruct (X14_full_bulkhead_fails_the_trial payment_ok background "order-1"
              half_open_full_heap)
    as (Hres & Hst & _ & _ & Hw).
  - reflexivity.
  - reflexivity.
  - split; [exact Hres|]. split; [exact Hst|exact Hw].
Defined.

(** The payment service answers 500: the call is an error that carries
    the status, and the request did reach the service. *)
Lemma X15_witness :
  eval (demo_call 500 background demo_payment)
    (service_heap 0 (Sliding.NewCircuitBreaker "payment" 5 (30 * Second)) 0)
  = Ret (None, Some (ErrorString "payment service returned status 500"))
  ∧ ErrorString "payment service returned status 500" ≠ ErrBulkheadFull.
Proof.
  pose (h := service_heap 0 (Sliding.NewCircuitBreaker "payment" 5 (30 * Second)) 0).
  destruct (X15_makePaymentCall_result demo_baseURL demo_Marshal demo_NewRequest
              (service_answers 500) demo_Close demo_Decode background demo_payment h
              None (Some (ErrorString "payment service returned status 500"))
              (set_world ["order-7"] h))
    as (_ & Hfresh & _).
  - reflexivity.
  - split; [reflexivity|].
    specialize (Hfresh _ eq_refl). intros Heq. apply Hfresh. rewrite Heq.
    apply list_elem_of_further, list_elem_of_here.
Defined.

(** A payment that the service answers with 500, on a Closed breaker
    with a free slot: the client returns the error of the call, and the
    request did reach the service. *)
Lemma X16_witness :
  eval (ProcessPayment (demo_call 500) background demo_payment)
    (service_heap 0 (Sliding.NewCircuitBreaker "payment" 5 (30 * Second)) 0)
  = Ret (None, Some (ErrorString "payment service returned status 500"))
  ∧ world (exec (ProcessPayment (demo_call 500) background demo_payment)
             (service_heap 0 (Sliding.NewCircuitBreaker "payment" 5 (30 * Second)) 0))
    = ["order-7"].
Proof.
  pose (h := service_heap 0 (Sliding.NewCircuitBreaker "payment" 5 (30 * Second)) 0).
  destruct (X16_guards_are_transparent demo_baseURL demo_Marshal demo_NewRequest
              (service_answers 500) demo_Close demo_Decode background demo_payment h
              None (Some (ErrorString "payment service returned status 500"))
              (set_world ["order-7"] (exec acquire (set_callErr None (set_result None h)))))
    as (Hres & _ & Hw & _).
  - vm_compute. discriminate.
  - reflexivity.
  - reflexivity.
  - reflexivity.
  - reflexivity.
  - split; [exact Hres|exact Hw].
Defined.

(** A body that does not bind: 400, and nothing is touched. *)
Lemma X17_witness :
  CreateOrder (ProcessPayment (demo_call 200)) (Fail (ErrorString "EOF")) background demo_uuid
    fresh_handler
  = (Ret (StatusBadRequest,
          JSON_ErrorResponse
            (ErrorResponse.mk "Bad Request" 400 "Invalid order request: EOF")),
     fresh_handler)
  ∧ StatusBadRequest
    ∈ [StatusOK; StatusBadRequest; StatusInternalServerError; StatusServiceUnavailable].
Proof.
  destruct (X17_CreateOrder_error_replies (ProcessPayment (demo_call 200))
              (Fail (ErrorString "EOF")) background demo_uuid fresh_handler StatusBadRequest
              (JSON_ErrorResponse
                 (ErrorResponse.mk "Bad Request" 400 "Invalid order request: EOF"))
              fresh_handler)
    as (Hcode & _).
  - reflexivity.
  - split; [reflexivity|exact Hcode].
Defined.

Lemma X18_witness :
  let s' := exec (CreateOrder (ProcessPayment (demo_call 200)) (Ok demo_order) background
                    demo_uuid) fresh_handler in
  eval (GetOrder "order-123e4567") s' = Ret (StatusOK, JSON_OrderResponse demo_created)
  ∧ GetOrder "order-00000000" s' = ((GetOrder "order-00000000" fresh_handler).1, s').
Proof.
  intros s'.
  destruct (X18_created_order_can_be_fetched (ProcessPayment (demo_call 200)) (Ok demo_order)
              background demo_uuid fresh_handler (JSON_OrderResponse demo_created) s')
    as (req & p & order & h & _ & Hbody & _ & _ & Hget & Hother).
  - vm_compute. reflexivity.
  - injection Hbody as <-.
    change (OrderResponse.OrderID demo_created) with "order-123e4567" in Hget, Hother.
    split.
    + unfold eval. rewrite Hget. reflexivity.
    + apply Hother. discriminate.
Defined.

(** Ten payments are in flight: the eleventh order gets 503, the payment
    service is not called and nothing is stored. *)
Lemma X19_witness :
  let s' := exec (CreateOrder (ProcessPayment (demo_call 200)) (Ok demo_order) background
                    demo_uuid) full_handler in
  world (paymentClient s') = [] ∧ orders s' = ∅.
Proof.
  intros s'.
  destruct (X19_unavailable_iff_guard_rejects demo_baseURL demo_Marshal demo_NewRequest
              (service_answers 200) demo_Close demo_Decode demo_order background demo_uuid
              full_handler StatusServiceUnavailable
              (JSON_ErrorResponse
                 (ErrorResponse.mk "Service Unavailable" 503
                    "Too many concurrent payment requests (bulkhead full)")) s')
    as [_ Hquiet].
  - vm_compute. reflexivity.
  - destruct Hquiet as [Hw Ho]; [reflexivity|]. split; [exact Hw|exact Ho].
Defined.

Lemma X20_witness :
  ∃ (code : Z) body s',
    CreateOrder (ProcessPayment (demo_call 200)) (Ok demo_order) background demo_uuid
      open_handler = (Ret (code, body), s').
Proof.
  apply (X20_CreateOrder_always_replies demo_baseURL demo_Marshal demo_NewRequest
           (service_answers 200) demo_Close demo_Decode (Ok demo_order) background demo_uuid
           open_handler).
  - simpl. lia.
  - intros q h0. eexists _, _. split; reflexivity.
  - intros resp h0. eexists _, _. split; reflexivity.
  - intros resp h0. eexists. split; reflexivity.
Defined.

(** Without guards a payment service that answers 500 makes the order a
    500 that carries the client's error. *)
Lemma X21_witness :
  StatusInternalServerError ∈ [StatusOK; StatusBadRequest; StatusInternalServerError]
  ∧ eval (CreateOrder (demo_stage 500) (Ok demo_order) background demo_uuid) fresh_handler
    = Ret (StatusInternalServerError,
           JSON_ErrorResponse
             (ErrorResponse.mk "Internal Server Error" StatusInternalServerError
                "Failed to process payment: payment service returned status 500")).
Proof.
  destruct (X21_stage_build_never_unavailable demo_baseURL demo_Marshal demo_NewRequest
              (service_answers 500) demo_Close demo_Decode (Ok demo_order) background
              demo_uuid fresh_handler)
    as [Hcodes Hfailed].
  split.
  - apply (Hcodes StatusInternalServerError
             (JSON_ErrorResponse
                (ErrorResponse.mk "Internal Server Error" 500
                   "Failed to process payment: payment service returned status 500"))
             (exec (CreateOrder (demo_stage 500) (Ok demo_order) background demo_uuid)
                fresh_handler)).
    vm_compute. reflexivity.
  - unfold eval, demo_stage.
    rewrite (Hfailed demo_order None (ErrorString "payment service returned status 500")
               (set_world ["order-123e4567"] (paymentClient fresh_handler)) eq_refl).
    + reflexivity.
    + simpl. lia.
    + reflexivity.
Defined.

(** The fifth failed payment within a second opens the breaker, and an
    order thirty seconds later is still answered 503. *)
Lemma X22_witness :
  let s1 := exec (CreateOrder (ProcessPayment (demo_call 500)) (Ok demo_order) background
                    demo_uuid) brink_handler in
  Sliding.state (circuitBreaker (paymentClient s1)) = StateOpen
  ∧ eval (CreateOrder (ProcessPayment (demo_call 500)) (Ok demo_order) background demo_uuid)
      (mkOrderHandler (set_clock (32 * Second) (paymentClient s1)) (orders s1))
    = Ret (StatusServiceUnavailable,
           JSON_ErrorResponse
             (ErrorResponse.mk "Service Unavailable" StatusServiceUnavailable
                "Payment service is temporarily unavailable (circuit breaker open)")).
Proof.
  intros s1.
  destruct (X22_failing_payments_trip_the_breaker demo_baseURL demo_Marshal demo_NewRequest
              (service_answers 500) demo_Close demo_Decode demo_order background demo_uuid
              brink_handler None (ErrorString "payment service returned status 500")
              (set_world ["order-123e4567"]
                 (exec acquire
                    (set_callErr None (set_result None (paymentClient brink_handler))))))
    as (_ & Hopen & Hlater).
  - simpl. lia.
  - reflexivity.
  - reflexivity.
  - reflexivity.
  - reflexivity.
  - reflexivity.
  - reflexivity.
  - vm_compute. discriminate.
  - split; [exact Hopen|].
    destruct (Hlater (32 * Second) demo_order background demo_uuid) as (Hres & _).
    + simpl. lia.
    + vm_compute. discriminate.
    + exact Hres.
Defined.
